(** * Habit Lightly: the habit-tracking state and its derived statistics

    A shallow embedding of the single-file tracker component: date keys
    and their arithmetic, streaks, the daily progress figure, the message
    selector and the four state transitions.

    Conventions of the embedding.
    - A JS string is a [string]; its characters stand for code units
      below 256 (Latin-1).
    - A JS number that is an integer or NaN is an [option Z], [None]
      being NaN.
    - An object used as a map ([State.days]) is a [gmap string _]; the
      order of its keys is not represented.
    - A [Date] is its time value, the milliseconds from the epoch in
      UTC, or invalid.  The host time zone is a parameter of everything
      that reads or sets local calendar fields: it is the function
      [LocalTZA] of ECMA-262, which the platform leaves to the host. *)

From Stdlib Require Import ZArith Lia Bool List Ascii String DecimalString DecimalPos.
From stdpp Require Import base option list gmap strings pretty.

Local Open Scope Z_scope.

(** ** The platform: [Date] (ECMA-262, sections "Time Values and Time
    Range" and "Properties of the Date Prototype Object")

    [YearFromTime], [MonthFromTime] and [DateFromTime] are given on day
    numbers: each stands for the function of the standard applied to a
    time value [t] through [Day t]. *)

Module JSDate.

Definition InLeapYear (y : Z) : bool :=
  (y mod 4 =? 0) && (negb (y mod 100 =? 0) || (y mod 400 =? 0)).

Definition DaysInYear (y : Z) : Z := if InLeapYear y then 366 else 365.

Definition DayFromYear (y : Z) : Z :=
  365 * (y - 1970) + (y - 1969) / 4 - (y - 1901) / 100 + (y - 1601) / 400.

(** The largest [y] with [DayFromYear y <= day]: an estimate from the mean
    length of a year, corrected by at most one ([YearFromTime_spec]). *)
Definition YearFromTime (day : Z) : Z :=
  let g := 1970 + (400 * day) / 146097 in
  if day <? DayFromYear g then g - 1
  else if DayFromYear (g + 1) <=? day then g + 1
  else g.

Definition DayWithinYear (day : Z) : Z := day - DayFromYear (YearFromTime day).

Definition leapDay (y : Z) : Z := if InLeapYear y then 1 else 0.

Definition MonthFromTime (day : Z) : Z :=
  let d := DayWithinYear day in
  let l := leapDay (YearFromTime day) in
  if d <? 31 then 0
  else if d <? 59 + l then 1
  else if d <? 90 + l then 2
  else if d <? 120 + l then 3
  else if d <? 151 + l then 4
  else if d <? 181 + l then 5
  else if d <? 212 + l then 6
  else if d <? 243 + l then 7
  else if d <? 273 + l then 8
  else if d <? 304 + l then 9
  else if d <? 334 + l then 10
  else 11.

Definition DateFromTime (day : Z) : Z :=
  let d := DayWithinYear day in
  let l := leapDay (YearFromTime day) in
  match MonthFromTime day with
  | 0 => d + 1
  | 1 => d - 30
  | 2 => d - 58 - l
  | 3 => d - 89 - l
  | 4 => d - 119 - l
  | 5 => d - 150 - l
  | 6 => d - 180 - l
  | 7 => d - 211 - l
  | 8 => d - 242 - l
  | 9 => d - 272 - l
  | 10 => d - 303 - l
  | _ => d - 333 - l
  end.

(** Day within the year [y] of the first day of month [mn] (0 to 11). *)
Definition monthStart (y mn : Z) : Z :=
  let l := leapDay y in
  match mn with
  | 0 => 0
  | 1 => 31
  | 2 => 59 + l
  | 3 => 90 + l
  | 4 => 120 + l
  | 5 => 151 + l
  | 6 => 181 + l
  | 7 => 212 + l
  | 8 => 243 + l
  | 9 => 273 + l
  | 10 => 304 + l
  | _ => 334 + l
  end.

(** [MakeDay]: months outside 0..11 carry into the year, and the date is
    an offset from the first of the month. *)
Definition MakeDay (year month date : Z) : Z :=
  let ym := year + month / 12 in
  let mn := month mod 12 in
  DayFromYear ym + monthStart ym mn + date - 1.

Definition msPerDay : Z := 86400000.

Definition Day (t : Z) : Z := t / msPerDay.

Definition TimeWithinDay (t : Z) : Z := t mod msPerDay.

Definition MakeDate (day time : Z) : Z := day * msPerDay + time.

(** The time zone of the host: [LocalTZA z t isUTC] is the offset of
    local time from UTC, in milliseconds, at the time value [t], which
    is a UTC time when [isUTC] holds and a local time otherwise.  A local
    time that the zone skipped is read with the offset in force before
    the transition. *)
Record Zone := mkZone { LocalTZA : Z → bool → Z }.

Definition LocalTime (z : Zone) (t : Z) : Z := t + LocalTZA z t true.

Definition UTC (z : Zone) (t : Z) : Z := t - LocalTZA z t false.

(** A [Date] object: [None] is the invalid date. *)
Definition t := option Z.

(** [TimeClip]: a time value beyond 10^8 days from the epoch is invalid. *)
Definition TimeClip (time : Z) : t :=
  if Z.abs time <=? 8640000000000000 then Some time else None.

(** [new Date(y, m, d)]: a year from 0 to 99 means 1900 + year, and the
    fields are those of local midnight. *)
Definition make (z : Zone) (y m d : option Z) : t :=
  match y, m, d with
  | Some y, Some m, Some d =>
      let yr := if (0 <=? y) && (y <=? 99) then 1900 + y else y in
      let finalDate := MakeDate (MakeDay yr m d) 0 in
      TimeClip (UTC z finalDate)
  | _, _, _ => None
  end.

Definition getFullYear (z : Zone) (dt : t) : option Z :=
  (λ t, YearFromTime (Day (LocalTime z t))) <$> dt.
Definition getMonth (z : Zone) (dt : t) : option Z :=
  (λ t, MonthFromTime (Day (LocalTime z t))) <$> dt.
Definition getDate (z : Zone) (dt : t) : option Z :=
  (λ t, DateFromTime (Day (LocalTime z t))) <$> dt.

(** [dt.setDate(v)]: the day [v] of the local month the date is in, at
    the local time of day it has. *)
Definition setDate (z : Zone) (dt : t) (v : option Z) : t :=
  match dt, v with
  | Some t, Some v =>
      let t := LocalTime z t in
      let newDate :=
        MakeDate (MakeDay (YearFromTime (Day t)) (MonthFromTime (Day t)) v)
                 (TimeWithinDay t) in
      TimeClip (UTC z newDate)
  | _, _ => None
  end.

(** A zone with the same offset at all times. *)
Definition fixedZone (offset : Z) : Zone := mkZone (λ _ _, offset).

Definition utc : Zone := fixedZone 0.

(** Central European time around the 31st of March 2024: one hour ahead
    of UTC until 01:00 UTC of that day, two hours from then on; the local
    hour from 02:00 to 03:00 was skipped. *)
Definition paris2024 : Zone :=
  mkZone (λ t isUTC,
    if isUTC then (if t <? 1711846800000 then 3600000 else 7200000)
    else (if t <? 1711854000000 then 3600000 else 7200000)).

(** Pacific/Apia around the end of 2011: ten hours behind UTC until
    10:00 UTC of the 30th of December, fourteen hours ahead from then on;
    the local 30th of December was skipped, the 29th being followed by
    the 31st. *)
Definition apia : Zone :=
  mkZone (λ t isUTC,
    if isUTC then (if t <? 1325239200000 then -36000000 else 50400000)
    else (if t <? 1325289600000 then -36000000 else 50400000)).

(** The zone skips no local calendar day: a local time, read by the zone
    and shown again in local time, is still on its calendar day, and the
    offsets are less than a day. *)
Definition keepsDays (z : Zone) : Prop :=
  ∀ t, Z.abs (LocalTZA z t false) <= msPerDay ∧ Day (LocalTime z (UTC z t)) = Day t.

End JSDate.

(** ** The platform: conversions between strings and numbers *)

(** [Number(s)] on the strings that [split] can hand it here: a run of
    decimal digits is its value, the empty string is 0, and anything else
    is taken to be NaN (signs, blanks, fractions and exponents are not
    modelled). *)
Definition Number (s : string) : option Z :=
  Z.of_uint <$> NilEmpty.uint_of_string s.

(** [String(n)]. *)
Definition String_of (n : option Z) : string :=
  match n with
  | Some z => NilZero.string_of_int (Z.to_int z)
  | None => "NaN"
  end.

(** [s.padStart(2, "0")]. *)
Definition padStart2 (s : string) : string :=
  match s with
  | EmptyString => "00"
  | String c EmptyString => String "0" (String c EmptyString)
  | _ => s
  end.

(** [s.split(sep)] for a separator of one character. *)
Fixpoint split (sep : ascii) (s : string) : list string :=
  match s with
  | EmptyString => [EmptyString]
  | String c rest =>
      if Ascii.eqb c sep then EmptyString :: split sep rest
      else match split sep rest with
           | w :: ws => String c w :: ws
           | [] => [String c EmptyString]
           end
  end.

(** Addition of numbers, NaN absorbing. *)
Definition num_add (a b : option Z) : option Z :=
  match a, b with Some x, Some y => Some (x + y) | _, _ => None end.

(** ** Date keys *)

(** [toLocalDateKey(d)]: the year is printed as it is, month and day are
    padded to two digits. *)
Definition toLocalDateKey (z : JSDate.Zone) (d : JSDate.t) : string :=
  let year := JSDate.getFullYear z d in
  let month := padStart2 (String_of (num_add (JSDate.getMonth z d) (Some 1))) in
  let day := padStart2 (String_of (JSDate.getDate z d)) in
  String_of year +:+ "-" +:+ month +:+ "-" +:+ day.

(** [const [y, m, d] = key.split("-").map(Number)]: a missing component
    is undefined, which [m - 1] and the constructor turn into NaN. *)
Definition keyParts (key : string) : option Z * option Z * option Z :=
  let ps := Number <$> split "-" key in
  (mjoin (ps !! 0%nat), mjoin (ps !! 1%nat), mjoin (ps !! 2%nat)).

Definition shiftLocalDateKey (z : JSDate.Zone) (key : string) (days : Z) : string :=
  let '(y, m, d) := keyParts key in
  let dt := JSDate.make z y (num_add m (Some (-1))) d in
  let dt := JSDate.setDate z dt (num_add (JSDate.getDate z dt) (Some days)) in
  toLocalDateKey z dt.

(** ** The platform: strings *)

Definition charCode (c : ascii) : Z := Z.of_N (N_of_ascii c).

(** White space and line terminators among the code units below 256. *)
Definition isWhiteSpace (c : ascii) : bool :=
  let n := charCode c in
  ((9 <=? n) && (n <=? 13)) || (n =? 32) || (n =? 160).

Fixpoint trimStart (s : string) : string :=
  match s with
  | EmptyString => EmptyString
  | String c r => if isWhiteSpace c then trimStart r else s
  end.

Fixpoint trimEnd (s : string) : string :=
  match s with
  | EmptyString => EmptyString
  | String c r =>
      match trimEnd r with
      | EmptyString => if isWhiteSpace c then EmptyString else String c EmptyString
      | r' => String c r'
      end
  end.

(** [s.trim()]. *)
Definition trim (s : string) : string := trimEnd (trimStart s).

(** [s.slice(start, end)] for indices that are not negative, [start]
    not after [end]: both are clamped to the length. *)
Definition slice (start end_ : nat) (s : string) : string :=
  substring start (end_ - start) s.

(** Lower case of one code unit below 256: A-Z and the accented capitals
    of Latin-1 (all of 192..222 but the multiplication sign). *)
Definition lowerChar (c : ascii) : ascii :=
  let n := charCode c in
  if ((65 <=? n) && (n <=? 90)) || ((192 <=? n) && (n <=? 222) && negb (n =? 215))
  then ascii_of_N (Z.to_N (n + 32)) else c.

(** [s.toLowerCase()]. *)
Fixpoint toLowerCase (s : string) : string :=
  match s with
  | EmptyString => EmptyString
  | String c r => String (lowerChar c) (toLowerCase r)
  end.

(** ** The platform: [Set], a collection in insertion order *)

Module JSSet.

Definition t := list string.

Definition has (x : string) (s : t) : bool := bool_decide (x ∈ s).

Definition add (x : string) (s : t) : t := if has x s then s else s ++ [x].

Definition delete (x : string) (s : t) : t := filter (λ y, y ≠ x) s.

(** [new Set(arr)]: the elements of [arr], each at its first place. *)
Definition of_array (arr : list string) : t := foldl (λ acc x, add x acc) [] arr.

(** [[...s]]. *)
Definition to_array (s : t) : list string := s.

End JSSet.

(** ** The platform: binary64 arithmetic for [done / total * 100]

    A finite number that is not negative is kept as a fraction
    [num / den] whose denominator is a power of two.  Rounding is to
    nearest, ties to even, with 53 bits of precision.  The exponent is not
    bounded: the model is that of the normal numbers, those from 2^-1022
    on, and the quotients and products formed here lie between 2^-53 and
    128. *)

Module Float.

Record t := mk { num : Z; den : Z }.

(** The fraction [p / q] times [2^k]. *)
Definition scale (p q k : Z) : Z * Z :=
  if 0 <=? k then (p * 2 ^ k, q) else (p, q * 2 ^ (- k)).

(** The exponent [e] of [p / q], where [2^e <= p / q < 2^(e+1)]: the
    position of the leading bit of the quotient, taken after a shift that
    brings every normal number above 1. *)
Definition exponent (p q : Z) : Z := Z.log2 (p * 2 ^ 1100 / q) - 1100.

(** [p / q], for [0 <= p] and [0 < q], rounded to binary64. *)
Definition round (p q : Z) : t :=
  if p =? 0 then mk 0 1
  else
    let k := 52 - exponent p q in
    let '(n, d) := scale p q k in
    let m := n / d in
    let r := n mod d in
    let m' :=
      if 2 * r <? d then m
      else if d <? 2 * r then m + 1
      else if Z.even m then m else m + 1 in
    if 0 <=? k then mk m' (2 ^ k) else mk (m' * 2 ^ (- k)) 1.

(** The number that holds the integer [n]. *)
Definition of_Z (n : Z) : t := round n 1.

Definition div (x y : t) : t := round (num x * den y) (den x * num y).

Definition mul (x y : t) : t := round (num x * num y) (den x * den y).

(** [Math.round(x)]: the nearest integer, a tie going up. *)
Definition Math_round (x : t) : Z := (2 * num x + den x) / (2 * den x).

End Float.

(** ** The state of the tracker *)

Record Habit := mkHabit {
  id : string;
  name : string;
  color : string;
  createdAt : string;
  archived : option bool;
}.

Record State := mkState {
  userId : string;
  habits : list Habit;
  days : gmap string (list string);
  lastSeen : option string;
}.

(** What one call of [uid()] draws from the host: the result of
    [crypto.randomUUID()], where the host has [crypto] with that method,
    and the text of [Math.random().toString(36)]. *)
Record Draw := mkDraw {
  randomUUID : option string;
  randomText : string;
}.

Definition uid (d : Draw) : string :=
  match randomUUID d with
  | Some u => u
  | None => "id-" +:+ slice 2 10 (randomText d)
  end.

(** The result of [uid()] and that of [new Date().toISOString()] are
    inputs of the transitions that call them. *)

(** [days[key]?.includes(habitId)]. *)
Definition includes (habitId : string) (arr : option (list string)) : bool :=
  match arr with
  | Some l => bool_decide (habitId ∈ l)
  | None => false
  end.

(** [getStreak]: the loop runs while the cursor's day holds the habit;
    [fuel] bounds the number of tests of the loop condition. *)
Fixpoint getStreak_loop (z : JSDate.Zone) (fuel : nat) (habitId : string)
    (days : gmap string (list string)) (streak : Z) (cursor : string) : option Z :=
  match fuel with
  | O => None
  | S fuel' =>
      if includes habitId (days !! cursor)
      then getStreak_loop z fuel' habitId days (streak + 1)
             (shiftLocalDateKey z cursor (-1))
      else Some streak
  end.

Definition getStreak (z : JSDate.Zone) (fuel : nat) (habitId : string)
    (days : gmap string (list string)) (todayKey : string) : option Z :=
  getStreak_loop z fuel habitId days 0 todayKey.

(** ** The message selector *)

Definition pick {T} (arr : list T) (indexSeed : Z) : option T :=
  if (Z.of_nat (length arr) =? 0) then None
  else arr !! Z.to_nat (Z.abs indexSeed mod Z.of_nat (length arr)).

(** The texts are data: nothing reads their characters, and those beyond
    Latin-1 stand here as the bytes of their UTF-8 form. *)
Definition MESSAGES : list string := [
  "Your next win starts here.";
  "Small steps, steady light.";
  "Make it easy. Make it daily.";
  "Show up for five minutes—then keep going.";
  "Direction over speed. Consistency over intensity.";
  "Momentum is your superpower.";
  "Little by little becomes a lot."
].

(** [ToInt32]: the value modulo 2^32, in the signed range. *)
Definition ToInt32 (z : Z) : Z :=
  let m := z mod 2 ^ 32 in
  if m <? 2 ^ 31 then m else m - 2 ^ 32.

(** The number that holds the integer [n], or the one nearest to it:
    [n] itself up to 2^53 and a number of 53 bits beyond, the nearest
    one, a tie going to the even one. *)
Definition numberOf (n : Z) : Z :=
  let x := Float.of_Z (Z.abs n) in
  Z.sgn n * (Float.num x / Float.den x).

(** The body of the loop of [stableHash]: [(h << 5) - h + s.charCodeAt(i)].
    The shift is that of 32-bit integers and wraps; the subtraction and
    the addition are those of numbers, and each is rounded. *)
Definition hashStep (h : Z) (c : ascii) : Z :=
  numberOf (numberOf (ToInt32 (Z.shiftl (ToInt32 h) 5) - h) + charCode c).

Fixpoint hashLoop (s : string) (h : Z) : Z :=
  match s with
  | EmptyString => h
  | String c r => hashLoop r (hashStep h c)
  end.

Definition stableHash (s : string) : Z := ToInt32 (hashLoop s 0).

Definition getDailyMessage (userId dayKey : string) : option string :=
  let seed := stableHash (userId +:+ "::" +:+ dayKey) in
  pick MESSAGES seed.

(** The other selector of the repository, [getMessageForUser] of the
    library module: it reads the colour scheme of the host.  The host
    also has the time zone. *)
Record Env := mkEnv {
  hasWindow : bool;
  prefersDark : bool;
  timeZone : JSDate.Zone;
}.

Definition LIGHT_MESSAGES : list string := [
  "Shine like you're solar-powered ☀️";
  "Brightness isn’t just a theme — it's your energy.";
  "The path is clear, the light is yours — walk it boldly."
].

Definition DARK_MESSAGES : list string := [
  "Even in the shadows, you radiate purpose.";
  "Night mode: activated. So is your ambition.";
  "Stars shine brightest when the world is darkest."
].

Definition getMessageForUser (env : Env) (userId : string) : option string :=
  let source := if hasWindow env && prefersDark env then DARK_MESSAGES else LIGHT_MESSAGES in
  let index := (String.length userId mod length source)%nat in
  source !! index.

(** ** The component: derived values *)

(** What a render of [Home] reads: the host, the state (null until it is
    loaded) and today's key. *)
Record Render := mkRender {
  env : Env;
  state : option State;
  todayKey : string;
}.

Definition truthy (b : option bool) : bool := default false b.

Definition activeHabits (st : option State) : list Habit :=
  filter (λ h, negb (truthy (archived h)) = true) (default [] (habits <$> st)).

Definition completedToday (st : option State) (todayKey : string) : JSSet.t :=
  JSSet.of_array (default [] (st ≫= λ s, days s !! todayKey)).

Record Progress := mkProgress { total : Z; done : Z; pct : Z }.

Definition todayProgress (st : option State) (todayKey : string) : Progress :=
  let active := activeHabits st in
  let total := Z.of_nat (length active) in
  let done := Z.of_nat (length
    (filter (λ i, existsb (λ h, String.eqb (id h) i) active = true)
            (JSSet.to_array (completedToday st todayKey)))) in
  let pct :=
    if total =? 0 then 0
    else Float.Math_round
           (Float.mul (Float.div (Float.of_Z done) (Float.of_Z total)) (Float.of_Z 100)) in
  mkProgress total done pct.

Definition message (r : Render) : string :=
  match state r with
  | None => ""
  | Some s => default "" (getDailyMessage (userId s) (todayKey r))
  end.

Definition streakFor (fuel : nat) (r : Render) (habitId : string) : option Z :=
  match state r with
  | None => Some 0
  | Some s => getStreak (timeZone (env r)) fuel habitId (days s) (todayKey r)
  end.

(** ** The component: transitions

    Each handler passes an updater to [setState]; an updater leaves the
    null state as it is. *)

Definition setState (f : State → State) (st : option State) : option State :=
  f <$> st.

Definition set_habits (s : State) (hs : list Habit) : State :=
  mkState (userId s) hs (days s) (lastSeen s).

Definition set_days (s : State) (ds : gmap string (list string)) : State :=
  mkState (userId s) (habits s) ds (lastSeen s).

(** [addHabit]: [newHabitName] and [color] are the fields of the form,
    [newId] and [now] the results of [uid()] and of the clock. *)
Definition addHabit_update (name' color newId now : string) (s : State) : State :=
  let exists_ :=
    existsb (λ h, String.eqb (toLowerCase (name h)) (toLowerCase name')) (habits s) in
  let newHabit := mkHabit newId name' color now None in
  set_habits s (if exists_ then habits s else habits s ++ [newHabit]).

Definition addHabit (newHabitName color newId now : string)
    (st : option State) : option State :=
  let name' := trim newHabitName in
  if String.eqb name' "" then st
  else setState (addHabit_update name' color newId now) st.

Definition deleteHabit_update (habitId : string) (s : State) : State :=
  let nextDays := (λ arr : list string, filter (λ hid, hid ≠ habitId) arr) <$> days s in
  mkState (userId s) (filter (λ h, id h ≠ habitId) (habits s)) nextDays (lastSeen s).

Definition deleteHabit (habitId : string) (st : option State) : option State :=
  setState (deleteHabit_update habitId) st.

Definition toggleToday_update (todayKey habitId : string) (s : State) : State :=
  let current := JSSet.of_array (default [] (days s !! todayKey)) in
  let current :=
    if JSSet.has habitId current then JSSet.delete habitId current
    else JSSet.add habitId current in
  set_days s (<[todayKey := JSSet.to_array current]> (days s)).

Definition toggleToday (todayKey habitId : string) (st : option State) : option State :=
  setState (toggleToday_update todayKey habitId) st.

Definition markDay_update (habitId dayKey : string) (done : bool) (s : State) : State :=
  let current := JSSet.of_array (default [] (days s !! dayKey)) in
  let current :=
    if done then JSSet.add habitId current else JSSet.delete habitId current in
  set_days s (<[dayKey := JSSet.to_array current]> (days s)).

Definition markDay (habitId dayKey : string) (done : bool)
    (st : option State) : option State :=
  setState (markDay_update habitId dayKey done) st.

(** The first-run state built when nothing is stored: two calls of
    [uid()] and two readings of the clock. *)
Definition initial (userUid habitUid created seen : string) : State :=
  mkState userUid [mkHabit habitUid "Check-in" "#22c55e" created None] ∅ (Some seen).

(** ** Calendar dates, as the specification speaks of them *)

Module Calendar.

(** A date is a year, a month from 1 to 12 and a day of the month. *)
Definition date := (Z * Z * Z)%type.

Definition daysInMonth (y m : Z) : Z :=
  match m with
  | 2 => if JSDate.InLeapYear y then 29 else 28
  | 4 | 6 | 9 | 11 => 30
  | _ => 31
  end.

Definition valid (dt : date) : Prop :=
  let '(y, m, d) := dt in 1 <= m <= 12 ∧ 1 <= d <= daysInMonth y m.

Definition validb (dt : date) : bool :=
  let '(y, m, d) := dt in
  (1 <=? m) && (m <=? 12) && (1 <=? d) && (d <=? daysInMonth y m).

Definition tomorrow (dt : date) : date :=
  let '(y, m, d) := dt in
  if d <? daysInMonth y m then (y, m, d + 1)
  else if m <? 12 then (y, m + 1, 1)
  else (y + 1, 1, 1).

Definition yesterday (dt : date) : date :=
  let '(y, m, d) := dt in
  if 1 <? d then (y, m, d - 1)
  else if 1 <? m then (y, m - 1, daysInMonth y (m - 1))
  else (y - 1, 12, 31).

(** The date [n] days after [dt] (before it, when [n] is negative). *)
Definition addDays (n : Z) (dt : date) : date :=
  if 0 <=? n then Nat.iter (Z.to_nat n) tomorrow dt
  else Nat.iter (Z.to_nat (- n)) yesterday dt.

(** The date of a day number, and the day number of a date. *)
Definition ofDay (t : Z) : date :=
  (JSDate.YearFromTime t, JSDate.MonthFromTime t + 1, JSDate.DateFromTime t).

Definition toDay (dt : date) : Z :=
  let '(y, m, d) := dt in JSDate.MakeDay y (m - 1) d.

(** The key [YYYY-MM-DD] of a date. *)
Definition format (dt : date) : string :=
  let '(y, m, d) := dt in
  String_of (Some y) +:+ "-" +:+ padStart2 (String_of (Some m))
    +:+ "-" +:+ padStart2 (String_of (Some d)).

End Calendar.

(** The date a key names, when its three components are numbers. *)
Definition keyDate (key : string) : option Calendar.date :=
  match keyParts key with
  | (Some y, Some m, Some d) => Some (y, m, d)
  | _ => None
  end.

(** A well-formed date key: the key [YYYY-MM-DD] of a calendar date whose
    year has four digits. *)
Definition isDateKey (key : string) : bool :=
  match keyDate key with
  | Some (y, m, d) =>
      (1000 <=? y) && (y <=? 9999) && Calendar.validb (y, m, d)
      && String.eqb key (Calendar.format (y, m, d))
  | None => false
  end.

(** A key that has the shape [YYYY-MM-DD]: digits and dashes in their
    places, the month from 01 to 12 and the day from 01 to 31. *)
Definition isDigit (c : ascii) : bool :=
  (48 <=? charCode c) && (charCode c <=? 57).

Definition looksLikeDateKey (key : string) : bool :=
  match split "-" key with
  | [y; m; d] =>
      (String.length y =? 4)%nat && (String.length m =? 2)%nat
      && (String.length d =? 2)%nat
      && forallb isDigit (list_ascii_of_string (y +:+ m +:+ d))
      && match Number m, Number d with
         | Some m, Some d => (1 <=? m) && (m <=? 12) && (1 <=? d) && (d <=? 31)
         | _, _ => false
         end
  | _ => false
  end.

(** ** Trimming, as the specification speaks of it *)

(** A string of white space only. *)
Fixpoint blank (s : string) : bool :=
  match s with
  | EmptyString => true
  | String c r => isWhiteSpace c && blank r
  end.

Definition firstChar (s : string) : option ascii :=
  match s with
  | EmptyString => None
  | String c _ => Some c
  end.

Fixpoint lastChar (s : string) : option ascii :=
  match s with
  | EmptyString => None
  | String c EmptyString => Some c
  | String _ r => lastChar r
  end.

(** [t] is [s] without the white space at its two ends: [s] is [t]
    between two blank strings, and [t] neither begins nor ends with
    white space. *)
Definition isTrimOf (t s : string) : Prop :=
  ∃ l r, s = l +:+ t +:+ r ∧ blank l = true ∧ blank r = true
    ∧ (∀ c, firstChar t = Some c → isWhiteSpace c = false)
    ∧ (∀ c, lastChar t = Some c → isWhiteSpace c = false).

(** ** The state, as the specification speaks of it *)

(** The day record of a key is a set of habit identifiers; a key without
    an entry has the empty record. *)
Definition dayRecord (ds : gmap string (list string)) (key : string) : list string :=
  default [] (ds !! key).

Definition days_equiv (ds1 ds2 : gmap string (list string)) : Prop :=
  ∀ key x, x ∈ dayRecord ds1 key ↔ x ∈ dayRecord ds2 key.

(** Two states are the same state of the data model when they agree on
    everything but the order and the repetitions inside day records and
    the presence of empty ones. *)
Definition state_equiv (s1 s2 : State) : Prop :=
  userId s1 = userId s2 ∧ habits s1 = habits s2 ∧ lastSeen s1 = lastSeen s2
  ∧ days_equiv (days s1) (days s2).

(** No identifier is held twice by one day record. *)
Definition noDuplicates (s : State) : Prop :=
  ∀ key arr, days s !! key = Some arr → NoDup arr.

(** [n] is an integer nearest to the fraction [p / q]. *)
Definition nearest (n p q : Z) : Prop := 2 * Z.abs (n * q - p) <= q.

(** A state whose only day record holds an identifier that no habit
    has. *)
Definition orphanState : State :=
  mkState "user" [] {[ "2024-01-01" := ["ghost"] ]} None.

(** A state as the storage can hold it, with one habit, and a draw of
    [uid()] on a host without [crypto.randomUUID] whose random number
    reads 0.k3v9x2ab in base 36. *)
Definition loadedState : State :=
  mkState "user" [mkHabit "id-k3v9x2ab" "Read" "#ef4444" "t0" None] ∅ None.

Definition repeatedDraw : Draw := mkDraw None "0.k3v9x2ab".

(** A state without habits and without day records. *)
Definition emptyState : State := mkState "user" [] ∅ None.

(** The walk of [getStreak] from the day [t0]: the cursor after [i] steps
    back, and the number of days from the first of January 1000 (day
    -354285) to [t0]. *)
Definition cursorAt (t0 : Z) (i : nat) : string :=
  Calendar.format (Calendar.ofDay (t0 - Z.of_nat i)).

Definition spanOf (t0 : Z) : nat := Z.to_nat (t0 + 354285 + 1).

(** Five days completed in a row, up to the third of March 2024 and
    across a leap day, and nothing before them. *)
Definition fiveDays : gmap string (list string) :=
  {[ "2024-03-03" := ["run"]; "2024-03-02" := ["run"]; "2024-03-01" := ["run"];
     "2024-02-29" := ["run"]; "2024-02-28" := ["run"] ]}.

(** The day in Apia before which a day was skipped, completed. *)
Definition apiaDays : gmap string (list string) :=
  {[ "2011-12-31" := ["run"] ]}.

(** The first day of the year 1000 and the day before it, both
    completed. *)
Definition earlyDays : gmap string (list string) :=
  {[ "1000-01-01" := ["run"]; "0999-12-31" := ["run"] ]}.

(** A record under a key that is no date and that shifting leaves as it
    is. *)
Definition strayDays : gmap string (list string) :=
  {[ "NaN-NaN-NaN" := ["run"] ]}.

(** The percentage the component shows for [d] habits done out of [t]. *)
Definition percentOf (d t : Z) : Z :=
  Float.Math_round (Float.mul (Float.div (Float.of_Z d) (Float.of_Z t)) (Float.of_Z 100)).

(** A habit is active when it is not archived. *)
Definition isActive (h : Habit) : Prop := archived h ≠ Some true.

(** Two hundred habits with the identifiers 0 to 199, none archived, and
    a day on which the first 29 of them are done. *)
Definition manyHabits : State :=
  mkState "user"
    ((λ n, mkHabit (pretty n) "habit" "#ef4444" "t" None) <$> seq 0 200)
    {[ "2024-03-01" := pretty <$> seq 0 29 ]} None.

(** ** More of the component: the week strip *)

(** [weeklyKeys]: the loop runs [i] from 6 down to 0 and pushes the key
    [i] days back. *)
Fixpoint weeklyKeys_loop (z : JSDate.Zone) (i : nat) (todayKey : string) : list string :=
  shiftLocalDateKey z todayKey (- Z.of_nat i) ::
  match i with
  | O => []
  | S j => weeklyKeys_loop z j todayKey
  end.

Definition weeklyKeys (z : JSDate.Zone) (todayKey : string) : list string :=
  weeklyKeys_loop z 6 todayKey.

(** [state.days[k]?.length || 0]. *)
Definition lengthOr0 (arr : option (list string)) : Z :=
  match arr with
  | Some l => Z.of_nat (length l)
  | None => 0
  end.

(** [weeklyCounts]: seven zeros until the state is loaded. *)
Definition weeklyCounts (z : JSDate.Zone) (st : option State) (todayKey : string) : list Z :=
  match st with
  | None => replicate 7 0
  | Some s => (λ k, lengthOr0 (days s !! k)) <$> weeklyKeys z todayKey
  end.

(** Order of two numbers kept as fractions, and [Math.min], [Math.max]
    and [clamp] on them. *)
Definition Float_leb (x y : Float.t) : bool :=
  Float.num x * Float.den y <=? Float.num y * Float.den x.

Definition Math_min (x y : Float.t) : Float.t := if Float_leb x y then x else y.

Definition Math_max (x y : Float.t) : Float.t := if Float_leb x y then y else x.

Definition clamp (n min max : Float.t) : Float.t :=
  Math_max min (Math_min max n).

(** The lightness of a cell of the strip: [count] completions against
    [activeLen] active habits. *)
Definition heatRatio (count activeLen : Z) : Float.t :=
  if 0 <? activeLen
  then clamp (Float.div (Float.of_Z count) (Float.of_Z activeLen))
             (Float.of_Z 0) (Float.of_Z 1)
  else Float.of_Z 0.

(** The click on the cell of the key [k]: the first active habit, if it
    has a non-empty identifier, is marked or unmarked for that day.  The
    updater of [markDay] is applied to the state that was rendered. *)
Definition stripClick (k : string) (s : State) : State :=
  match activeHabits (Some s) with
  | h :: _ =>
      if String.eqb (id h) "" then s
      else
        let has := includes (id h) (days s !! k) in
        markDay_update (id h) k (negb has) s
  | [] => s
  end.

(** ** More of the specification's vocabulary *)

(** The hash of Horner's rule with the multiplier 31, over the integers. *)
Fixpoint hornerHash (s : string) (h : Z) : Z :=
  match s with
  | EmptyString => h
  | String c r => hornerHash r (31 * h + charCode c)
  end.

(** Every identifier held by a day record is the identifier of a habit. *)
Definition noOrphans (s : State) : Prop :=
  ∀ key x, x ∈ dayRecord (days s) key → ∃ h, h ∈ habits s ∧ id h = x.

(** No two habits have the same name up to the case of the letters. *)
Definition distinctNames (s : State) : Prop :=
  NoDup ((λ h, toLowerCase (name h)) <$> habits s).

(** The value of a fraction is at most that of another. *)
Definition Float_le (x y : Float.t) : Prop :=
  Float.num x * Float.den y <= Float.num y * Float.den x.

(** Two habits, the second archived, and two days of records. *)
Definition sampleState : State :=
  mkState "user"
    [mkHabit "a" "Read" "#ef4444" "t" None;
     mkHabit "b" "Walk" "#22c55e" "t" (Some true)]
    {[ "2024-03-01" := ["a"; "b"]; "2024-02-29" := ["a"] ]} None.

(** The state set when the stored text cannot be read. *)
Definition fallback (userUid seen : string) : State :=
  mkState userUid [] ∅ (Some seen).

(** The states that the handlers of the component reach from a first
    run: adding a habit, deleting or toggling one of the listed (active)
    habits, and clicking a cell of the strip.  Each handler runs on the
    state that is displayed, every click being rendered before the next;
    a state loaded from the storage is one that an earlier session
    reached and saved. *)
Inductive reachable : State → Prop :=
  | reach_initial userUid habitUid created seen :
      reachable (initial userUid habitUid created seen)
  | reach_fallback userUid seen :
      reachable (fallback userUid seen)
  | reach_add s newHabitName color newId now s' :
      reachable s →
      addHabit newHabitName color newId now (Some s) = Some s' →
      reachable s'
  | reach_delete s h :
      reachable s → h ∈ activeHabits (Some s) →
      reachable (deleteHabit_update (id h) s)
  | reach_toggle s h key :
      reachable s → h ∈ activeHabits (Some s) →
      reachable (toggleToday_update key (id h) s)
  | reach_strip s key :
      reachable s → reachable (stripClick key s).

(** * Properties *)

(** ** Calendar arithmetic *)

Module JSDateFacts.
Import JSDate Calendar.

Ltac div_lia := Z.to_euclidean_division_equations; lia.

Lemma leap_cases y :
  (InLeapYear y = true ∧ y mod 4 = 0 ∧ (y mod 100 ≠ 0 ∨ y mod 400 = 0))
  ∨ (InLeapYear y = false ∧ (y mod 4 ≠ 0 ∨ (y mod 100 = 0 ∧ y mod 400 ≠ 0))).
Proof.
  unfold InLeapYear.
  destruct (Z.eqb_spec (y mod 4) 0), (Z.eqb_spec (y mod 100) 0),
    (Z.eqb_spec (y mod 400) 0); cbn [andb orb negb]; intuition lia.
Qed.

Lemma DayFromYear_succ y : DayFromYear (y + 1) = DayFromYear y + DaysInYear y.
Proof.
  unfold DaysInYear.
  destruct (leap_cases y) as [(-> & H4 & H)|(-> & H)]; unfold DayFromYear;
    revert H; try revert H4; div_lia.
Qed.

Lemma DayFromYear_approx y :
  -600 <= 400 * DayFromYear y - 146097 * (y - 1970) <= 600.
Proof. unfold DayFromYear. div_lia. Qed.

Lemma DayFromYear_mono a b : a <= b → DayFromYear a <= DayFromYear b.
Proof. unfold DayFromYear. intros. div_lia. Qed.

Lemma DaysInYear_cases y : DaysInYear y = 365 + leapDay y ∧ 0 <= leapDay y <= 1.
Proof. unfold DaysInYear, leapDay. destruct (InLeapYear y); lia. Qed.

(** [YearFromTime] is the year the standard defines: the day lies in it. *)
Lemma YearFromTime_spec day :
  DayFromYear (YearFromTime day) <= day < DayFromYear (YearFromTime day + 1).
Proof.
  unfold YearFromTime.
  set (g := 1970 + 400 * day / 146097).
  assert (Hg : 146097 * (g - 1970) <= 400 * day < 146097 * (g - 1970) + 146097)
    by (unfold g; div_lia).
  clearbody g.
  pose proof (DayFromYear_approx (g - 1)).
  pose proof (DayFromYear_approx (g + 2)).
  pose proof (DayFromYear_succ (g - 1)) as S1.
  pose proof (DayFromYear_succ (g + 1)) as S2.
  pose proof (DaysInYear_cases (g - 1)).
  pose proof (DaysInYear_cases (g + 1)).
  replace (g - 1 + 1) with g in S1 by lia.
  replace (g + 1 + 1) with (g + 2) in S2 by lia.
  destruct (Z.ltb_spec day (DayFromYear g));
    [replace (g - 1 + 1) with g by lia; lia|].
  destruct (Z.leb_spec (DayFromYear (g + 1)) day); [|lia].
  replace (g + 1 + 1) with (g + 2) by lia. lia.
Qed.

Lemma YearFromTime_unique day y :
  DayFromYear y <= day < DayFromYear (y + 1) → YearFromTime day = y.
Proof.
  intros H. pose proof (YearFromTime_spec day) as S.
  destruct (Z.lt_trichotomy (YearFromTime day) y) as [L|[E|G]]; [|exact E|].
  - pose proof (DayFromYear_mono (YearFromTime day + 1) y ltac:(lia)). lia.
  - pose proof (DayFromYear_mono (y + 1) (YearFromTime day) ltac:(lia)). lia.
Qed.

Lemma YearFromTime_ge day y : DayFromYear y <= day → y <= YearFromTime day.
Proof.
  intros H. pose proof (YearFromTime_spec day) as S.
  destruct (Z.le_gt_cases y (YearFromTime day)) as [|G]; [done|].
  pose proof (DayFromYear_mono (YearFromTime day + 1) y ltac:(lia)). lia.
Qed.

Lemma YearFromTime_lt day y : day < DayFromYear y → YearFromTime day < y.
Proof.
  intros H. pose proof (YearFromTime_spec day) as S.
  destruct (Z.lt_ge_cases (YearFromTime day) y) as [|G]; [done|].
  pose proof (DayFromYear_mono y (YearFromTime day) ltac:(lia)). lia.
Qed.

Lemma DayWithinYear_range day :
  0 <= DayWithinYear day < 365 + leapDay (YearFromTime day).
Proof.
  unfold DayWithinYear. pose proof (YearFromTime_spec day) as S.
  rewrite DayFromYear_succ in S.
  pose proof (DaysInYear_cases (YearFromTime day)). lia.
Qed.

Ltac month_cases m :=
  let H := fresh in
  assert (H : m = 1 ∨ m = 2 ∨ m = 3 ∨ m = 4 ∨ m = 5 ∨ m = 6 ∨ m = 7 ∨ m = 8
              ∨ m = 9 ∨ m = 10 ∨ m = 11 ∨ m = 12) by lia;
  repeat (destruct H as [H|H]; [subst m|]); [..|subst m].

Ltac zlit a :=
  match a with Z0 => idtac | Zpos _ => idtac | Zneg _ => idtac end.

(** Evaluate the sums, differences, quotients and remainders of literals. *)
Ltac norm_lits :=
  repeat match goal with
    | |- context [Z.add ?a ?b] =>
        zlit a; zlit b; let v := eval vm_compute in (Z.add a b) in
        change (Z.add a b) with v
    | |- context [Z.sub ?a ?b] =>
        zlit a; zlit b; let v := eval vm_compute in (Z.sub a b) in
        change (Z.sub a b) with v
    | |- context [Z.div ?a ?b] =>
        zlit a; zlit b; let v := eval vm_compute in (Z.div a b) in
        change (Z.div a b) with v
    | |- context [Z.modulo ?a ?b] =>
        zlit a; zlit b; let v := eval vm_compute in (Z.modulo a b) in
        change (Z.modulo a b) with v
    end.

Ltac decide_ltb :=
  repeat match goal with
    | |- context [?a <? ?b] => destruct (Z.ltb_spec a b); try lia
    end.

(** The fields of a day number form a date of the calendar, and [MakeDay]
    leads back from them to the day number. *)
Lemma ofDay_valid t : valid (ofDay t) ∧ toDay (ofDay t) = t.
Proof.
  unfold valid, ofDay, toDay, MakeDay, DateFromTime, MonthFromTime, daysInMonth.
  pose proof (DayWithinYear_range t) as R.
  assert (E : t = DayFromYear (YearFromTime t) + DayWithinYear t)
    by (unfold DayWithinYear; lia).
  set (y := YearFromTime t) in *. set (w := DayWithinYear t) in *.
  clearbody w. revert R. unfold monthStart, leapDay.
  destruct (InLeapYear y) eqn:L; intros R; decide_ltb;
    norm_lits; cbn -[DayFromYear InLeapYear]; rewrite ?Z.add_0_r, ?L; lia.
Qed.

Lemma toDay_inv dt : valid dt → ofDay (toDay dt) = dt.
Proof.
  destruct dt as [[y m] d]. unfold valid, toDay, MakeDay. intros [Hm Hd].
  assert (Hq : (m - 1) / 12 = 0) by div_lia.
  assert (Hr : (m - 1) mod 12 = m - 1) by div_lia.
  rewrite Hq, Hr, Z.add_0_r.
  set (t := DayFromYear y + monthStart y (m - 1) + d - 1).
  assert (Hw : 0 <= monthStart y (m - 1) + d - 1 < 365 + leapDay y).
  { revert Hd. unfold daysInMonth, monthStart, leapDay.
    month_cases m; destruct (InLeapYear y); norm_lits; cbn; lia. }
  assert (Hy : YearFromTime t = y).
  { apply YearFromTime_unique. rewrite DayFromYear_succ.
    pose proof (DaysInYear_cases y). unfold t. lia. }
  unfold ofDay, DateFromTime, MonthFromTime, DayWithinYear. rewrite Hy.
  replace (t - DayFromYear y) with (monthStart y (m - 1) + d - 1) by (unfold t; lia).
  clear t Hy Hq Hr. revert Hd Hw. unfold daysInMonth, monthStart, leapDay.
  month_cases m; destruct (InLeapYear y); norm_lits; cbn; intros Hd Hw;
    decide_ltb; norm_lits; cbn; repeat f_equal; lia.
Qed.

Lemma toDay_eq y m d :
  1 <= m <= 12 → toDay (y, m, d) = DayFromYear y + monthStart y (m - 1) + d - 1.
Proof.
  intros Hm. unfold toDay, MakeDay.
  assert (Hq : (m - 1) / 12 = 0) by div_lia.
  assert (Hr : (m - 1) mod 12 = m - 1) by div_lia.
  now rewrite Hq, Hr, Z.add_0_r.
Qed.

Lemma daysInMonth_range y m : 28 <= daysInMonth y m <= 31.
Proof.
  unfold daysInMonth.
  repeat match goal with
    | |- context [match ?x with _ => _ end] => destruct x
    end; lia.
Qed.

Lemma tomorrow_valid dt : valid dt → valid (tomorrow dt).
Proof.
  destruct dt as [[y m] d]. unfold valid, tomorrow. intros [Hm Hd].
  destruct (Z.ltb_spec d (daysInMonth y m)); [lia|].
  pose proof (daysInMonth_range y (m + 1)). pose proof (daysInMonth_range (y + 1) 1).
  destruct (Z.ltb_spec m 12); lia.
Qed.

Lemma yesterday_valid dt : valid dt → valid (yesterday dt).
Proof.
  destruct dt as [[y m] d]. unfold valid, yesterday. intros [Hm Hd].
  destruct (Z.ltb_spec 1 d); [lia|].
  pose proof (daysInMonth_range y (m - 1)).
  destruct (Z.ltb_spec 1 m); [lia|]. cbn. lia.
Qed.

Lemma toDay_tomorrow dt : valid dt → toDay (tomorrow dt) = toDay dt + 1.
Proof.
  intros V. pose proof (tomorrow_valid dt V) as V'. revert V V'.
  destruct dt as [[y m] d]. unfold valid, tomorrow.
  destruct (Z.ltb_spec d (daysInMonth y m)) as [Hlt|Hge].
  - intros [Hm _] _. rewrite !toDay_eq by lia. lia.
  - destruct (Z.ltb_spec m 12) as [Hm12|Hm12]; intros [Hm Hd] [Hm' _];
      rewrite !toDay_eq by lia.
    + revert Hd Hge. unfold daysInMonth, monthStart, leapDay.
      month_cases m; try lia; destruct (InLeapYear y); norm_lits; cbn; lia.
    + assert (m = 12) by lia. subst m. revert Hd Hge.
      pose proof (DayFromYear_succ y) as S. pose proof (DaysInYear_cases y) as C.
      revert S C. unfold daysInMonth, monthStart, leapDay.
      destruct (InLeapYear y); norm_lits; cbn; lia.
Qed.

Lemma toDay_yesterday dt : valid dt → toDay (yesterday dt) = toDay dt - 1.
Proof.
  intros V. pose proof (yesterday_valid dt V) as V'. revert V V'.
  destruct dt as [[y m] d]. unfold valid, yesterday.
  destruct (Z.ltb_spec 1 d) as [Hlt|Hge].
  - intros [Hm _] _. rewrite !toDay_eq by lia. lia.
  - destruct (Z.ltb_spec 1 m) as [Hm1|Hm1]; intros [Hm Hd] [Hm' _];
      rewrite !toDay_eq by lia.
    + revert Hd Hge. unfold daysInMonth, monthStart, leapDay.
      month_cases m; try lia; destruct (InLeapYear y); norm_lits; cbn; lia.
    + assert (m = 1) by lia. subst m. revert Hd Hge.
      pose proof (DayFromYear_succ (y - 1)) as S.
      pose proof (DaysInYear_cases (y - 1)) as C.
      replace (y - 1 + 1) with y in S by lia.
      revert S C. unfold daysInMonth, monthStart, leapDay.
      destruct (InLeapYear (y - 1)); norm_lits; cbn; lia.
Qed.

Lemma ofDay_succ t : ofDay (t + 1) = tomorrow (ofDay t).
Proof.
  destruct (ofDay_valid t) as [V E].
  rewrite <- E at 1. rewrite <- toDay_tomorrow by done.
  apply toDay_inv, tomorrow_valid, V.
Qed.

Lemma ofDay_pred t : ofDay (t - 1) = yesterday (ofDay t).
Proof.
  destruct (ofDay_valid t) as [V E].
  rewrite <- E at 1. rewrite <- toDay_yesterday by done.
  apply toDay_inv, yesterday_valid, V.
Qed.

(** Day numbers advance as the calendar does. *)
Lemma ofDay_add t n : ofDay (t + n) = addDays n (ofDay t).
Proof.
  assert (F : ∀ k : nat, ofDay (t + Z.of_nat k) = Nat.iter k tomorrow (ofDay t)).
  { induction k as [|k IH].
    - cbn. f_equal. lia.
    - rewrite Nat.iter_succ, <- IH, <- ofDay_succ. f_equal. lia. }
  assert (B : ∀ k : nat, ofDay (t - Z.of_nat k) = Nat.iter k yesterday (ofDay t)).
  { induction k as [|k IH].
    - cbn. f_equal. lia.
    - rewrite Nat.iter_succ, <- IH, <- ofDay_pred. f_equal. lia. }
  unfold addDays. destruct (Z.leb_spec 0 n) as [Hn|Hn].
  - rewrite <- F. f_equal. lia.
  - rewrite <- B. f_equal. lia.
Qed.

Lemma MakeDay_date y mn d n : MakeDay y mn (d + n) = MakeDay y mn d + n.
Proof. unfold MakeDay. lia. Qed.

(** The day numbers of the years 100 and 10100 bound those of the dates
    in between, all well within the range of [TimeClip]. *)
Lemma year_bounds t :
  DayFromYear 100 <= t < DayFromYear 10100 ↔ 100 <= YearFromTime t < 10100.
Proof.
  split.
  - intros [H1 H2]. split; [now apply YearFromTime_ge|now apply YearFromTime_lt].
  - intros [H1 H2]. pose proof (YearFromTime_spec t).
    pose proof (DayFromYear_mono 100 (YearFromTime t) H1).
    pose proof (DayFromYear_mono (YearFromTime t + 1) 10100 ltac:(lia)). lia.
Qed.

(** *** Time values and the zone of the host *)

Lemma TimeWithinDay_range t : 0 <= TimeWithinDay t < msPerDay.
Proof. unfold TimeWithinDay, msPerDay. apply Z.mod_pos_bound. lia. Qed.

Lemma Day_MakeDate day time : 0 <= time < msPerDay → Day (MakeDate day time) = day.
Proof.
  intros H. unfold Day, MakeDate. rewrite Z.add_comm, Z.div_add by (unfold msPerDay; lia).
  rewrite Z.div_small by done. lia.
Qed.

Lemma TimeClip_small t : Z.abs t <= 8640000000000000 → TimeClip t = Some t.
Proof.
  intros H. unfold TimeClip.
  now destruct (Z.leb_spec (Z.abs t) 8640000000000000); [|lia].
Qed.

(** A zone of fixed offset skips no day. *)
Lemma fixed_keepsDays offset : Z.abs offset <= msPerDay → keepsDays (fixedZone offset).
Proof.
  intros H t. split; [exact H|]. unfold LocalTime, UTC. cbn. f_equal. lia.
Qed.

(** Nor does a zone whose clocks go forward by an hour in the night:
    the skipped hour is read as the hour after it, on the same day. *)
Lemma paris2024_keepsDays : keepsDays paris2024.
Proof.
  intros t. unfold LocalTime, UTC, Day, msPerDay. cbn [LocalTZA paris2024].
  destruct (Z.ltb_spec t 1711854000000) as [H|H].
  - split; [lia|].
    destruct (Z.ltb_spec (t - 3600000) 1711846800000) as [H'|H'].
    + f_equal. lia.
    + assert (E : ∃ r, t = 19813 * 86400000 + r ∧ 7200000 <= r < 10800000)
        by (exists (t - 19813 * 86400000); lia).
      destruct E as (r & -> & Hr).
      replace (19813 * 86400000 + r - 3600000 + 7200000)
        with (r + 3600000 + 19813 * 86400000) by lia.
      replace (19813 * 86400000 + r) with (r + 19813 * 86400000) by lia.
      rewrite !Z.div_add by lia. rewrite !Z.div_small by lia. reflexivity.
  - split; [lia|].
    destruct (Z.ltb_spec (t - 7200000) 1711846800000) as [H'|H']; [lia|].
    f_equal. lia.
Qed.

Section Zone.
Variable z : Zone.
Hypothesis keeps : keepsDays z.

(** The date built from the fields of a local time is a valid date and
    shows, in local time, the day it was built for. *)
Lemma make_day day time :
  Z.abs day <= 99000000 → 0 <= time < msPerDay →
  TimeClip (UTC z (MakeDate day time)) = Some (UTC z (MakeDate day time))
  ∧ Day (LocalTime z (UTC z (MakeDate day time))) = day.
Proof.
  intros Hd Ht. destruct (keeps (MakeDate day time)) as [B E]. split.
  - apply TimeClip_small. unfold UTC.
    assert (Z.abs (MakeDate day time) <= 99000001 * msPerDay).
    { unfold MakeDate. revert Ht B. unfold msPerDay. lia. }
    revert B. unfold msPerDay in *. lia.
  - rewrite E. now apply Day_MakeDate.
Qed.

End Zone.

End JSDateFacts.

(** ** Date keys: printing and reading back *)

Module KeyFacts.
Import JSDate Calendar JSDateFacts.

Lemma Number_String_of z : 0 <= z → Number (String_of (Some z)) = Some z.
Proof.
  intros Hz. unfold Number, String_of.
  destruct z as [|p|p]; [reflexivity| |lia].
  cbn [Z.to_int NilZero.string_of_int]. unfold NilZero.string_of_uint.
  pose proof (DecimalPos.Unsigned.to_uint_nonnil p) as Hnil.
  destruct (Pos.to_uint p) eqn:E; [done|..];
    rewrite <- E, NilEmpty.usu; cbn; f_equal;
    unfold Z.of_uint; now rewrite DecimalPos.Unsigned.of_to.
Qed.

Lemma Number_pad s z : Number s = Some z → Number (padStart2 s) = Some z.
Proof.
  destruct s as [|c [|c' r]]; cbn [padStart2]; [|intros H|done].
  - unfold Number. cbn. congruence.
  - revert H. unfold Number. cbn [NilEmpty.uint_of_string].
    destruct (uint_of_char c (Some Decimal.Nil)) as [u|]; [|done].
    cbn. unfold Z.of_uint. cbn. done.
Qed.

Lemma uint_of_char_dash o : uint_of_char "-" o = None.
Proof. now destruct o. Qed.

Lemma uint_of_char_None c : uint_of_char c None = None.
Proof. reflexivity. Qed.

(** A string that reads as a number holds no dash, so [split] leaves it
    whole. *)
Lemma split_number s z rest :
  Number s = Some z →
  split "-" (s +:+ String "-" rest) = s :: split "-" rest.
Proof.
  unfold Number. revert z. induction s as [|c s IH]; intros z H.
  - reflexivity.
  - cbn [NilEmpty.uint_of_string] in H.
    destruct (NilEmpty.uint_of_string s) as [u|] eqn:E;
      [|rewrite uint_of_char_None in H; done].
    change (String c s +:+ String "-" rest) with (String c (s +:+ String "-" rest)).
    cbn [split].
    destruct (Ascii.eqb_spec c "-") as [->|_];
      [rewrite uint_of_char_dash in H; done|].
    now rewrite (IH (Z.of_uint u)).
Qed.

Lemma split_number_last s z : Number s = Some z → split "-" s = [s].
Proof.
  unfold Number. revert z. induction s as [|c s IH]; intros z H.
  - reflexivity.
  - cbn [NilEmpty.uint_of_string] in H.
    destruct (NilEmpty.uint_of_string s) as [u|] eqn:E;
      [|rewrite uint_of_char_None in H; done].
    cbn [split].
    destruct (Ascii.eqb_spec c "-") as [->|_];
      [rewrite uint_of_char_dash in H; done|].
    now rewrite (IH (Z.of_uint u)).
Qed.

Lemma keyParts_format y m d :
  0 <= y → 0 <= m → 0 <= d →
  keyParts (format (y, m, d)) = (Some y, Some m, Some d).
Proof.
  intros Hy Hm Hd.
  pose proof (Number_String_of y Hy) as Ny.
  pose proof (Number_pad _ _ (Number_String_of m Hm)) as Nm.
  pose proof (Number_pad _ _ (Number_String_of d Hd)) as Nd.
  unfold keyParts, format.
  repeat match goal with
    | |- context [String.append "-" ?r] =>
        change (String.append "-" r) with (String "-" r)
    end.
  rewrite (split_number _ _ _ Ny), (split_number _ _ _ Nm), (split_number_last _ _ Nd).
  cbn [fmap list_fmap lookup list_lookup]. now rewrite Ny, Nm, Nd.
Qed.

Lemma toLocalDateKey_format z t :
  toLocalDateKey z (Some t) = format (ofDay (Day (LocalTime z t))).
Proof. reflexivity. Qed.

Lemma DayFromYear_100 : DayFromYear 100 = -683003.
Proof. reflexivity. Qed.

Lemma DayFromYear_10100 : DayFromYear 10100 = 2969422.
Proof. reflexivity. Qed.

(** Shifting the key of a day: as long as the year keeps three digits or
    more and the zone skips no day, the key is read back as the day it
    was printed from. *)
Lemma shift_format z t n :
  keepsDays z →
  100 <= YearFromTime t < 10100 → Z.abs n <= 10000000 →
  shiftLocalDateKey z (format (ofDay t)) n = format (ofDay (t + n)).
Proof.
  intros Kz Hy Hn.
  pose proof (proj2 (year_bounds t) Hy) as Ht.
  rewrite DayFromYear_100, DayFromYear_10100 in Ht.
  destruct (ofDay_valid t) as [V E]. revert V E. unfold ofDay, valid, toDay.
  intros [Vm Vd] E.
  unfold shiftLocalDateKey. rewrite keyParts_format by lia.
  cbn [num_add make].
  destruct (Z.leb_spec 0 (YearFromTime t)); [|lia].
  destruct (Z.leb_spec (YearFromTime t) 99); [lia|]. cbn [andb].
  replace (MonthFromTime t + 1 + -1) with (MonthFromTime t + 1 - 1) by lia.
  rewrite E.
  destruct (make_day z Kz t 0) as [C D]; [lia|unfold msPerDay; lia|].
  rewrite C.
  cbn [getDate fmap option_fmap option_map num_add setDate].
  rewrite D, MakeDay_date.
  replace (MonthFromTime t) with (MonthFromTime t + 1 - 1) at 1 by lia.
  rewrite E.
  destruct (make_day z Kz (t + n)
              (TimeWithinDay (LocalTime z (UTC z (MakeDate t 0)))))
    as [C' D']; [lia|apply TimeWithinDay_range|].
  rewrite C', toLocalDateKey_format, D'. reflexivity.
Qed.

Lemma isDateKey_inv k :
  isDateKey k = true →
  ∃ y m d, keyDate k = Some (y, m, d) ∧ 1000 <= y <= 9999 ∧ valid (y, m, d)
           ∧ k = format (y, m, d).
Proof.
  unfold isDateKey. destruct (keyDate k) as [[[y m] d]|]; [|done].
  rewrite !andb_true_iff. unfold validb. rewrite !andb_true_iff.
  rewrite !Z.leb_le. intros [[[? ?] [[[? ?] ?] ?]] Hk].
  apply String.eqb_eq in Hk. exists y, m, d. unfold valid. repeat split; done || lia.
Qed.

Lemma dateKey_day y m d :
  1000 <= y <= 9999 → valid (y, m, d) →
  ofDay (toDay (y, m, d)) = (y, m, d)
  ∧ DayFromYear 1000 <= toDay (y, m, d) < DayFromYear 10000.
Proof.
  intros Hy V. pose proof (toDay_inv _ V) as E. split; [done|].
  pose proof (YearFromTime_spec (toDay (y, m, d))) as S.
  assert (Y : YearFromTime (toDay (y, m, d)) = y) by (unfold ofDay in E; congruence).
  rewrite Y in S.
  pose proof (DayFromYear_mono 1000 y ltac:(lia)).
  pose proof (DayFromYear_mono (y + 1) 10000 ltac:(lia)). lia.
Qed.

End KeyFacts.

(** C1 (amended)  In a host time zone that skips no local calendar day,
    for every well-formed date key [k] (the key [YYYY-MM-DD] of a calendar
    date in the years 1000 to 9999) and every [n] from -3650 to 3650,
    shifting [k] by [n] days and then by [-n] days gives [k] back; and
    the key [n] days away is the key of the date reached by stepping
    through the calendar [n] times, day by day, across the ends of months
    and years and through leap days. *)
Theorem shift_roundtrip (z : JSDate.Zone) (k : string) (n : Z) :
  JSDate.keepsDays z →
  isDateKey k = true → -3650 <= n <= 3650 →
  shiftLocalDateKey z (shiftLocalDateKey z k n) (- n) = k
  ∧ ∃ dt, keyDate k = Some dt
          ∧ shiftLocalDateKey z k n = Calendar.format (Calendar.addDays n dt).
Proof.
  intros Kz Hk Hn.
  destruct (KeyFacts.isDateKey_inv k Hk) as (y & m & d & Hd & Hy & V & ->).
  destruct (KeyFacts.dateKey_day y m d Hy V) as [E B].
  change (JSDate.DayFromYear 1000) with (-354285) in B.
  change (JSDate.DayFromYear 10000) with 2932897 in B.
  set (t := Calendar.toDay (y, m, d)) in *.
  assert (Y0 : 100 <= JSDate.YearFromTime t < 10100).
  { apply JSDateFacts.year_bounds.
    rewrite KeyFacts.DayFromYear_100, KeyFacts.DayFromYear_10100. lia. }
  assert (Y1 : 100 <= JSDate.YearFromTime (t + n) < 10100).
  { apply JSDateFacts.year_bounds.
    rewrite KeyFacts.DayFromYear_100, KeyFacts.DayFromYear_10100. lia. }
  rewrite <- E.
  rewrite (KeyFacts.shift_format z t n) by (done || lia).
  split.
  - rewrite (KeyFacts.shift_format z (t + n) (- n)) by (done || lia).
    do 2 f_equal. lia.
  - exists (y, m, d). split; [now rewrite E|].
    now rewrite JSDateFacts.ofDay_add, E.
Qed.

Lemma shift_roundtrip_witness :
  shiftLocalDateKey JSDate.paris2024
    (shiftLocalDateKey JSDate.paris2024 "2024-02-28" 3650) (- 3650) = "2024-02-28"
  ∧ ∃ dt, keyDate "2024-02-28" = Some dt
          ∧ shiftLocalDateKey JSDate.paris2024 "2024-02-28" 3650
            = Calendar.format (Calendar.addDays 3650 dt).
Proof.
  apply (shift_roundtrip JSDate.paris2024 "2024-02-28" 3650);
    [apply JSDateFacts.paris2024_keepsDays|vm_compute; reflexivity|lia].
Defined.

(** C1, as stated, fails on keys that are well formed to the eye: a key
    that names no day of the calendar is normalised, a year below 100 is
    read as a year of the twentieth century, and a year below 1000 is
    printed without its leading zeros, all this in any zone, UTC
    included.  It also fails where the zone skipped a day: in Apia the
    day after the 29th of December 2011 is the 31st, and the day set to
    the 30th is shown as the 31st, so that one day on from the 29th and
    one day back is the 31st. *)
Lemma shift_roundtrip_counterexample :
  (looksLikeDateKey "0050-06-15" = true
   ∧ shiftLocalDateKey JSDate.utc (shiftLocalDateKey JSDate.utc "0050-06-15" 10) (- 10)
     ≠ "0050-06-15")
  ∧ (looksLikeDateKey "0999-12-31" = true
     ∧ shiftLocalDateKey JSDate.utc (shiftLocalDateKey JSDate.utc "0999-12-31" 1) (- 1)
       ≠ "0999-12-31")
  ∧ (looksLikeDateKey "2024-02-31" = true
     ∧ shiftLocalDateKey JSDate.utc (shiftLocalDateKey JSDate.utc "2024-02-31" 0) (- 0)
       ≠ "2024-02-31")
  ∧ (isDateKey "2011-12-29" = true
     ∧ shiftLocalDateKey JSDate.apia (shiftLocalDateKey JSDate.apia "2011-12-29" 1) (- 1)
       = "2011-12-31").
Proof. vm_compute. repeat split; discriminate. Qed.

(** ** Sets and day records *)

Module SetFacts.
Import JSSet.

Lemma has_true x s : has x s = true ↔ x ∈ s.
Proof. unfold has. apply bool_decide_eq_true. Qed.

Lemma has_false x s : has x s = false ↔ x ∉ s.
Proof. unfold has. apply bool_decide_eq_false. Qed.

Lemma elem_of_add x y s : x ∈ add y s ↔ x = y ∨ x ∈ s.
Proof.
  unfold add. destruct (has y s) eqn:E.
  - apply has_true in E. split; [auto|intros [->|]; done].
  - rewrite elem_of_app, list_elem_of_singleton. tauto.
Qed.

Lemma elem_of_delete x y s : x ∈ delete y s ↔ x ≠ y ∧ x ∈ s.
Proof. unfold delete. rewrite list_elem_of_filter. tauto. Qed.

Lemma NoDup_add y s : NoDup s → NoDup (add y s).
Proof.
  intros H. unfold add. destruct (has y s) eqn:E; [done|].
  apply has_false in E. apply NoDup_app. split; [done|]. split; [|apply NoDup_singleton].
  intros x Hx Hy. apply list_elem_of_singleton in Hy. now subst.
Qed.

Lemma NoDup_delete y s : NoDup s → NoDup (delete y s).
Proof. apply NoDup_filter. Qed.

Lemma of_array_acc (arr acc : list string) :
  (∀ x, x ∈ foldl (λ a y, add y a) acc arr ↔ x ∈ acc ∨ x ∈ arr)
  ∧ (NoDup acc → NoDup (foldl (λ a y, add y a) acc arr)).
Proof.
  revert acc. induction arr as [|y arr IH]; intros acc; cbn [foldl].
  - split; [|done]. intros x. rewrite elem_of_nil. tauto.
  - destruct (IH (add y acc)) as [IH1 IH2]. split.
    + intros x. rewrite IH1, elem_of_add, elem_of_cons. tauto.
    + intros H. apply IH2, NoDup_add, H.
Qed.

Lemma elem_of_of_array x arr : x ∈ of_array arr ↔ x ∈ arr.
Proof.
  unfold of_array. rewrite (proj1 (of_array_acc arr [])), elem_of_nil. tauto.
Qed.

Lemma NoDup_of_array arr : NoDup (of_array arr).
Proof. apply (proj2 (of_array_acc arr [])), NoDup_nil_2. Qed.

Lemma filter_all {A} (P : A → Prop) `{∀ x, Decision (P x)} (l : list A) :
  (∀ x, x ∈ l → P x) → filter P l = l.
Proof.
  induction l as [|x l IH]; intros Hl; [done|].
  rewrite filter_cons_True by (apply Hl; left).
  f_equal. apply IH. intros y Hy. apply Hl. now right.
Qed.

End SetFacts.

(** ** The transitions on day records *)

Module StateFacts.
Import SetFacts.

Lemma dayRecord_insert ds key arr key' :
  dayRecord (<[key := arr]> ds) key' = if decide (key = key') then arr else dayRecord ds key'.
Proof. unfold dayRecord. rewrite lookup_insert. now case_decide. Qed.

(** What a toggle does to the day records. *)
Lemma toggle_record todayKey habitId s key x :
  x ∈ dayRecord (days (toggleToday_update todayKey habitId s)) key ↔
  if decide (key = todayKey ∧ x = habitId)
  then x ∉ dayRecord (days s) key
  else x ∈ dayRecord (days s) key.
Proof.
  unfold toggleToday_update, JSSet.to_array. cbn [days set_days].
  rewrite dayRecord_insert. fold (dayRecord (days s) todayKey).
  destruct (decide (todayKey = key)) as [<-|Hk].
  - destruct (JSSet.has habitId _) eqn:E.
    + apply has_true in E. rewrite elem_of_of_array in E.
      rewrite elem_of_delete, elem_of_of_array.
      case_decide as D; [destruct D as [_ ->]; tauto|].
      split; [tauto|]. intros Hx. split; [|done]. intros ->. tauto.
    + apply has_false in E. rewrite elem_of_of_array in E.
      rewrite elem_of_add, elem_of_of_array.
      case_decide as D; [destruct D as [_ ->]; tauto|].
      split; [|tauto]. intros [->|]; tauto.
  - case_decide as D; [destruct D as [-> _]; done|done].
Qed.

(** What [markDay] does to the day records. *)
Lemma markDay_record habitId dayKey done s key x :
  x ∈ dayRecord (days (markDay_update habitId dayKey done s)) key ↔
  if decide (key = dayKey ∧ x = habitId)
  then done = true
  else x ∈ dayRecord (days s) key.
Proof.
  unfold markDay_update, JSSet.to_array. cbn [days set_days].
  rewrite dayRecord_insert. fold (dayRecord (days s) dayKey).
  destruct (decide (dayKey = key)) as [<-|Hk].
  - destruct done.
    + rewrite elem_of_add, elem_of_of_array.
      case_decide as D; [destruct D as [_ ->]; tauto|].
      split; [|tauto]. intros [->|]; tauto.
    + rewrite elem_of_delete, elem_of_of_array.
      case_decide as D; [destruct D as [_ ->]; split; [tauto|done]|].
      split; [tauto|]. intros Hx. split; [|done]. intros ->. tauto.
  - case_decide as D; [destruct D as [-> _]; done|done].
Qed.

Lemma deleteHabit_lookup habitId s key :
  days (deleteHabit_update habitId s) !! key
  = filter (λ hid, hid ≠ habitId) <$> days s !! key.
Proof. unfold deleteHabit_update. cbn [days]. apply lookup_fmap. Qed.

Lemma deleteHabit_record habitId s key x :
  x ∈ dayRecord (days (deleteHabit_update habitId s)) key ↔
  x ≠ habitId ∧ x ∈ dayRecord (days s) key.
Proof.
  unfold dayRecord. rewrite deleteHabit_lookup.
  destruct (days s !! key) as [arr|]; cbn.
  - rewrite list_elem_of_filter. tauto.
  - rewrite elem_of_nil. tauto.
Qed.

End StateFacts.

(** C2  Toggling twice with the same identifier and the same key gives the
    state back: the same user, habits and time stamp, and on every date
    the same set of completed habits (a date without entry counting as
    the empty set).  It holds for every identifier, known to [habits] or
    not. *)
Theorem toggle_self_inverse (s : State) (habitId d : string) :
  state_equiv (toggleToday_update d habitId (toggleToday_update d habitId s)) s.
Proof.
  unfold state_equiv. split; [done|]. split; [done|]. split; [done|].
  intros key x. rewrite StateFacts.toggle_record.
  case_decide; rewrite StateFacts.toggle_record; case_decide; try tauto.
  split; [apply dec_stable|tauto].
Qed.

(** The arrays themselves need not come back: a record that was absent
    is left behind empty. *)
Remark toggle_twice_leaves_entry :
  days (toggleToday_update "2024-01-01" "run"
          (toggleToday_update "2024-01-01" "run" emptyState)) !! "2024-01-01"
  = Some []
  ∧ days emptyState !! "2024-01-01" = None.
Proof. split; [vm_compute; reflexivity|apply lookup_empty]. Qed.

Module TransitionFacts.
Import SetFacts StateFacts.

Lemma set_habits_same s : set_habits s (habits s) = s.
Proof. now destruct s. Qed.

Lemma existsb_lower_true (name' : string) (hs : list Habit) :
  existsb (λ h, String.eqb (toLowerCase (name h)) (toLowerCase name')) hs = true
  ↔ ∃ h, h ∈ hs ∧ toLowerCase (name h) = toLowerCase name'.
Proof.
  rewrite existsb_exists. split; intros (h & Hh & E); exists h.
  - split; [now apply list_elem_of_In|now apply String.eqb_eq].
  - split; [now apply list_elem_of_In|now apply String.eqb_eq].
Qed.

Lemma addHabit_update_known name' color newId now s :
  (∃ h, h ∈ habits s ∧ toLowerCase (name h) = toLowerCase name') →
  addHabit_update name' color newId now s = s.
Proof.
  intros H%existsb_lower_true. unfold addHabit_update. rewrite H.
  apply set_habits_same.
Qed.

Lemma addHabit_update_new name' color newId now s :
  (∀ h, h ∈ habits s → toLowerCase (name h) ≠ toLowerCase name') →
  addHabit_update name' color newId now s
  = mkState (userId s) (habits s ++ [mkHabit newId name' color now None])
            (days s) (lastSeen s).
Proof.
  intros H. unfold addHabit_update.
  destruct (existsb _ _) eqn:E; [|done].
  apply existsb_lower_true in E as (h & Hh & E). now destruct (H h Hh).
Qed.

Lemma addHabit_update_days name' color newId now s :
  days (addHabit_update name' color newId now s) = days s.
Proof. reflexivity. Qed.

End TransitionFacts.

(** C3 (amended)  [deleteHabit] removes every habit with the identifier
    from [habits], keeping the others in their order, and in the same
    transition removes the identifier from every day record, keeping the
    other identifiers and the keys; no day record refers to it afterwards.
    When no habit has the identifier and no day record holds it, the
    state is unchanged. *)
Theorem deleteHabit_purges (s : State) (habitId : string) :
  habits (deleteHabit_update habitId s) = filter (λ h, id h ≠ habitId) (habits s)
  ∧ (∀ h, h ∈ habits (deleteHabit_update habitId s) ↔ h ∈ habits s ∧ id h ≠ habitId)
  ∧ (∀ key, days (deleteHabit_update habitId s) !! key
            = filter (λ hid, hid ≠ habitId) <$> days s !! key)
  ∧ (∀ key, habitId ∉ dayRecord (days (deleteHabit_update habitId s)) key)
  ∧ (∀ key x, x ≠ habitId →
       x ∈ dayRecord (days (deleteHabit_update habitId s)) key
       ↔ x ∈ dayRecord (days s) key)
  ∧ userId (deleteHabit_update habitId s) = userId s
  ∧ lastSeen (deleteHabit_update habitId s) = lastSeen s
  ∧ ((∀ h, h ∈ habits s → id h ≠ habitId) →
     (∀ key, habitId ∉ dayRecord (days s) key) →
     deleteHabit_update habitId s = s).
Proof.
  split; [done|]. split.
  { intros h. cbn. rewrite list_elem_of_filter. tauto. }
  split; [apply StateFacts.deleteHabit_lookup|]. split.
  { intros key H%StateFacts.deleteHabit_record. tauto. }
  split.
  { intros key x Hx. rewrite StateFacts.deleteHabit_record. tauto. }
  split; [done|]. split; [done|].
  intros Hh Hd. destruct s as [u hs ds ls]. unfold deleteHabit_update. cbn in *.
  f_equal.
  - now apply SetFacts.filter_all.
  - apply map_eq. intros key. rewrite lookup_fmap.
    specialize (Hd key). unfold dayRecord in Hd.
    destruct (ds !! key) as [arr|]; cbn in *; [|done].
    f_equal. apply SetFacts.filter_all. intros x Hx ->. done.
Qed.

(** C3, as stated, fails: with no habit of that identifier the state
    still changes when a day record holds the identifier. *)
Lemma deleteHabit_unknown_counterexample :
  (∀ h, h ∈ habits orphanState → id h ≠ "ghost")
  ∧ deleteHabit_update "ghost" orphanState ≠ orphanState
  ∧ (¬ state_equiv (deleteHabit_update "ghost" orphanState) orphanState).
Proof.
  split; [intros h H; cbn in H; now apply elem_of_nil in H|].
  assert (N : ¬ state_equiv (deleteHabit_update "ghost" orphanState) orphanState).
  { intros (_ & _ & _ & E). specialize (E "2024-01-01" "ghost").
    rewrite StateFacts.deleteHabit_record in E.
    assert (G : "ghost" ∈ dayRecord (days orphanState) "2024-01-01").
    { unfold dayRecord, orphanState. cbn [days].
      rewrite lookup_singleton_eq. cbn. apply list_elem_of_singleton. done. }
    apply E in G. tauto. }
  split; [|done]. intros E. apply N. rewrite E. repeat split; done.
Qed.

(** C7 (amended)  [toggleToday] and [markDay] do not look at [habits]:
    for every state, key and identifier, whether some habit has the
    identifier or not, they raise no error, leave the user, the habits and
    the time stamp as they are, and change at most whether the key's day
    record holds the identifier.  A toggle always changes it, so that an
    identifier that is absent is inserted; [markDay] makes it present or
    absent as asked, and is a no-op on the state of the data model exactly
    when the record is already as asked. *)
Theorem completion_ignores_habits (s : State) (habitId d : string) (done : bool) :
  (userId (toggleToday_update d habitId s) = userId s
   ∧ habits (toggleToday_update d habitId s) = habits s
   ∧ lastSeen (toggleToday_update d habitId s) = lastSeen s
   ∧ (habitId ∈ dayRecord (days (toggleToday_update d habitId s)) d
      ↔ habitId ∉ dayRecord (days s) d)
   ∧ (∀ key x, ¬ (key = d ∧ x = habitId) →
        x ∈ dayRecord (days (toggleToday_update d habitId s)) key
        ↔ x ∈ dayRecord (days s) key)
   ∧ (¬ state_equiv (toggleToday_update d habitId s) s))
  ∧ (userId (markDay_update habitId d done s) = userId s
     ∧ habits (markDay_update habitId d done s) = habits s
     ∧ lastSeen (markDay_update habitId d done s) = lastSeen s
     ∧ (habitId ∈ dayRecord (days (markDay_update habitId d done s)) d
        ↔ done = true)
     ∧ (∀ key x, ¬ (key = d ∧ x = habitId) →
          x ∈ dayRecord (days (markDay_update habitId d done s)) key
          ↔ x ∈ dayRecord (days s) key)
     ∧ (state_equiv (markDay_update habitId d done s) s
        ↔ (habitId ∈ dayRecord (days s) d ↔ done = true))).
Proof.
  assert (T : ∀ key x,
    x ∈ dayRecord (days (toggleToday_update d habitId s)) key ↔
    if decide (key = d ∧ x = habitId) then x ∉ dayRecord (days s) key
    else x ∈ dayRecord (days s) key) by apply StateFacts.toggle_record.
  assert (M : ∀ key x,
    x ∈ dayRecord (days (markDay_update habitId d done s)) key ↔
    if decide (key = d ∧ x = habitId) then done = true
    else x ∈ dayRecord (days s) key) by apply StateFacts.markDay_record.
  split.
  - split; [done|]. split; [done|]. split; [done|]. split.
    { rewrite T. now rewrite decide_True by done. }
    split.
    { intros key x N. rewrite T. now rewrite decide_False by done. }
    intros (_ & _ & _ & E). specialize (E d habitId). rewrite T in E.
    rewrite decide_True in E by done. tauto.
  - split; [done|]. split; [done|]. split; [done|]. split.
    { rewrite M. now rewrite decide_True by done. }
    split.
    { intros key x N. rewrite M. now rewrite decide_False by done. }
    split.
    + intros (_ & _ & _ & E). specialize (E d habitId). rewrite M in E.
      rewrite decide_True in E by done. tauto.
    + intros H. split; [done|]. split; [done|]. split; [done|].
      intros key x. rewrite M. case_decide as D; [|done].
      destruct D as [-> ->]. tauto.
Qed.

(** C7, as stated, fails: on a state without habits a toggle and a
    [markDay] to done insert the unknown identifier. *)
Lemma completion_unknown_counterexample :
  (∀ h, h ∈ habits emptyState → id h ≠ "ghost")
  ∧ "ghost" ∈ dayRecord (days (toggleToday_update "2024-01-01" "ghost" emptyState))
                        "2024-01-01"
  ∧ "ghost" ∈ dayRecord (days (markDay_update "ghost" "2024-01-01" true emptyState))
                        "2024-01-01"
  ∧ ("ghost" ∉ dayRecord (days emptyState) "2024-01-01")
  ∧ (¬ state_equiv (toggleToday_update "2024-01-01" "ghost" emptyState) emptyState)
  ∧ (¬ state_equiv (markDay_update "ghost" "2024-01-01" true emptyState) emptyState).
Proof.
  assert (G : "ghost" ∉ dayRecord (days emptyState) "2024-01-01").
  { unfold dayRecord, emptyState. cbn [days]. rewrite lookup_empty. cbn.
    apply not_elem_of_nil. }
  split; [intros h H; cbn in H; now apply elem_of_nil in H|].
  split; [now rewrite StateFacts.toggle_record, decide_True by done|].
  split; [now rewrite StateFacts.markDay_record, decide_True by done|].
  split; [done|]. split.
  - intros (_ & _ & _ & E). specialize (E "2024-01-01" "ghost").
    rewrite StateFacts.toggle_record, decide_True in E by done. tauto.
  - intros (_ & _ & _ & E). specialize (E "2024-01-01" "ghost").
    rewrite StateFacts.markDay_record, decide_True in E by done. tauto.
Qed.

(** C10  Each of the four operations keeps the invariant that no day
    record holds an identifier twice. *)
Theorem noDuplicates_preserved (s : State) :
  noDuplicates s →
  (∀ newHabitName color newId now s',
     addHabit newHabitName color newId now (Some s) = Some s' → noDuplicates s')
  ∧ (∀ habitId, noDuplicates (deleteHabit_update habitId s))
  ∧ (∀ todayKey habitId, noDuplicates (toggleToday_update todayKey habitId s))
  ∧ (∀ habitId dayKey done, noDuplicates (markDay_update habitId dayKey done s)).
Proof.
  intros I. split; [|split; [|split]].
  - intros newHabitName color newId now s'. unfold addHabit.
    destruct (String.eqb _ _); cbn; intros [= <-]; [done|].
    intros key arr. rewrite TransitionFacts.addHabit_update_days. apply I.
  - intros habitId key arr. rewrite StateFacts.deleteHabit_lookup.
    destruct (days s !! key) as [arr0|] eqn:E; cbn; [|done].
    intros [= <-]. apply NoDup_filter, (I key), E.
  - intros todayKey habitId key arr. unfold toggleToday_update. cbn [days set_days].
    rewrite lookup_insert. case_decide; [|apply I].
    intros [= <-]. unfold JSSet.to_array.
    destruct (JSSet.has _ _).
    + apply SetFacts.NoDup_delete, SetFacts.NoDup_of_array.
    + apply SetFacts.NoDup_add, SetFacts.NoDup_of_array.
  - intros habitId dayKey done key arr. unfold markDay_update. cbn [days set_days].
    rewrite lookup_insert. case_decide; [|apply I].
    intros [= <-]. unfold JSSet.to_array. destruct done.
    + apply SetFacts.NoDup_add, SetFacts.NoDup_of_array.
    + apply SetFacts.NoDup_delete, SetFacts.NoDup_of_array.
Qed.

Lemma noDuplicates_preserved_witness :
  noDuplicates orphanState
  ∧ (∀ newHabitName color newId now s',
       addHabit newHabitName color newId now (Some orphanState) = Some s' →
       noDuplicates s')
  ∧ (∀ habitId, noDuplicates (deleteHabit_update habitId orphanState))
  ∧ (∀ todayKey habitId, noDuplicates (toggleToday_update todayKey habitId orphanState))
  ∧ (∀ habitId dayKey done, noDuplicates (markDay_update habitId dayKey done orphanState)).
Proof.
  assert (I : noDuplicates orphanState).
  { intros key arr H. unfold orphanState in H. cbn [days] in H.
    apply lookup_singleton_Some in H as [_ <-]. apply NoDup_singleton. }
  split; [exact I|apply (noDuplicates_preserved orphanState I)].
Defined.

(** *** Trimming *)

Module TrimFacts.

Lemma trimStart_spec s :
  ∃ l, s = l +:+ trimStart s ∧ blank l = true
    ∧ (∀ c, firstChar (trimStart s) = Some c → isWhiteSpace c = false).
Proof.
  induction s as [|c s (l & E & B & F)].
  - exists "". split; [reflexivity|]. split; [reflexivity|]. intros c [=].
  - cbn [trimStart]. destruct (isWhiteSpace c) eqn:W.
    + exists (String c l). split; [|split; [|exact F]].
      * change (String c l +:+ trimStart s) with (String c (l +:+ trimStart s)).
        now rewrite <- E.
      * cbn [blank]. now rewrite W, B.
    + exists "". split; [reflexivity|]. split; [reflexivity|].
      intros c' [= <-]. exact W.
Qed.

Lemma trimEnd_spec s :
  ∃ r, s = trimEnd s +:+ r ∧ blank r = true
    ∧ (∀ c, lastChar (trimEnd s) = Some c → isWhiteSpace c = false)
    ∧ (trimEnd s ≠ "" → firstChar (trimEnd s) = firstChar s).
Proof.
  induction s as [|c s (r & E & B & L & F)].
  - exists "". split; [reflexivity|]. split; [reflexivity|].
    split; [intros c [=]|done].
  - cbn [trimEnd]. destruct (trimEnd s) as [|c2 r2] eqn:T.
    + destruct (isWhiteSpace c) eqn:W.
      * exists (String c r). split; [|split; [|split]].
        -- change ("" +:+ String c r) with (String c ("" +:+ r)). now rewrite <- E.
        -- cbn [blank]. now rewrite W, B.
        -- intros c' [=].
        -- done.
      * exists r. split; [|split; [|split]].
        -- change (String c "" +:+ r) with (String c ("" +:+ r)). now rewrite <- E.
        -- exact B.
        -- intros c' [= <-]. exact W.
        -- done.
    + exists r. split; [|split; [|split]].
      * change (String c (String c2 r2) +:+ r) with (String c (String c2 r2 +:+ r)).
        now rewrite <- E.
      * exact B.
      * intros c' H. apply L. exact H.
      * done.
Qed.

(** [trim] is what the name says. *)
Lemma trim_spec s : isTrimOf (trim s) s.
Proof.
  unfold trim.
  destruct (trimStart_spec s) as (l & El & Bl & Fl).
  destruct (trimEnd_spec (trimStart s)) as (r & Er & Br & Lr & Fr).
  exists l, r. split; [|split; [done|split; [done|split; [|done]]]].
  - now rewrite <- Er.
  - intros c H. apply Fl. rewrite <- Fr; [done|]. intros E. now rewrite E in H.
Qed.

End TrimFacts.

(** C6 (amended)  [addHabit] trims the name: what it works with is the
    name without the white space at its two ends.  An empty trimmed name
    leaves the state as it is; so does a trimmed name that some habit,
    archived or not, already has up to the case of its letters (hence
    "read" after "Read" leaves the number of habits as it is); otherwise
    one habit is appended at the end of [habits]: it has the identifier
    that [uid()] returned, which is not compared with the identifiers in
    use, the trimmed name, the colour of the form and the time of the
    clock, and no archive flag, and nothing else changes. *)
Theorem addHabit_spec (s : State) (newHabitName color now : string) (draw : Draw) :
  isTrimOf (trim newHabitName) newHabitName
  ∧ (trim newHabitName = "" →
     addHabit newHabitName color (uid draw) now (Some s) = Some s)
  ∧ ((∃ h, h ∈ habits s ∧ toLowerCase (name h) = toLowerCase (trim newHabitName)) →
     addHabit newHabitName color (uid draw) now (Some s) = Some s)
  ∧ (trim newHabitName ≠ "" →
     (∀ h, h ∈ habits s → toLowerCase (name h) ≠ toLowerCase (trim newHabitName)) →
     addHabit newHabitName color (uid draw) now (Some s)
     = Some (mkState (userId s)
               (habits s ++ [mkHabit (uid draw) (trim newHabitName) color now None])
               (days s) (lastSeen s)))
  ∧ (∀ otherColor otherDraw later,
       (length ∘ habits) <$>
         addHabit "read" otherColor (uid otherDraw) later
           (addHabit "Read" color (uid draw) now (Some s))
       = (length ∘ habits) <$> addHabit "Read" color (uid draw) now (Some s)).
Proof.
  split; [apply TrimFacts.trim_spec|]. generalize (uid draw). intros newId.
  split; [|split; [|split]].
  - intros E. unfold addHabit. now rewrite E.
  - intros H. unfold addHabit. destruct (String.eqb _ _); [done|]. cbn.
    now rewrite TransitionFacts.addHabit_update_known.
  - intros N H. unfold addHabit.
    destruct (String.eqb_spec (trim newHabitName) ""); [done|]. cbn.
    now rewrite TransitionFacts.addHabit_update_new.
  - intros otherColor otherDraw later. generalize (uid otherDraw). intros otherId.
    change (addHabit "Read" color newId now (Some s))
      with (Some (addHabit_update "Read" color newId now s)).
    set (s1 := addHabit_update "Read" color newId now s).
    change (addHabit "read" otherColor otherId later (Some s1))
      with (Some (addHabit_update "read" otherColor otherId later s1)).
    rewrite (TransitionFacts.addHabit_update_known "read"); [done|].
    unfold s1, addHabit_update.
    destruct (existsb _ (habits s)) eqn:E.
    + apply TransitionFacts.existsb_lower_true in E as (h & Hh & E).
      exists h. split; [|exact E]. now destruct s.
    + exists (mkHabit newId "Read" color now None). split; [|done].
      cbn. apply elem_of_app. right. now apply list_elem_of_singleton.
Qed.

(** C6, as stated, fails in the identifier: [uid()] is a random draw,
    nothing compares it with the identifiers in use, and whatever it
    returns, a state that the storage can hold has a habit of that
    identifier.  Here the habit that is appended has the identifier of
    the habit that was there. *)
Lemma addHabit_fresh_counterexample :
  uid repeatedDraw = "id-k3v9x2ab"
  ∧ (∃ h, h ∈ habits loadedState ∧ id h = uid repeatedDraw)
  ∧ addHabit " Walk " "#22c55e" (uid repeatedDraw) "t1" (Some loadedState)
    = Some (mkState "user"
              [mkHabit "id-k3v9x2ab" "Read" "#ef4444" "t0" None;
               mkHabit "id-k3v9x2ab" "Walk" "#22c55e" "t1" None]
              ∅ None).
Proof.
  split; [reflexivity|]. split; [|reflexivity].
  exists (mkHabit "id-k3v9x2ab" "Read" "#ef4444" "t0" None).
  split; [apply list_elem_of_here|reflexivity].
Qed.

(** ** The streak *)

Module StreakFacts.
Import JSDate Calendar JSDateFacts KeyFacts.

Lemma includes_true habitId (ds : gmap string (list string)) key :
  includes habitId (ds !! key) = true ↔ habitId ∈ dayRecord ds key.
Proof.
  unfold includes, dayRecord. destruct (ds !! key); cbn.
  - apply bool_decide_eq_true.
  - rewrite elem_of_nil. split; [done|tauto].
Qed.

Lemma includes_false habitId (ds : gmap string (list string)) key :
  includes habitId (ds !! key) = false ↔ habitId ∉ dayRecord ds key.
Proof. rewrite <- includes_true. now destruct (includes _ _). Qed.

(** The key of the day before the first of January 1000. *)
Lemma key_before_1000 : format (ofDay (DayFromYear 1000 - 1)) = "999-12-31".
Proof. vm_compute. reflexivity. Qed.

Lemma DayFromYear_1000 : DayFromYear 1000 = -354285.
Proof. reflexivity. Qed.

Lemma DayFromYear_10000 : DayFromYear 10000 = 2932897.
Proof. reflexivity. Qed.

Lemma year_ok t :
  -354286 <= t < 2932897 → 100 <= YearFromTime t < 10100.
Proof.
  intros H. apply year_bounds. rewrite DayFromYear_100, DayFromYear_10100. lia.
Qed.

(** The keys of two days are the same only when the days are. *)
Lemma format_ofDay_inj t t' :
  -354286 <= t < 2932897 → -354286 <= t' < 2932897 →
  format (ofDay t) = format (ofDay t') → t = t'.
Proof.
  intros Ht Ht' E. apply year_ok in Ht, Ht'.
  destruct (ofDay_valid t) as [V T], (ofDay_valid t') as [V' T'].
  assert (P : keyParts (format (ofDay t)) = keyParts (format (ofDay t')))
    by now rewrite E.
  revert V V' P. unfold ofDay at 1 2 3 4, valid. intros [? ?] [? ?].
  rewrite !keyParts_format by lia. intros [= Ey Em Ed].
  rewrite <- T, <- T'. unfold ofDay. now rewrite Ey, Em, Ed.
Qed.

Section Walk.
Variable z : Zone.
Hypothesis keeps : keepsDays z.
Variable ds : gmap string (list string).
Variable habitId : string.
Variable t0 : Z.
Hypothesis t0_range : -354285 <= t0 < 2932897.
Hypothesis keys_dates : ∀ key, is_Some (ds !! key) → isDateKey key = true.

Lemma cursor_step i : (i <= spanOf t0)%nat →
  shiftLocalDateKey z (cursorAt t0 i) (-1) = cursorAt t0 (S i).
Proof.
  intros Hi. unfold cursorAt, spanOf in *.
  rewrite shift_format by (done || (try apply year_ok; lia)).
  do 2 f_equal. lia.
Qed.

Lemma cursor_shift i : (i <= S (spanOf t0))%nat →
  shiftLocalDateKey z (cursorAt t0 0) (- Z.of_nat i) = cursorAt t0 i.
Proof.
  intros Hi. unfold cursorAt, spanOf in *.
  rewrite shift_format by (done || (try apply year_ok; lia)).
  do 2 f_equal. lia.
Qed.

Lemma cursor_span_absent : habitId ∉ dayRecord ds (cursorAt t0 (spanOf t0)).
Proof.
  unfold dayRecord. destruct (ds !! cursorAt t0 (spanOf t0)) as [arr|] eqn:E;
    [|apply not_elem_of_nil].
  assert (K : isDateKey (cursorAt t0 (spanOf t0)) = true) by (apply keys_dates; eauto).
  unfold cursorAt, spanOf in K.
  replace (t0 - Z.of_nat (Z.to_nat (t0 + 354285 + 1))) with (DayFromYear 1000 - 1)
    in K by (rewrite DayFromYear_1000; lia).
  rewrite key_before_1000 in K. vm_compute in K. discriminate.
Qed.

(** The loop stops at the first day, walking back, whose record lacks
    the habit, and has then counted the days before it. *)
Lemma loop_stops fuel : ∀ (i : nat) (streak : Z),
  (i <= spanOf t0)%nat → (spanOf t0 - i < fuel)%nat →
  ∃ n : nat, (i <= n <= spanOf t0)%nat
    ∧ getStreak_loop z fuel habitId ds streak (cursorAt t0 i)
      = Some (streak + Z.of_nat (n - i))
    ∧ (∀ j : nat, (i <= j < n)%nat → habitId ∈ dayRecord ds (cursorAt t0 j))
    ∧ (habitId ∉ dayRecord ds (cursorAt t0 n)).
Proof.
  induction fuel as [|fuel IH]; intros i streak Hi Hf; [lia|].
  cbn [getStreak_loop].
  destruct (includes habitId (ds !! cursorAt t0 i)) eqn:E.
  - apply includes_true in E.
    assert (i ≠ spanOf t0) by (intros ->; now apply cursor_span_absent).
    rewrite cursor_step by lia.
    destruct (IH (S i) (streak + 1)) as (n & Hn & R & P & A); [lia..|].
    exists n. split; [lia|]. split; [rewrite R; f_equal; lia|]. split; [|done].
    intros j Hj. destruct (decide (j = i)) as [->|]; [done|]. apply P. lia.
  - apply includes_false in E. exists i. split; [lia|].
    split; [f_equal; lia|]. split; [intros j Hj; lia|done].
Qed.

End Walk.

End StreakFacts.

(** C5 (amended)  In a host time zone that skips no local calendar
    day, when the keys of [days] are date keys (of calendar dates in the
    years 1000 to 9999) and [asOf] is one, the loop of [getStreak] ends
    (every amount of fuel from some amount on gives the same result) and
    returns the number [n] such that the habit is in the record of [asOf]
    and of each of the [n - 1] days before it and is not in the record of
    the day [n] days before [asOf].  So it returns 0 when the record of
    [asOf] lacks the habit, and 5 when [asOf] and the four days before it
    are completed and the day before those is not. *)
Theorem getStreak_spec (z : JSDate.Zone) (ds : gmap string (list string))
    (habitId asOf : string) :
  JSDate.keepsDays z →
  isDateKey asOf = true →
  (∀ key, is_Some (ds !! key) → isDateKey key = true) →
  ∃ n : nat,
    (∃ fuel0 : nat, ∀ fuel : nat, (fuel0 <= fuel)%nat →
       getStreak z fuel habitId ds asOf = Some (Z.of_nat n))
    ∧ (∀ i : nat, (i < n)%nat →
         habitId ∈ dayRecord ds (shiftLocalDateKey z asOf (- Z.of_nat i)))
    ∧ (habitId ∉ dayRecord ds (shiftLocalDateKey z asOf (- Z.of_nat n)))
    ∧ (habitId ∉ dayRecord ds asOf → n = 0%nat)
    ∧ ((∀ i : nat, (i <= 4)%nat →
          habitId ∈ dayRecord ds (shiftLocalDateKey z asOf (- Z.of_nat i))) →
       habitId ∉ dayRecord ds (shiftLocalDateKey z asOf (-5)) →
       n = 5%nat).
Proof.
  intros Kz Hk Hds.
  destruct (KeyFacts.isDateKey_inv asOf Hk) as (y & m & d & _ & Hy & V & ->).
  destruct (KeyFacts.dateKey_day y m d Hy V) as [E B].
  rewrite StreakFacts.DayFromYear_1000, StreakFacts.DayFromYear_10000 in B.
  set (t0 := Calendar.toDay (y, m, d)) in *.
  assert (C0 : Calendar.format (y, m, d) = cursorAt t0 0).
  { unfold cursorAt. rewrite <- E. do 2 f_equal. lia. }
  rewrite C0.
  destruct (StreakFacts.loop_stops z Kz ds habitId t0 B Hds
              (S (spanOf t0)) 0 0) as (n & Hn & R & P & A); [lia..|].
  assert (Sh : ∀ i : nat, (i <= n)%nat →
    shiftLocalDateKey z (cursorAt t0 0) (- Z.of_nat i) = cursorAt t0 i).
  { intros i Hi. apply StreakFacts.cursor_shift; [done|done|lia]. }
  exists n. split; [|split; [|split; [|split]]].
  - exists (S (spanOf t0)). intros fuel Hf. unfold getStreak.
    destruct (StreakFacts.loop_stops z Kz ds habitId t0 B Hds fuel 0 0)
      as (n' & Hn' & R' & P' & A'); [lia..|].
    rewrite R'. do 2 f_equal.
    destruct (Nat.lt_trichotomy n n') as [L|[->|L]]; [|lia|].
    + destruct A. apply P'. lia.
    + destruct A'. apply P. lia.
  - intros i Hi. rewrite Sh by lia. apply P. lia.
  - now rewrite Sh by lia.
  - intros H0. destruct n as [|n]; [done|]. destruct H0. apply P. lia.
  - intros H4 H5.
    destruct (Nat.lt_trichotomy n 5) as [L|[->|L]]; [|done|].
    + destruct A. rewrite <- Sh by lia. apply H4. lia.
    + destruct H5. change (-5) with (- Z.of_nat 5). rewrite Sh by lia. apply P. lia.
Qed.

Lemma getStreak_spec_witness :
  ∃ n : nat,
    (∃ fuel0 : nat, ∀ fuel : nat, (fuel0 <= fuel)%nat →
       getStreak JSDate.paris2024 fuel "run" fiveDays "2024-03-03" = Some (Z.of_nat n))
    ∧ (∀ i : nat, (i < n)%nat →
         "run" ∈ dayRecord fiveDays
                   (shiftLocalDateKey JSDate.paris2024 "2024-03-03" (- Z.of_nat i)))
    ∧ ("run" ∉ dayRecord fiveDays
                 (shiftLocalDateKey JSDate.paris2024 "2024-03-03" (- Z.of_nat n)))
    ∧ ("run" ∉ dayRecord fiveDays "2024-03-03" → n = 0%nat)
    ∧ ((∀ i : nat, (i <= 4)%nat →
          "run" ∈ dayRecord fiveDays
                    (shiftLocalDateKey JSDate.paris2024 "2024-03-03" (- Z.of_nat i))) →
       "run" ∉ dayRecord fiveDays (shiftLocalDateKey JSDate.paris2024 "2024-03-03" (-5)) →
       n = 5%nat).
Proof.
  apply (getStreak_spec JSDate.paris2024 fiveDays "run" "2024-03-03").
  - apply JSDateFacts.paris2024_keepsDays.
  - vm_compute. reflexivity.
  - intros key [arr H].
    assert (F : map_Forall (λ k _, isDateKey k = true) fiveDays).
    { unfold fiveDays. repeat apply map_Forall_insert_2; try (vm_compute; reflexivity).
      apply map_Forall_empty. }
    exact (F key arr H).
Defined.

(** C5, as stated, fails.  Where the zone skipped the day before, the
    walk does not move: in Apia the key of the 31st of December 2011 is
    shifted back to itself, and with that day completed the loop runs
    whatever the fuel.  And below the year 1000 the walk loses its way in
    any zone: the day before 1000-01-01 is looked up under the key
    999-12-31, so that a completion recorded under 0999-12-31 is not
    counted and two days in a row make a streak of 1. *)
Lemma getStreak_counterexample :
  (isDateKey "2011-12-31" = true
   ∧ shiftLocalDateKey JSDate.apia "2011-12-31" (-1) = "2011-12-31"
   ∧ ∀ fuel : nat, getStreak JSDate.apia fuel "run" apiaDays "2011-12-31" = None)
  ∧ (looksLikeDateKey "1000-01-01" = true ∧ looksLikeDateKey "0999-12-31" = true
     ∧ "run" ∈ dayRecord earlyDays "1000-01-01"
     ∧ "run" ∈ dayRecord earlyDays "0999-12-31"
     ∧ getStreak JSDate.utc 10 "run" earlyDays "1000-01-01" = Some 1).
Proof.
  split; [split; [|split]|].
  - vm_compute. reflexivity.
  - vm_compute. reflexivity.
  - intros fuel. unfold getStreak. generalize 0.
    induction fuel as [|fuel IH]; intros streak; [reflexivity|].
    cbn [getStreak_loop].
    replace (includes "run" (apiaDays !! "2011-12-31")) with true
      by (vm_compute; reflexivity).
    replace (shiftLocalDateKey JSDate.apia "2011-12-31" (-1)) with "2011-12-31"
      by (vm_compute; reflexivity).
    apply IH.
  - split; [vm_compute; reflexivity|]. split; [vm_compute; reflexivity|].
    split; [vm_compute; apply list_elem_of_here|].
    split; [vm_compute; apply list_elem_of_here|].
    vm_compute. reflexivity.
Qed.

(** The streak of the five days is 5. *)
Example getStreak_five : getStreak JSDate.utc 10 "run" fiveDays "2024-03-03" = Some 5.
Proof. vm_compute. reflexivity. Qed.

(** Without the condition on the keys the loop need not end: the key of
    an invalid date is shifted to itself, and a record under it keeps the
    loop running whatever the fuel. *)
Remark getStreak_stray_key (z : JSDate.Zone) (fuel : nat) :
  getStreak z fuel "run" strayDays "NaN-NaN-NaN" = None.
Proof.
  unfold getStreak. generalize 0. induction fuel as [|fuel IH]; intros streak.
  - reflexivity.
  - cbn [getStreak_loop].
    replace (includes "run" (strayDays !! "NaN-NaN-NaN")) with true
      by (vm_compute; reflexivity).
    replace (shiftLocalDateKey z "NaN-NaN-NaN" (-1)) with "NaN-NaN-NaN"
      by reflexivity.
    apply IH.
Qed.

(** ** The message selector *)

(** C8  The daily message is a function of the user identifier and the
    date key alone: it is the entry of [MESSAGES] at the index
    [abs (stableHash (userId + "::" + dateKey)) mod 7], which always
    exists; two renders with the same user identifier and the same key
    show the same message, whatever the host (its colour scheme
    included), the habits and the day records are; and the message
    differs between two renders only if the user identifier or the key
    does. *)
Theorem dailyMessage_deterministic :
  (∀ userId dateKey : string,
     getDailyMessage userId dateKey
     = MESSAGES !! Z.to_nat (Z.abs (stableHash (userId +:+ "::" +:+ dateKey))
                              mod Z.of_nat (length MESSAGES))
     ∧ is_Some (getDailyMessage userId dateKey))
  ∧ (∀ (r1 r2 : Render) (s1 s2 : State),
       state r1 = Some s1 → state r2 = Some s2 →
       userId s1 = userId s2 → todayKey r1 = todayKey r2 →
       message r1 = message r2)
  ∧ (∀ (r1 r2 : Render) (s1 s2 : State),
       state r1 = Some s1 → state r2 = Some s2 →
       message r1 ≠ message r2 →
       userId s1 ≠ userId s2 ∨ todayKey r1 ≠ todayKey r2).
Proof.
  assert (D : ∀ (r1 r2 : Render) (s1 s2 : State),
       state r1 = Some s1 → state r2 = Some s2 →
       userId s1 = userId s2 → todayKey r1 = todayKey r2 →
       message r1 = message r2).
  { intros r1 r2 s1 s2 E1 E2 Eu Ek. unfold message. now rewrite E1, E2, Eu, Ek. }
  split; [|split; [exact D|]].
  - intros userId dateKey. unfold getDailyMessage, pick.
    change (Z.of_nat (length MESSAGES)) with 7. cbn [Z.eqb]. split; [done|].
    apply lookup_lt_is_Some.
    pose proof (Z.mod_pos_bound (Z.abs (stableHash (userId +:+ "::" +:+ dateKey))) 7).
    change (length MESSAGES) with 7%nat. lia.
  - intros r1 r2 s1 s2 E1 E2 N.
    destruct (decide (userId s1 = userId s2)) as [Eu|]; [|now left].
    destruct (decide (todayKey r1 = todayKey r2)) as [Ek|]; [|now right].
    destruct N. now apply (D r1 r2 s1 s2).
Qed.

(** The selector of the library module is another matter: it reads the
    colour scheme of the host, and the same user gets another message
    when the scheme changes. *)
Remark getMessageForUser_reads_host :
  getMessageForUser (mkEnv true true JSDate.utc) "abc"
  ≠ getMessageForUser (mkEnv true false JSDate.utc) "abc".
Proof. vm_compute. discriminate. Qed.

(** ** From the first run to the first completed habit *)

Module EndToEnd.
Import JSDate Calendar JSDateFacts KeyFacts.

(** The day before a date key is another key, where the zone skips no
    day. *)
Lemma shift_back_differs z k :
  keepsDays z → isDateKey k = true → shiftLocalDateKey z k (-1) ≠ k.
Proof.
  intros Kz Hk.
  destruct (isDateKey_inv k Hk) as (y & m & d & _ & Hy & V & ->).
  destruct (dateKey_day y m d Hy V) as [E B].
  rewrite StreakFacts.DayFromYear_1000, StreakFacts.DayFromYear_10000 in B.
  rewrite <- E. rewrite shift_format by (done || (try apply StreakFacts.year_ok; lia)).
  intros H%StreakFacts.format_ofDay_inj; lia.
Qed.

Lemma firstRun_add color newId later userUid habitUid created seen :
  addHabit "Hydrate" color newId later (Some (initial userUid habitUid created seen))
  = Some (mkState userUid
            [mkHabit habitUid "Check-in" "#22c55e" created None;
             mkHabit newId "Hydrate" color later None]
            ∅ (Some seen)).
Proof. reflexivity. Qed.

Lemma firstRun_toggle today newId u hs ls :
  toggleToday today newId (Some (mkState u hs ∅ ls))
  = Some (mkState u hs {[ today := [newId] ]} ls).
Proof.
  unfold toggleToday, setState, toggleToday_update. cbn [fmap option_fmap option_map days].
  rewrite lookup_empty. now rewrite insert_empty.
Qed.

(** The derived values of a loaded state. *)
Lemma activeHabits_Some s :
  activeHabits (Some s) = filter (λ h, negb (truthy (archived h)) = true) (habits s).
Proof. reflexivity. Qed.

Lemma completedToday_Some s key :
  completedToday (Some s) key = JSSet.of_array (dayRecord (days s) key).
Proof. reflexivity. Qed.

End EndToEnd.

(** C9 (amended)  From the first-run state, which has the default habit
    "Check-in", adding the habit "Hydrate" and toggling it for today gives
    two active habits of which one is done: [todayProgress] reports
    total 2, done 1 and 50 percent; and, in a host time zone that skips
    no local calendar day, the streak of the new habit is 1. *)
Theorem first_run_progress
    (userUid habitUid created seen color newId later today : string) (host : Env) :
  isDateKey today = true →
  todayProgress
    (toggleToday today newId
       (addHabit "Hydrate" color newId later (Some (initial userUid habitUid created seen))))
    today
  = mkProgress 2 1 50
  ∧ (JSDate.keepsDays (timeZone host) →
     ∃ fuel0 : nat, ∀ fuel : nat, (fuel0 <= fuel)%nat →
       streakFor fuel
         (mkRender host
            (toggleToday today newId
               (addHabit "Hydrate" color newId later
                  (Some (initial userUid habitUid created seen))))
            today)
         newId
       = Some 1).
Proof.
  intros Hk. rewrite EndToEnd.firstRun_add, EndToEnd.firstRun_toggle.
  split.
  - unfold todayProgress.
    rewrite EndToEnd.activeHabits_Some, EndToEnd.completedToday_Some.
    unfold dayRecord. cbn [habits days]. rewrite lookup_singleton_eq.
    change (JSSet.of_array (default [] (Some [newId]))) with [newId].
    unfold JSSet.to_array.
    rewrite !filter_cons_True by done. rewrite filter_nil.
    rewrite filter_cons_True
      by (cbn [existsb id]; rewrite String.eqb_refl; now rewrite !orb_true_r).
    rewrite filter_nil. vm_compute. reflexivity.
  - intros Kz. exists 2%nat. intros [|[|fuel]] Hf; [lia..|].
    unfold streakFor, getStreak. cbn [state days todayKey env getStreak_loop].
    rewrite lookup_singleton_eq. cbn [includes].
    rewrite bool_decide_eq_true_2 by (apply list_elem_of_singleton; reflexivity).
    rewrite lookup_singleton_ne
      by (intros E; symmetry in E; now apply EndToEnd.shift_back_differs in E).
    reflexivity.
Qed.

Lemma first_run_progress_witness :
  todayProgress
    (toggleToday "2024-03-01" "id-2"
       (addHabit "Hydrate" "#3b82f6" "id-2" "t1" (Some (initial "id-0" "id-1" "t0" "t0"))))
    "2024-03-01"
  = mkProgress 2 1 50
  ∧ ∃ fuel0 : nat, ∀ fuel : nat, (fuel0 <= fuel)%nat →
      streakFor fuel
        (mkRender (mkEnv true false JSDate.paris2024)
           (toggleToday "2024-03-01" "id-2"
              (addHabit "Hydrate" "#3b82f6" "id-2" "t1"
                 (Some (initial "id-0" "id-1" "t0" "t0"))))
           "2024-03-01")
        "id-2"
      = Some 1.
Proof.
  destruct (first_run_progress "id-0" "id-1" "t0" "t0" "#3b82f6" "id-2" "t1" "2024-03-01"
              (mkEnv true false JSDate.paris2024)) as [P S].
  - vm_compute. reflexivity.
  - split; [exact P|]. apply S. apply JSDateFacts.paris2024_keepsDays.
Defined.

(** C9, as stated, fails: the default habit of the first run counts, so
    the total is 2 and the percentage 50, not 1 and 100.  And where the
    zone skipped the day before today the streak is not reported at all:
    in Apia on the 31st of December 2011 the loop of [getStreak] runs
    whatever the fuel. *)
Lemma first_run_progress_counterexample :
  (todayProgress
     (toggleToday "2024-03-01" "id-2"
        (addHabit "Hydrate" "#3b82f6" "id-2" "t1" (Some (initial "id-0" "id-1" "t0" "t0"))))
     "2024-03-01"
   = mkProgress 2 1 50
   ∧ mkProgress 2 1 50 ≠ mkProgress 1 1 100)
  ∧ (isDateKey "2011-12-31" = true
     ∧ ∀ fuel : nat,
         streakFor fuel
           (mkRender (mkEnv true false JSDate.apia)
              (toggleToday "2011-12-31" "id-2"
                 (addHabit "Hydrate" "#3b82f6" "id-2" "t1"
                    (Some (initial "id-0" "id-1" "t0" "t0"))))
              "2011-12-31")
           "id-2"
         = None).
Proof.
  split; [split; [vm_compute; reflexivity|discriminate]|].
  split; [vm_compute; reflexivity|].
  intros fuel. rewrite EndToEnd.firstRun_add, EndToEnd.firstRun_toggle.
  unfold streakFor, getStreak. cbn [state days todayKey env timeZone].
  generalize 0. induction fuel as [|fuel IH]; intros streak; [reflexivity|].
  cbn [getStreak_loop]. rewrite lookup_singleton_eq. cbn [includes].
  rewrite bool_decide_eq_true_2 by (apply list_elem_of_singleton; reflexivity).
  replace (shiftLocalDateKey JSDate.apia "2011-12-31" (-1)) with "2011-12-31"
    by (vm_compute; reflexivity).
  apply IH.
Qed.

(** ** Rounding to binary64 *)

Module FloatFacts.
Import Float.

Lemma pow2_gt0 k : 0 <= k → 0 < 2 ^ k.
Proof. intros. now apply Z.pow_pos_nonneg. Qed.

Lemma pow2_le a b : 0 <= a <= b → 2 ^ a <= 2 ^ b.
Proof. intros. apply Z.pow_le_mono_r; lia. Qed.

(** The exponent brackets the fraction. *)
Lemma exponent_spec p q :
  0 < q → q <= p * 2 ^ 1100 →
  2 ^ (exponent p q + 1100) * q <= p * 2 ^ 1100
    < 2 ^ (exponent p q + 1100 + 1) * q
  ∧ 0 <= exponent p q + 1100.
Proof.
  intros Hq Hp. unfold exponent.
  set (N := p * 2 ^ 1100 / q).
  assert (HN : 0 < N) by (apply Z.div_str_pos; lia).
  pose proof (Z.log2_spec N HN) as [L1 L2].
  pose proof (Z.log2_nonneg N) as L0.
  replace (Z.log2 N - 1100 + 1100) with (Z.log2 N) by lia.
  replace (Z.succ (Z.log2 N)) with (Z.log2 N + 1) in L2 by lia.
  pose proof (Z.mod_pos_bound (p * 2 ^ 1100) q Hq) as MB.
  pose proof (Z.div_mod (p * 2 ^ 1100) q ltac:(lia)) as DM.
  fold N in DM. revert Hp DM MB.
  generalize (p * 2 ^ 1100), ((p * 2 ^ 1100) mod q). intros a r Hp DM MB.
  revert L1 L2. generalize (2 ^ Z.log2 N), (2 ^ (Z.log2 N + 1)).
  intros u v L1 L2. split; [|lia]. split; nia.
Qed.

Lemma exponent_scale c p q :
  0 < c → 0 < q → exponent (c * p) (c * q) = exponent p q.
Proof.
  intros Hc Hq. unfold exponent.
  now rewrite <- Z.mul_assoc, Z.div_mul_cancel_l by lia.
Qed.

(** The rounding of a fraction does not depend on how it is written. *)
Lemma round_scale c p q : 0 < c → 0 < q → round (c * p) (c * q) = round p q.
Proof.
  intros Hc Hq. unfold round.
  destruct (Z.eqb_spec p 0) as [->|Hp].
  - now rewrite Z.mul_0_r.
  - destruct (Z.eqb_spec (c * p) 0) as [E|_]; [nia|].
    rewrite exponent_scale by done.
    set (k := 52 - exponent p q). unfold scale.
    destruct (Z.leb_spec 0 k) as [Hk|Hk].
    + rewrite <- (Z.mul_assoc c p), Z.div_mul_cancel_l, Z.mul_mod_distr_l by lia.
      set (n := p * 2 ^ k).
      replace (2 * (c * (n mod q)) <? c * q) with (2 * (n mod q) <? q)
        by (destruct (Z.ltb_spec (2 * (n mod q)) q),
              (Z.ltb_spec (2 * (c * (n mod q))) (c * q)); nia || done).
      replace (c * q <? 2 * (c * (n mod q))) with (q <? 2 * (n mod q))
        by (destruct (Z.ltb_spec q (2 * (n mod q))),
              (Z.ltb_spec (c * q) (2 * (c * (n mod q)))); nia || done).
      done.
    + assert (0 < 2 ^ (- k)) by (apply pow2_gt0; lia).
      rewrite <- (Z.mul_assoc c q), Z.div_mul_cancel_l, Z.mul_mod_distr_l by lia.
      set (d := q * 2 ^ (- k)).
      replace (2 * (c * (p mod d)) <? c * d) with (2 * (p mod d) <? d)
        by (destruct (Z.ltb_spec (2 * (p mod d)) d),
              (Z.ltb_spec (2 * (c * (p mod d))) (c * d)); nia || done).
      replace (c * d <? 2 * (c * (p mod d))) with (d <? 2 * (p mod d))
        by (destruct (Z.ltb_spec d (2 * (p mod d))),
              (Z.ltb_spec (c * d) (2 * (c * (p mod d)))); nia || done).
      done.
Qed.

(** A fraction between 2^-1048 and 2^53 is rounded to a fraction
    [m / 2^k] whose numerator has 53 bits and is an integer nearest to
    the fraction times [2^k]. *)
Lemma round_spec p q :
  0 < p → 0 < q → q <= p * 2 ^ 1048 → p < 2 ^ 53 * q →
  ∃ k m, 0 <= k <= 1100 ∧ round p q = mk m (2 ^ k)
    ∧ 2 ^ 52 * q <= p * 2 ^ k < 2 ^ 53 * q
    ∧ 2 * Z.abs (m * q - p * 2 ^ k) <= q.
Proof.
  intros Hp Hq Hlo Hhi.
  assert (Hlo' : q <= p * 2 ^ 1100).
  { replace (2 ^ 1100) with (2 ^ 1048 * 2 ^ 52) by (rewrite <- Z.pow_add_r; done || lia).
    pose proof (pow2_gt0 52 ltac:(lia)). nia. }
  destruct (exponent_spec p q Hq Hlo') as [[E1 E2] E0].
  set (L := exponent p q + 1100) in *.
  assert (HL : 52 <= L <= 1152).
  { split.
    - destruct (Z.lt_ge_cases L 52) as [C|C]; [|done]. exfalso.
      assert (2 ^ (L + 1) <= 2 ^ 52) by (apply pow2_le; lia).
      replace (2 ^ 1100) with (2 ^ 1048 * 2 ^ 52) in E2
        by (rewrite <- Z.pow_add_r; done || lia).
      pose proof (pow2_gt0 52 ltac:(lia)). nia.
    - destruct (Z.lt_ge_cases 1152 L) as [C|C]; [|lia]. exfalso.
      assert (2 ^ 1153 <= 2 ^ L) by (apply pow2_le; lia).
      replace (2 ^ 1153) with (2 ^ 53 * 2 ^ 1100) in *
        by (rewrite <- Z.pow_add_r; done || lia).
      pose proof (pow2_gt0 1100 ltac:(lia)). nia. }
  set (k := 1152 - L).
  assert (Ek : 52 - exponent p q = k) by (unfold k, L; lia).
  assert (P : 0 < 2 ^ k) by (apply pow2_gt0; lia).
  assert (S : 2 ^ 1100 = 2 ^ k * 2 ^ (L - 52))
    by (rewrite <- Z.pow_add_r by lia; f_equal; lia).
  assert (S1 : 2 ^ L = 2 ^ 52 * 2 ^ (L - 52))
    by (rewrite <- Z.pow_add_r by lia; f_equal; lia).
  assert (S2 : 2 ^ (L + 1) = 2 ^ 53 * 2 ^ (L - 52))
    by (rewrite <- Z.pow_add_r by lia; f_equal; lia).
  assert (P' : 0 < 2 ^ (L - 52)) by (apply pow2_gt0; lia).
  assert (B : 2 ^ 52 * q <= p * 2 ^ k < 2 ^ 53 * q).
  { rewrite S, S1 in E1. rewrite S, S2 in E2. split; nia. }
  unfold round. destruct (Z.eqb_spec p 0) as [?|_]; [lia|]. rewrite Ek. unfold scale.
  destruct (Z.leb_spec 0 k); [|lia].
  set (n := p * 2 ^ k) in *.
  pose proof (Z.div_mod n q ltac:(lia)) as DM.
  pose proof (Z.mod_pos_bound n q Hq) as MB.
  exists k. eexists. split; [unfold k; lia|]. split; [reflexivity|]. split; [done|].
  destruct (Z.ltb_spec (2 * (n mod q)) q); [|destruct (Z.ltb_spec q (2 * (n mod q)));
    [|destruct (Z.even (n / q))]]; nia.
Qed.

(** An integer below 2^53 is held exactly. *)
Lemma of_Z_exact n :
  0 < n < 2 ^ 53 → ∃ k, 0 <= k ∧ of_Z n = mk (n * 2 ^ k) (2 ^ k).
Proof.
  intros [H0 H1]. unfold of_Z.
  destruct (round_spec n 1) as (k & m & Hk & -> & B & A); [lia..| |lia|].
  { pose proof (pow2_gt0 1048 ltac:(lia)). nia. }
  exists k. split; [lia|]. f_equal. lia.
Qed.

End FloatFacts.

(** ** The progress of the day *)

Module ProgressFacts.
Import Float FloatFacts.

Lemma round_zero q : round 0 q = mk 0 1.
Proof. reflexivity. Qed.

Lemma percentOf_zero t : percentOf 0 t = 0.
Proof.
  unfold percentOf, div, mul. unfold of_Z at 1. rewrite round_zero.
  cbn [num den]. reflexivity.
Qed.

(** The arithmetic of the two roundings and of [Math.round]: with
    [A = 2^k1] and [B = 2^k2] the scales of the quotient and of the
    product. *)
Lemma two_roundings d t m1 m2 A B r :
  0 < d <= t → t < 2 ^ 32 →
  2 ^ 52 * t <= d * A → 2 * Z.abs (m1 * t - d * A) <= t →
  2 ^ 52 * A <= 100 * m1 * B → 2 * Z.abs (m2 * A - 100 * m1 * B) <= A →
  0 < A → 0 < B →
  r * (2 * B) <= 2 * m2 + B < (r + 1) * (2 * B) →
  2 * Z.abs (r * t - 100 * d) <= t.
Proof.
  intros Hd Ht A1 E1 B1 E2 HA HB R.
  change (2 ^ 32) with 4294967296 in Ht.
  change (2 ^ 52) with 4503599627370496 in A1, B1.
  assert (DA : d * A <= t * A) by (apply Z.mul_le_mono_nonneg_r; lia).
  assert (A52 : 4503599627370496 <= A).
  { apply (Z.mul_le_mono_pos_l _ _ t); lia. }
  assert (M1 : m1 <= A).
  { destruct (Z.le_gt_cases m1 A) as [|C]; [done|]. exfalso.
    assert ((A + 1) * t <= m1 * t) by (apply Z.mul_le_mono_nonneg_r; lia). lia. }
  assert (M0 : 0 <= m1).
  { destruct (Z.le_gt_cases 0 m1) as [|C]; [done|]. exfalso.
    assert (m1 * t <= (-1) * t) by (apply Z.mul_le_mono_nonneg_r; lia).
    assert (0 <= d * A) by (apply Z.mul_nonneg_nonneg; lia). lia. }
  assert (MB : m1 * B <= A * B) by (apply Z.mul_le_mono_nonneg_r; lia).
  assert (B45 : 35184372088832 <= B).
  { assert (A * 4503599627370496 <= A * (100 * B)) by lia.
    apply Z.mul_le_mono_pos_l in H; lia. }
  set (e1 := m1 * t - d * A) in *.
  set (e2 := m2 * A - 100 * m1 * B) in *.
  set (rho := 2 * m2 + B - r * (2 * B)).
  assert (Hrho : 0 <= rho < 2 * B) by (unfold rho; lia).
  assert (I : 2 * A * B * (r * t - 100 * d)
              = 200 * e1 * B + 2 * e2 * t + A * B * t - A * rho * t)
    by (unfold e1, e2, rho; ring).
  clearbody e1 e2 rho.
  set (X := r * t - 100 * d) in *. clearbody X.
  assert (T1a : (2 * e1) * (100 * B) <= t * (100 * B))
    by (apply Z.mul_le_mono_nonneg_r; lia).
  assert (T1b : (- t) * (100 * B) <= (2 * e1) * (100 * B))
    by (apply Z.mul_le_mono_nonneg_r; lia).
  assert (T2a : (2 * e2) * t <= A * t) by (apply Z.mul_le_mono_nonneg_r; lia).
  assert (T2b : (- A) * t <= (2 * e2) * t) by (apply Z.mul_le_mono_nonneg_r; lia).
  assert (At : 0 < A * t) by (apply Z.mul_pos_pos; lia).
  assert (T3a : 0 <= rho * (A * t)) by (apply Z.mul_nonneg_nonneg; lia).
  assert (T3b : rho * (A * t) < (2 * B) * (A * t))
    by (apply Z.mul_lt_mono_pos_r; lia).
  assert (S1 : (200 * t) * B < A * B) by (apply Z.mul_lt_mono_pos_r; lia).
  assert (S2 : A * (2 * t) < A * B) by (apply Z.mul_lt_mono_pos_l; lia).
  assert (AB : 0 < A * B) by (apply Z.mul_pos_pos; lia).
  assert (U : A * B * (2 * X) < A * B * (t + 1)) by lia.
  assert (L : A * B * (- (t + 1)) < A * B * (2 * X)) by lia.
  apply Z.mul_lt_mono_pos_l in U, L; lia.
Qed.

(** The quotient [d / t] of two counts, rounded. *)
Lemma round_quotient d t :
  0 < d <= t → t < 2 ^ 32 →
  ∃ A m1, 0 < A ∧ round d t = mk m1 A
    ∧ 2 ^ 52 * t <= d * A ∧ 2 * Z.abs (m1 * t - d * A) <= t
    ∧ 2 ^ 52 <= m1 <= A ∧ A <= 2 ^ 33 * m1.
Proof.
  intros Hd Ht.
  assert (W : 2 ^ 32 <= 2 ^ 1048) by (apply pow2_le; lia).
  assert (Hlo : t <= d * 2 ^ 1048)
    by (revert W; generalize (2 ^ 1048); intros; nia).
  assert (Hhi : d < 2 ^ 53 * t)
    by (change (2 ^ 53) with 9007199254740992; nia).
  clear W.
  destruct (round_spec d t ltac:(lia) ltac:(lia) Hlo Hhi)
    as (k1 & m1 & Hk1 & E & B1 & A1).
  clear Hlo Hhi.
  assert (PA : 0 < 2 ^ k1) by (apply pow2_gt0; lia).
  exists (2 ^ k1), m1. split; [done|]. split; [done|].
  revert B1 A1 PA. generalize (2 ^ k1). intros A B1 A1 PA.
  change (2 ^ 52) with 4503599627370496 in *.
  change (2 ^ 53) with 9007199254740992 in *.
  change (2 ^ 32) with 4294967296 in *.
  change (2 ^ 33) with 8589934592.
  split; [lia|]. split; [done|]. split; [split|]; nia.
Qed.

(** The product by 100 of a quotient that is at most 1, rounded. *)
Lemma round_product m1 A :
  2 ^ 52 <= m1 <= A → A <= 2 ^ 33 * m1 →
  ∃ B m2, 0 < B ∧ round (100 * m1) A = mk m2 B
    ∧ 2 ^ 52 * A <= 100 * m1 * B ∧ 2 * Z.abs (m2 * A - 100 * m1 * B) <= A.
Proof.
  intros Hm HA.
  assert (W : 2 ^ 33 <= 2 ^ 1048) by (apply pow2_le; lia).
  assert (Hlo : A <= 100 * m1 * 2 ^ 1048).
  { revert W. generalize (2 ^ 1048). change (2 ^ 52) with 4503599627370496 in Hm.
    change (2 ^ 33) with 8589934592 in *. intros; nia. }
  assert (Hhi : 100 * m1 < 2 ^ 53 * A)
    by (change (2 ^ 53) with 9007199254740992;
        change (2 ^ 52) with 4503599627370496 in Hm; nia).
  clear W.
  destruct (round_spec (100 * m1) A ltac:(change (2 ^ 52) with 4503599627370496 in Hm; lia)
              ltac:(change (2 ^ 52) with 4503599627370496 in Hm; lia) Hlo Hhi)
    as (k2 & m2 & Hk2 & E & B2 & A2).
  clear Hlo Hhi.
  assert (PB : 0 < 2 ^ k2) by (apply pow2_gt0; lia).
  exists (2 ^ k2), m2. split; [done|]. split; [done|]. split; [|done].
  now destruct B2.
Qed.

(** The percentage is an integer nearest to [100 * d / t]. *)
Lemma percentOf_nearest d t :
  0 <= d <= t → 0 < t < 2 ^ 32 → nearest (percentOf d t) (100 * d) t.
Proof.
  intros Hd Ht. unfold nearest.
  destruct (Z.eq_dec d 0) as [->|Hd0].
  { rewrite percentOf_zero. lia. }
  assert (P32 : 2 ^ 32 < 2 ^ 53) by reflexivity.
  destruct (of_Z_exact d ltac:(lia)) as (a & Ha & Ed).
  destruct (of_Z_exact t ltac:(lia)) as (b & Hb & Et).
  destruct (of_Z_exact 100 ltac:(split; reflexivity)) as (c & Hc & Ec).
  pose proof (pow2_gt0 a Ha) as Pa. pose proof (pow2_gt0 b Hb) as Pb.
  pose proof (pow2_gt0 c Hc) as Pc.
  unfold percentOf. rewrite Ed, Et, Ec. unfold div. cbn [num den].
  replace (d * 2 ^ a * 2 ^ b) with (2 ^ a * 2 ^ b * d) by ring.
  replace (2 ^ a * (t * 2 ^ b)) with (2 ^ a * 2 ^ b * t) by ring.
  rewrite round_scale by (try apply Z.mul_pos_pos; lia).
  destruct (round_quotient d t ltac:(lia) ltac:(lia))
    as (A & m1 & PA & -> & B1 & A1 & M1 & M2).
  unfold mul. cbn [num den].
  replace (m1 * (100 * 2 ^ c)) with (2 ^ c * (100 * m1)) by ring.
  replace (A * 2 ^ c) with (2 ^ c * A) by ring.
  rewrite round_scale by lia.
  destruct (round_product m1 A M1 M2) as (B & m2 & PB & -> & B2 & A2).
  unfold Math_round. cbn [num den].
  set (r := (2 * m2 + B) / (2 * B)).
  pose proof (Z.div_mod (2 * m2 + B) (2 * B) ltac:(lia)) as DM.
  pose proof (Z.mod_pos_bound (2 * m2 + B) (2 * B) ltac:(lia)) as MB.
  fold r in DM.
  apply (two_roundings d t m1 m2 A B r ltac:(lia) ltac:(lia) B1 A1 B2 A2 PA PB).
  revert DM MB. generalize ((2 * m2 + B) mod (2 * B)). intros. lia.
Qed.

(** Two exact halves: 12.5 is reached and goes up, 14.5 is missed from
    below and goes down. *)
Example percentOf_halves : percentOf 1 8 = 13 ∧ percentOf 29 200 = 14.
Proof. vm_compute. done. Qed.


Lemma active_iff h : negb (truthy (archived h)) = true ↔ isActive h.
Proof.
  unfold isActive, truthy. destruct (archived h) as [[|]|]; cbn; split; done.
Qed.

Lemma activeHabits_filter s :
  activeHabits (Some s) = filter isActive (habits s).
Proof.
  rewrite EndToEnd.activeHabits_Some.
  induction (habits s) as [|h l IH]; [done|].
  rewrite !filter_cons, IH.
  destruct (decide (negb (truthy (archived h)) = true)) as [H|H],
    (decide (isActive h)) as [H'|H']; try done.
  - now apply active_iff in H.
  - now apply active_iff in H'.
Qed.

(** Counting the identifiers of the record that some active habit has is
    counting the active habits whose identifier is in the record, as long
    as no two active habits share an identifier. *)
Lemma done_count (active : list Habit) (rec : list string) :
  NoDup (id <$> active) →
  length (filter (λ i, existsb (λ h, String.eqb (id h) i) active = true)
            (JSSet.to_array (JSSet.of_array rec)))
  = length (filter (λ h, id h ∈ rec) active).
Proof.
  intros N. rewrite <- (length_fmap id (filter _ active)).
  apply Permutation_length, NoDup_Permutation.
  - apply NoDup_filter, SetFacts.NoDup_of_array.
  - apply (sublist_NoDup _ (id <$> active)); [done|].
    apply fmap_sublist, sublist_filter.
  - intros x. unfold JSSet.to_array.
    rewrite list_elem_of_filter, SetFacts.elem_of_of_array, list_elem_of_fmap,
      existsb_exists.
    split.
    + intros [(h & Hh & E) Hx]. apply String.eqb_eq in E. exists h.
      split; [done|]. apply list_elem_of_filter. split; [now rewrite E|].
      now apply list_elem_of_In.
    + intros (h & -> & Hh). apply list_elem_of_filter in Hh as [Hr Hh].
      split; [|done]. exists h. split; [now apply list_elem_of_In|].
      apply String.eqb_refl.
Qed.

End ProgressFacts.

(** C4  [todayProgress] reports as total the number of habits that are
    not archived, as done the number of those whose identifier is in the
    day record of the key, and as percentage [Math.round(done / total *
    100)], evaluated in binary64, which is an integer nearest to
    [100 * done / total] and lies between 0 and 100; with no active habit
    nothing is divided and the percentage is 0.  The identifiers of the
    active habits are taken to be distinct, as [uid()] makes them, and
    the number of habits to be below 2^32, the bound of an array. *)
Theorem todayProgress_spec (s : State) (asOf : string) :
  NoDup (id <$> filter isActive (habits s)) →
  Z.of_nat (length (habits s)) < 2 ^ 32 →
  total (todayProgress (Some s) asOf)
  = Z.of_nat (length (filter isActive (habits s)))
  ∧ done (todayProgress (Some s) asOf)
    = Z.of_nat (length (filter (λ h, id h ∈ dayRecord (days s) asOf)
                          (filter isActive (habits s))))
  ∧ pct (todayProgress (Some s) asOf)
    = (if total (todayProgress (Some s) asOf) =? 0 then 0
       else percentOf (done (todayProgress (Some s) asOf))
                      (total (todayProgress (Some s) asOf)))
  ∧ nearest (pct (todayProgress (Some s) asOf))
            (100 * done (todayProgress (Some s) asOf))
            (total (todayProgress (Some s) asOf))
  ∧ 0 <= pct (todayProgress (Some s) asOf) <= 100
  ∧ (total (todayProgress (Some s) asOf) = 0 → pct (todayProgress (Some s) asOf) = 0).
Proof.
  intros N Hlen.
  unfold todayProgress. cbn [total done pct].
  rewrite EndToEnd.completedToday_Some, ProgressFacts.activeHabits_filter.
  rewrite ProgressFacts.done_count by done.
  set (active := filter isActive (habits s)).
  set (rec := dayRecord (days s) asOf).
  set (t := Z.of_nat (length active)).
  set (d := Z.of_nat (length (filter (λ h, id h ∈ rec) active))).
  assert (Hd : 0 <= d <= t).
  { unfold d, t. pose proof (length_filter (λ h, id h ∈ rec) active). lia. }
  assert (Ht : t < 2 ^ 32).
  { unfold t, active. pose proof (length_filter isActive (habits s)). lia. }
  fold (percentOf d t).
  split; [done|]. split; [done|]. split; [done|].
  destruct (Z.eqb_spec t 0) as [E|E].
  - rewrite E in *. unfold nearest. split; [lia|]. split; [lia|done].
  - pose proof (ProgressFacts.percentOf_nearest d t Hd ltac:(lia)) as P.
    split; [done|]. split; [|lia].
    unfold nearest in P. revert P. generalize (percentOf d t). intros r P.
    change (2 ^ 32) with 4294967296 in Ht. split; nia.
Qed.

Lemma todayProgress_spec_witness :
  total (todayProgress (Some manyHabits) "2024-03-01")
  = Z.of_nat (length (filter isActive (habits manyHabits)))
  ∧ done (todayProgress (Some manyHabits) "2024-03-01")
    = Z.of_nat (length (filter (λ h, id h ∈ dayRecord (days manyHabits) "2024-03-01")
                          (filter isActive (habits manyHabits))))
  ∧ pct (todayProgress (Some manyHabits) "2024-03-01")
    = (if total (todayProgress (Some manyHabits) "2024-03-01") =? 0 then 0
       else percentOf (done (todayProgress (Some manyHabits) "2024-03-01"))
                      (total (todayProgress (Some manyHabits) "2024-03-01")))
  ∧ nearest (pct (todayProgress (Some manyHabits) "2024-03-01"))
            (100 * done (todayProgress (Some manyHabits) "2024-03-01"))
            (total (todayProgress (Some manyHabits) "2024-03-01"))
  ∧ 0 <= pct (todayProgress (Some manyHabits) "2024-03-01") <= 100
  ∧ (total (todayProgress (Some manyHabits) "2024-03-01") = 0 →
     pct (todayProgress (Some manyHabits) "2024-03-01") = 0).
Proof.
  apply (todayProgress_spec manyHabits "2024-03-01").
  - apply (bool_decide_unpack _). vm_compute. reflexivity.
  - vm_compute. reflexivity.
Defined.

(** With 29 habits done out of 200 the exact percentage is 14.5; the
    quotient 0.145 is not a binary fraction, and the product comes out
    just below the half: the component shows 14. *)
Example todayProgress_tie :
  todayProgress (Some manyHabits) "2024-03-01" = mkProgress 200 29 14.
Proof. vm_compute. reflexivity. Qed.

(** * Further properties of the component *)

(** ** Date keys *)

Module ShiftFacts.
Import JSDate Calendar JSDateFacts KeyFacts.

(** The day number of a date key and its range. *)
Lemma dateKey_ofDay k :
  isDateKey k = true →
  ∃ t, k = format (ofDay t) ∧ -354285 <= t < 2932897.
Proof.
  intros Hk.
  destruct (isDateKey_inv k Hk) as (y & m & d & _ & Hy & V & ->).
  destruct (dateKey_day y m d Hy V) as [E B].
  rewrite StreakFacts.DayFromYear_1000, StreakFacts.DayFromYear_10000 in B.
  exists (toDay (y, m, d)). now rewrite E.
Qed.

Lemma year_wide t : -683003 <= t < 2969422 → 100 <= YearFromTime t < 10100.
Proof.
  intros H. apply year_bounds. rewrite DayFromYear_100, DayFromYear_10100. lia.
Qed.

Lemma keyDate_format t :
  -683003 <= t < 2969422 → keyDate (format (ofDay t)) = Some (ofDay t).
Proof.
  intros Ht. apply year_wide in Ht.
  destruct (ofDay_valid t) as [V _]. revert V. unfold keyDate, valid, ofDay.
  intros [? ?]. now rewrite keyParts_format by lia.
Qed.

Lemma format_inj_wide t t' :
  -683003 <= t < 2969422 → -683003 <= t' < 2969422 →
  format (ofDay t) = format (ofDay t') → t = t'.
Proof.
  intros Ht Ht' E.
  assert (P : keyDate (format (ofDay t)) = keyDate (format (ofDay t')))
    by now rewrite E.
  rewrite !keyDate_format in P by done.
  destruct (ofDay_valid t) as [_ T], (ofDay_valid t') as [_ T'].
  rewrite <- T, <- T'. congruence.
Qed.

(** Within a century of a date key, shifting is adding to the day
    number, where the zone skips no day. *)
Lemma shift_dateKey z t n :
  keepsDays z →
  -354285 <= t < 2932897 → -36500 <= n <= 36500 →
  shiftLocalDateKey z (format (ofDay t)) n = format (ofDay (t + n))
  ∧ -683003 <= t + n < 2969422.
Proof.
  intros Kz Ht Hn. split; [|lia].
  apply shift_format; [done|apply year_wide|]; lia.
Qed.

Lemma missing_component z key n :
  (length (split "-" key) < 3)%nat →
  shiftLocalDateKey z key n = "NaN-NaN-NaN".
Proof.
  intros H. unfold shiftLocalDateKey, keyParts.
  assert (E : (Number <$> split "-" key) !! 2%nat = None).
  { apply lookup_ge_None. rewrite length_fmap. lia. }
  rewrite E. cbn [mjoin option_join].
  destruct (mjoin _) as [y|], (num_add _ _) as [m|]; reflexivity.
Qed.

End ShiftFacts.

(** X1  In a host time zone that skips no local calendar day, shifts of
    a date key add up: within a century each way, shifting by [a] and
    then by [b] is shifting by [a + b], and shifting by 0 changes
    nothing. *)
Theorem shift_add (z : JSDate.Zone) (k : string) (a b : Z) :
  JSDate.keepsDays z →
  isDateKey k = true → -36500 <= a <= 36500 → -36500 <= b <= 36500 →
  shiftLocalDateKey z (shiftLocalDateKey z k a) b = shiftLocalDateKey z k (a + b)
  ∧ shiftLocalDateKey z k 0 = k.
Proof.
  intros Kz Hk Ha Hb.
  destruct (ShiftFacts.dateKey_ofDay k Hk) as (t & -> & Ht).
  destruct (ShiftFacts.shift_dateKey z t a Kz Ht Ha) as [-> Ra].
  split.
  - rewrite !(KeyFacts.shift_format z) by (done || (try apply ShiftFacts.year_wide; lia)).
    do 2 f_equal. lia.
  - rewrite (KeyFacts.shift_format z) by (done || (try apply ShiftFacts.year_wide; lia)).
    do 2 f_equal. lia.
Qed.

Lemma shift_add_witness :
  shiftLocalDateKey JSDate.paris2024 (shiftLocalDateKey JSDate.paris2024 "2024-02-28" 400) (-35) =
    shiftLocalDateKey JSDate.paris2024 "2024-02-28" (400 + -35)
  ∧ shiftLocalDateKey JSDate.paris2024 "2024-02-28" 0 = "2024-02-28".
Proof.
  apply (shift_add JSDate.paris2024 "2024-02-28" 400 (-35));
    [apply JSDateFacts.paris2024_keepsDays|vm_compute; reflexivity|lia|lia].
Defined.

(** X2  In a host time zone that skips no local calendar day, within a
    century of a date key the shifted key reads back as a date of the
    calendar, the one it is the key of, and two different shifts give two
    different keys. *)
Theorem shift_names_a_day (z : JSDate.Zone) (k : string) (a b : Z) :
  JSDate.keepsDays z →
  isDateKey k = true → -36500 <= a <= 36500 → -36500 <= b <= 36500 →
  (∃ dt, keyDate (shiftLocalDateKey z k a) = Some dt ∧ Calendar.valid dt
         ∧ shiftLocalDateKey z k a = Calendar.format dt)
  ∧ (shiftLocalDateKey z k a = shiftLocalDateKey z k b → a = b).
Proof.
  intros Kz Hk Ha Hb.
  destruct (ShiftFacts.dateKey_ofDay k Hk) as (t & -> & Ht).
  destruct (ShiftFacts.shift_dateKey z t a Kz Ht Ha) as [-> Ra].
  destruct (ShiftFacts.shift_dateKey z t b Kz Ht Hb) as [-> Rb].
  split.
  - exists (Calendar.ofDay (t + a)). split; [now apply ShiftFacts.keyDate_format|].
    split; [apply JSDateFacts.ofDay_valid|done].
  - intros E%ShiftFacts.format_inj_wide; lia.
Qed.

Lemma shift_names_a_day_witness :
  (∃ dt, keyDate (shiftLocalDateKey JSDate.paris2024 "2023-12-31" 60) = Some dt
         ∧ Calendar.valid dt
         ∧ shiftLocalDateKey JSDate.paris2024 "2023-12-31" 60 = Calendar.format dt)
  ∧ (shiftLocalDateKey JSDate.paris2024 "2023-12-31" 60
     = shiftLocalDateKey JSDate.paris2024 "2023-12-31" 61 → 60 = 61).
Proof.
  apply (shift_names_a_day JSDate.paris2024 "2023-12-31" 60 61);
    [apply JSDateFacts.paris2024_keepsDays|vm_compute; reflexivity|lia|lia].
Defined.

(** X3  In every zone, a key with fewer than three components between
    dashes is shifted to the key of the invalid date, whatever the number
    of days, and every further shift stays there. *)
Theorem shift_malformed (z : JSDate.Zone) (key : string) (n n' : Z) :
  (length (split "-" key) < 3)%nat →
  shiftLocalDateKey z key n = "NaN-NaN-NaN"
  ∧ shiftLocalDateKey z (shiftLocalDateKey z key n) n' = "NaN-NaN-NaN".
Proof.
  intros H. rewrite (ShiftFacts.missing_component z key n H).
  split; reflexivity.
Qed.

Lemma shift_malformed_witness :
  shiftLocalDateKey JSDate.apia "2024-03" 1 = "NaN-NaN-NaN"
  ∧ shiftLocalDateKey JSDate.apia (shiftLocalDateKey JSDate.apia "2024-03" 1) (-1)
    = "NaN-NaN-NaN".
Proof. apply (shift_malformed JSDate.apia "2024-03" 1 (-1)). vm_compute. lia. Defined.

(** ** Streaks and the transitions *)

Module StreakMore.
Import JSDate Calendar JSDateFacts KeyFacts StreakFacts.

(** The count the loop starts from is added to what it counts. *)
Lemma loop_acc z fuel habitId (ds : gmap string (list string)) : ∀ streak cursor,
  getStreak_loop z fuel habitId ds streak cursor
  = (λ n, streak + n) <$> getStreak_loop z fuel habitId ds 0 cursor.
Proof.
  induction fuel as [|fuel IH]; intros streak cursor; [done|].
  cbn [getStreak_loop]. destruct (includes _ _).
  - rewrite (IH (streak + 1)), (IH (0 + 1)).
    destruct (getStreak_loop z fuel habitId ds 0 _); cbn; [f_equal; lia|done].
  - cbn. f_equal. lia.
Qed.

(** The loop reads the day records only through [includes]. *)
Lemma loop_ext z fuel habitId habitId' (ds ds' : gmap string (list string)) :
  (∀ key, includes habitId (ds !! key) = includes habitId' (ds' !! key)) →
  ∀ streak cursor,
    getStreak_loop z fuel habitId ds streak cursor
    = getStreak_loop z fuel habitId' ds' streak cursor.
Proof.
  intros E. induction fuel as [|fuel IH]; intros streak cursor; [done|].
  cbn [getStreak_loop]. rewrite E. now rewrite IH.
Qed.

Lemma includes_eq habitId habitId' (ds ds' : gmap string (list string)) key :
  (habitId ∈ dayRecord ds key ↔ habitId' ∈ dayRecord ds' key) →
  includes habitId (ds !! key) = includes habitId' (ds' !! key).
Proof.
  intros H. destruct (includes habitId' (ds' !! key)) eqn:E.
  - apply includes_true. apply H. now apply includes_true.
  - apply includes_false. intros C. apply H in C.
    now apply includes_false in E.
Qed.

(** The keys of the walk from a day are pairwise different as far as
    the walk is followed. *)
Lemma cursor_inj t0 i j :
  -354285 <= t0 < 2932897 → (i <= spanOf t0)%nat → (j <= spanOf t0)%nat →
  cursorAt t0 i = cursorAt t0 j → i = j.
Proof.
  unfold cursorAt, spanOf. intros Ht Hi Hj E.
  apply format_ofDay_inj in E; lia.
Qed.

End StreakMore.

(** X4  After [deleteHabit] the streak of the deleted habit is 0 from any
    key, and the streak of any other habit is what it was, from any key
    and with any fuel, in every zone. *)
Theorem streak_after_delete (z : JSDate.Zone) (s : State) (habitId other key : string)
    (fuel : nat) :
  getStreak z (S fuel) habitId (days (deleteHabit_update habitId s)) key = Some 0
  ∧ (other ≠ habitId →
     getStreak z fuel other (days (deleteHabit_update habitId s)) key
     = getStreak z fuel other (days s) key).
Proof.
  split.
  - unfold getStreak. cbn [getStreak_loop].
    replace (includes habitId (days (deleteHabit_update habitId s) !! key)) with false;
      [done|].
    symmetry. apply StreakFacts.includes_false.
    rewrite StateFacts.deleteHabit_record. tauto.
  - intros N. unfold getStreak. apply StreakMore.loop_ext. intros k.
    apply StreakMore.includes_eq. rewrite StateFacts.deleteHabit_record. tauto.
Qed.

(** X5  Marking today extends the streak of yesterday, in a host time
    zone that skips no local calendar day: when today and the keys of the
    records are date keys and today's record lacks the habit, the streak
    counted from today after the toggle is one more than the streak
    counted from yesterday before it. *)
Theorem toggle_extends_streak (z : JSDate.Zone) (s : State) (habitId today : string) :
  JSDate.keepsDays z →
  isDateKey today = true →
  (∀ key, is_Some (days s !! key) → isDateKey key = true) →
  habitId ∉ dayRecord (days s) today →
  ∃ (n : Z) (fuel0 : nat), ∀ fuel : nat, (fuel0 <= fuel)%nat →
    getStreak z fuel habitId (days s) (shiftLocalDateKey z today (-1)) = Some n
    ∧ getStreak z (S fuel) habitId (days (toggleToday_update today habitId s)) today
      = Some (n + 1).
Proof.
  intros Kz Hk Hds Habs.
  destruct (ShiftFacts.dateKey_ofDay today Hk) as (t0 & E0 & B).
  assert (C0 : today = cursorAt t0 0).
  { rewrite E0. unfold cursorAt. do 2 f_equal. lia. }
  assert (Sp : (1 <= spanOf t0)%nat) by (unfold spanOf; lia).
  assert (C1 : shiftLocalDateKey z today (-1) = cursorAt t0 1).
  { rewrite C0. apply StreakFacts.cursor_step; [done|done|lia]. }
  destruct (StreakFacts.loop_stops z Kz (days s) habitId t0 B Hds (spanOf t0) 1 0)
    as (n & Hn & _ & P & A); [lia..|].
  exists (Z.of_nat (n - 1)), (spanOf t0). intros fuel Hf.
  destruct (StreakFacts.loop_stops z Kz (days s) habitId t0 B Hds fuel 1 0)
    as (n' & Hn' & R' & P' & A'); [lia..|].
  assert (En : n' = n).
  { destruct (Nat.lt_trichotomy n n') as [L|[->|L]]; [|done|].
    - destruct A. apply P'. lia.
    - destruct A'. apply P. lia. }
  subst n'. split.
  - unfold getStreak. rewrite C1, R'. f_equal.
  - unfold getStreak. cbn [getStreak_loop].
    replace (includes habitId (days (toggleToday_update today habitId s) !! today))
      with true
      by (symmetry; apply StreakFacts.includes_true;
          rewrite StateFacts.toggle_record, decide_True by done; done).
    rewrite C1, StreakMore.loop_acc.
    assert (L : ∀ g (i : nat) acc, (1 <= i <= spanOf t0)%nat →
      getStreak_loop z g habitId (days (toggleToday_update today habitId s)) acc
        (cursorAt t0 i)
      = getStreak_loop z g habitId (days s) acc (cursorAt t0 i)).
    { induction g as [|g IH]; intros i acc Hi; [done|].
      cbn [getStreak_loop].
      assert (Ne : cursorAt t0 i ≠ today).
      { rewrite C0. intros C%StreakMore.cursor_inj; lia. }
      rewrite (StreakMore.includes_eq habitId habitId
                 (days (toggleToday_update today habitId s)) (days s) (cursorAt t0 i))
        by (rewrite StateFacts.toggle_record, decide_False by tauto; done).
      destruct (includes habitId (days s !! cursorAt t0 i)) eqn:I; [|done].
      assert (i ≠ spanOf t0).
      { intros ->. apply StreakFacts.includes_true in I.
        revert I. now apply StreakFacts.cursor_span_absent. }
      rewrite (StreakFacts.cursor_step z Kz t0 B) by lia. apply IH. lia. }
    rewrite L by lia. rewrite R'. cbn. f_equal. lia.
Qed.

Lemma toggle_extends_streak_witness :
  ∃ (n : Z) (fuel0 : nat), ∀ fuel : nat, (fuel0 <= fuel)%nat →
    getStreak JSDate.paris2024 fuel "a" (days sampleState)
      (shiftLocalDateKey JSDate.paris2024 "2024-03-02" (-1)) = Some n
    ∧ getStreak JSDate.paris2024 (S fuel) "a"
        (days (toggleToday_update "2024-03-02" "a" sampleState)) "2024-03-02"
      = Some (n + 1).
Proof.
  apply (toggle_extends_streak JSDate.paris2024 sampleState "a" "2024-03-02").
  - apply JSDateFacts.paris2024_keepsDays.
  - vm_compute. reflexivity.
  - intros key [arr H].
    assert (F : map_Forall (λ k _, isDateKey k = true) (days sampleState)).
    { unfold sampleState. cbn [days].
      repeat apply map_Forall_insert_2; try (vm_compute; reflexivity).
      apply map_Forall_empty. }
    exact (F key arr H).
  - unfold dayRecord, sampleState. cbn [days].
    rewrite lookup_insert_ne, lookup_singleton_ne by done. apply not_elem_of_nil.
Defined.

(** ** The hash and the pick *)

Module HashFacts.

Lemma ToInt32_range z : - 2 ^ 31 <= ToInt32 z < 2 ^ 31.
Proof.
  unfold ToInt32. pose proof (Z.mod_pos_bound z (2 ^ 32) eq_refl) as B.
  change (2 ^ 32) with 4294967296 in *. change (2 ^ 31) with 2147483648.
  destruct (Z.ltb_spec (z mod 4294967296) 2147483648); lia.
Qed.

Lemma ToInt32_mod z : ToInt32 z mod 2 ^ 32 = z mod 2 ^ 32.
Proof.
  unfold ToInt32. destruct (Z.ltb_spec (z mod 2 ^ 32) (2 ^ 31)).
  - apply Z.mod_mod. done.
  - rewrite <- (Z.mod_add _ 1) by done.
    replace (z mod 2 ^ 32 - 2 ^ 32 + 1 * 2 ^ 32) with (z mod 2 ^ 32) by lia.
    apply Z.mod_mod. done.
Qed.

(** Two numbers with the same remainder have the same [ToInt32]. *)
Lemma ToInt32_congr a b : a mod 2 ^ 32 = b mod 2 ^ 32 → ToInt32 a = ToInt32 b.
Proof. unfold ToInt32. now intros ->. Qed.

(** An integer below 2^53 in size is a number. *)
Lemma numberOf_exact n : Z.abs n < 2 ^ 53 → numberOf n = n.
Proof.
  intros H. unfold numberOf. destruct (Z.eq_dec n 0) as [->|N]; [reflexivity|].
  destruct (FloatFacts.of_Z_exact (Z.abs n)) as (k & Hk & ->); [lia|].
  cbn [Float.num Float.den].
  rewrite Z.div_mul by (pose proof (FloatFacts.pow2_gt0 k Hk); lia).
  lia.
Qed.

Lemma charCode_range c : 0 <= charCode c < 2 ^ 8.
Proof.
  unfold charCode. pose proof (N_ascii_bounded c). change (2 ^ 8) with 256. lia.
Qed.

(** While the number kept is below 2^53 - 2^32 in size, a turn of the
    loop rounds nothing. *)
Lemma hashStep_exact h c :
  Z.abs h < 2 ^ 53 - 2 ^ 32 →
  hashStep h c = ToInt32 (Z.shiftl (ToInt32 h) 5) - h + charCode c.
Proof.
  intros H. unfold hashStep.
  pose proof (ToInt32_range (Z.shiftl (ToInt32 h) 5)) as R.
  pose proof (charCode_range c) as C. revert R C H.
  generalize (ToInt32 (Z.shiftl (ToInt32 h) 5)) (charCode c). intros a b R C H.
  change (2 ^ 31) with 2147483648 in R. change (2 ^ 8) with 256 in C.
  change (2 ^ 53) with 9007199254740992 in H. change (2 ^ 32) with 4294967296 in H.
  rewrite (numberOf_exact (a - h)) by (change (2 ^ 53) with 9007199254740992; lia).
  apply numberOf_exact. change (2 ^ 53) with 9007199254740992. lia.
Qed.

Lemma hashStep_bound h c :
  Z.abs h < 2 ^ 53 - 2 ^ 32 →
  Z.abs (hashStep h c) <= Z.abs h + (2 ^ 31 + 2 ^ 8).
Proof.
  intros H. rewrite hashStep_exact by done.
  pose proof (ToInt32_range (Z.shiftl (ToInt32 h) 5)).
  pose proof (charCode_range c).
  change (2 ^ 31) with 2147483648 in *. change (2 ^ 8) with 256 in *. lia.
Qed.

(** One turn of the loop multiplies by 31 and adds the code unit, up to
    a multiple of 2^32. *)
Lemma hashStep_mod h h' c :
  Z.abs h < 2 ^ 53 - 2 ^ 32 →
  h mod 2 ^ 32 = h' mod 2 ^ 32 →
  hashStep h c mod 2 ^ 32 = (31 * h' + charCode c) mod 2 ^ 32.
Proof.
  intros B E. rewrite hashStep_exact by done. rewrite Z.shiftl_mul_pow2 by done.
  rewrite <- Z.add_sub_swap, <- Z.add_sub_assoc.
  rewrite Z.add_mod, ToInt32_mod by done.
  rewrite Z.mul_mod, ToInt32_mod, <- Z.mul_mod, <- Z.add_mod by done.
  replace (31 * h' + charCode c) with (h' * 2 ^ 5 + (charCode c - h')) by lia.
  rewrite (Z.add_mod (h * 2 ^ 5)), (Z.add_mod (h' * 2 ^ 5)) by done.
  rewrite (Z.mul_mod h), (Z.mul_mod h'), (Zminus_mod _ h), (Zminus_mod _ h') by done.
  now rewrite E.
Qed.

(** The room that a string needs below 2^53 - 2^32: each turn adds less
    than 2^31 + 2^8 to the size of the number kept. *)
Lemma room_step c s h :
  Z.abs h + Z.of_nat (String.length (String c s)) * (2 ^ 31 + 2 ^ 8) < 2 ^ 53 - 2 ^ 32 →
  Z.abs h < 2 ^ 53 - 2 ^ 32
  ∧ Z.abs (hashStep h c) + Z.of_nat (String.length s) * (2 ^ 31 + 2 ^ 8)
    < 2 ^ 53 - 2 ^ 32.
Proof.
  cbn [String.length]. intros R.
  assert (B : Z.abs h < 2 ^ 53 - 2 ^ 32).
  { change (2 ^ 31) with 2147483648 in *. change (2 ^ 8) with 256 in *. lia. }
  split; [exact B|]. pose proof (hashStep_bound h c B) as S.
  change (2 ^ 31) with 2147483648 in *. change (2 ^ 8) with 256 in *. lia.
Qed.

Lemma hashLoop_mod s : ∀ h h',
  Z.abs h + Z.of_nat (String.length s) * (2 ^ 31 + 2 ^ 8) < 2 ^ 53 - 2 ^ 32 →
  h mod 2 ^ 32 = h' mod 2 ^ 32 →
  hashLoop s h mod 2 ^ 32 = hornerHash s h' mod 2 ^ 32.
Proof.
  induction s as [|c s IH]; intros h h' R E; [done|].
  apply room_step in R as [B R].
  cbn [hashLoop hornerHash]. apply IH; [done|]. now apply hashStep_mod.
Qed.

Lemma hashLoop_app s s' h : hashLoop (s +:+ s') h = hashLoop s' (hashLoop s h).
Proof.
  revert h. induction s as [|c s IH]; intros h; [done|].
  change (String c s +:+ s') with (String c (s +:+ s')). cbn [hashLoop]. apply IH.
Qed.

(** The number kept between the turns grows by less than 2^31 + 2^8 a
    turn. *)
Lemma hashLoop_bound s : ∀ h,
  Z.abs h + Z.of_nat (String.length s) * (2 ^ 31 + 2 ^ 8) < 2 ^ 53 - 2 ^ 32 →
  Z.abs (hashLoop s h) <= Z.abs h + Z.of_nat (String.length s) * (2 ^ 31 + 2 ^ 8).
Proof.
  induction s as [|c s IH]; intros h R; [cbn; lia|].
  apply room_step in R as [B R].
  cbn [hashLoop String.length]. specialize (IH (hashStep h c) R).
  pose proof (hashStep_bound h c B) as S.
  change (2 ^ 31) with 2147483648 in *. change (2 ^ 8) with 256 in *. lia.
Qed.

Lemma room_short s :
  Z.of_nat (String.length s) <= 2000000 →
  Z.abs 0 + Z.of_nat (String.length s) * (2 ^ 31 + 2 ^ 8) < 2 ^ 53 - 2 ^ 32.
Proof.
  change (2 ^ 31) with 2147483648. change (2 ^ 8) with 256.
  change (2 ^ 53) with 9007199254740992. change (2 ^ 32) with 4294967296. lia.
Qed.

End HashFacts.

(** X6  Up to two million characters, [stableHash] is the hash of
    Horner's rule with the multiplier 31, brought into the range of
    32-bit integers: it lies from -2^31 to 2^31 - 1, and appending a
    character [c] to a string of hash [h] gives the hash
    [ToInt32(31 * h + c)]. *)
Theorem stableHash_horner (s : string) (c : ascii) :
  Z.of_nat (String.length s) < 2000000 →
  stableHash s = ToInt32 (hornerHash s 0)
  ∧ - 2 ^ 31 <= stableHash s < 2 ^ 31
  ∧ stableHash (s +:+ String c EmptyString)
    = ToInt32 (31 * stableHash s + charCode c).
Proof.
  intros L.
  pose proof (HashFacts.room_short s ltac:(lia)) as R.
  split; [|split].
  - unfold stableHash. apply HashFacts.ToInt32_congr. now apply HashFacts.hashLoop_mod.
  - apply HashFacts.ToInt32_range.
  - unfold stableHash. rewrite HashFacts.hashLoop_app. cbn [hashLoop].
    apply HashFacts.ToInt32_congr. apply HashFacts.hashStep_mod.
    + pose proof (HashFacts.hashLoop_bound s 0 R) as B. revert B R.
      change (2 ^ 31) with 2147483648. change (2 ^ 8) with 256.
      change (2 ^ 53) with 9007199254740992. change (2 ^ 32) with 4294967296. lia.
    + symmetry. apply HashFacts.ToInt32_mod.
Qed.

Lemma stableHash_horner_witness :
  stableHash "user-1::2024-01-01" = ToInt32 (hornerHash "user-1::2024-01-01" 0)
  ∧ - 2 ^ 31 <= stableHash "user-1::2024-01-01" < 2 ^ 31
  ∧ stableHash ("user-1::2024-01-01" +:+ String "x" EmptyString)
    = ToInt32 (31 * stableHash "user-1::2024-01-01" + charCode "x").
Proof. apply (stableHash_horner "user-1::2024-01-01" "x"). vm_compute. reflexivity. Defined.

(** X7  Below two million characters the number that the loop of
    [stableHash] keeps between its turns stays under 2^53 in size, the
    range in which the additions and subtractions of numbers are exact. *)
Theorem stableHash_exact (s : string) :
  Z.of_nat (String.length s) <= 2000000 →
  Z.abs (hashLoop s 0) < 2 ^ 53.
Proof.
  intros H. pose proof (HashFacts.hashLoop_bound s 0 (HashFacts.room_short s H)) as B.
  change (2 ^ 31) with 2147483648 in B. change (2 ^ 8) with 256 in B.
  change (2 ^ 53) with 9007199254740992. lia.
Qed.

Lemma stableHash_exact_witness : Z.abs (hashLoop "user-1::2024-01-01" 0) < 2 ^ 53.
Proof. apply (stableHash_exact "user-1::2024-01-01"). vm_compute. discriminate. Defined.

(** X8  [pick] returns nothing from an empty list and an element of the
    list otherwise, for every seed, negative ones included; a seed and
    its opposite pick the same element. *)
Theorem pick_member {T} (arr : list T) (seed : Z) :
  (arr = [] → pick arr seed = None)
  ∧ (arr ≠ [] → ∃ x, pick arr seed = Some x ∧ x ∈ arr)
  ∧ pick arr (- seed) = pick arr seed.
Proof.
  split; [|split].
  - now intros ->.
  - intros N. unfold pick.
    assert (L : 0 < Z.of_nat (length arr)) by (destruct arr; [done|cbn; lia]).
    destruct (Z.eqb_spec (Z.of_nat (length arr)) 0); [lia|].
    pose proof (Z.mod_pos_bound (Z.abs seed) _ L) as B.
    destruct (lookup_lt_is_Some_2 arr (Z.to_nat (Z.abs seed mod Z.of_nat (length arr))))
      as [x Hx]; [lia|].
    exists x. split; [done|]. now apply list_elem_of_lookup_2 in Hx.
  - unfold pick. now rewrite Z.abs_opp.
Qed.

(** X9  [getMessageForUser] always returns one of the three messages of
    the list that the colour scheme of the host selects (the light one
    when there is no window), and two identifiers of the same length get
    the same message. *)
Theorem getMessageForUser_member (host : Env) (userId userId' : string) :
  (∃ m, getMessageForUser host userId = Some m
        ∧ m ∈ (if hasWindow host && prefersDark host
               then DARK_MESSAGES else LIGHT_MESSAGES))
  ∧ (String.length userId = String.length userId' →
     getMessageForUser host userId = getMessageForUser host userId').
Proof.
  split.
  - unfold getMessageForUser.
    set (source := if hasWindow host && prefersDark host
                   then DARK_MESSAGES else LIGHT_MESSAGES).
    assert (L : length source = 3%nat) by (unfold source; now destruct (_ && _)).
    rewrite L.
    destruct (lookup_lt_is_Some_2 source (String.length userId mod 3)%nat) as [m Hm].
    { rewrite L. apply Nat.mod_upper_bound. done. }
    exists m. split; [done|]. now apply list_elem_of_lookup_2 in Hm.
  - intros E. unfold getMessageForUser. now rewrite E.
Qed.

(** ** Progress, the week strip and its cells *)

Module StripFacts.
Import JSDate Calendar JSDateFacts KeyFacts.

Lemma state_equiv_refl s : state_equiv s s.
Proof. repeat split; done. Qed.

Lemma state_equiv_sym s1 s2 : state_equiv s1 s2 → state_equiv s2 s1.
Proof.
  intros (? & ? & ? & E). repeat split; try done; intros; now apply E.
Qed.

Lemma state_equiv_trans s1 s2 s3 :
  state_equiv s1 s2 → state_equiv s2 s3 → state_equiv s1 s3.
Proof.
  intros (? & ? & ? & E) (? & ? & ? & E').
  split; [congruence|]. split; [congruence|]. split; [congruence|].
  intros key x. now rewrite (E key x).
Qed.

(** The identifiers counted as done are among those of the active
    habits, each once. *)
Lemma done_le (active : list Habit) (rec : list string) :
  (length (filter (λ i, existsb (λ h, String.eqb (id h) i) active = true)
             (JSSet.to_array (JSSet.of_array rec)))
   <= length active)%nat.
Proof.
  rewrite <- (length_fmap id active).
  apply submseteq_length, NoDup_submseteq.
  - apply NoDup_filter, SetFacts.NoDup_of_array.
  - intros x [(h & Hh & E)%existsb_exists _]%list_elem_of_filter.
    apply String.eqb_eq in E. apply list_elem_of_fmap. exists h.
    split; [done|]. now apply list_elem_of_In.
Qed.

(** Adding one identifier to a record adds one to the count of the habits
    found in it, when some habit has that identifier and no two habits
    share one. *)
Lemma count_flip (l : list Habit) (rec rec' : list string) (hid : string) :
  NoDup (id <$> l) → hid ∉ rec → (∀ x, x ∈ rec' ↔ x = hid ∨ x ∈ rec) →
  length (filter (λ h, id h ∈ rec') l)
  = (length (filter (λ h, id h ∈ rec) l)
     + (if bool_decide (hid ∈ id <$> l) then 1 else 0))%nat.
Proof.
  intros N Hn E. induction l as [|h l IH]; [done|].
  rewrite fmap_cons in N. apply NoDup_cons in N as [Nh N].
  specialize (IH N). rewrite !filter_cons, fmap_cons.
  destruct (decide (id h = hid)) as [Eh|Nh'].
  - rewrite decide_True by (apply E; now left).
    rewrite decide_False by (now rewrite Eh).
    rewrite bool_decide_eq_true_2 by (rewrite Eh; apply elem_of_cons; now left).
    rewrite bool_decide_eq_false_2 in IH by (now rewrite <- Eh).
    cbn [length]. lia.
  - assert (B : bool_decide (hid ∈ id h :: (id <$> l)) = bool_decide (hid ∈ id <$> l)).
    { apply bool_decide_ext. rewrite elem_of_cons. split; [|tauto].
      intros [C|C]; [now destruct Nh'|done]. }
    rewrite B.
    destruct (decide (id h ∈ rec)) as [I|I].
    + rewrite decide_True by (apply E; now right). cbn [length]. lia.
    + rewrite decide_False by (intros [C|C]%E; done). done.
Qed.

Lemma weeklyKeys_eq z today :
  weeklyKeys z today
  = (λ n, shiftLocalDateKey z today n) <$> [-6; -5; -4; -3; -2; -1; 0].
Proof. reflexivity. Qed.

Lemma weeklyKeys_days z t :
  keepsDays z →
  -354285 <= t < 2932897 →
  weeklyKeys z (format (ofDay t))
  = (λ n, format (ofDay (t + n))) <$> [-6; -5; -4; -3; -2; -1; 0].
Proof.
  intros Kz Ht. rewrite weeklyKeys_eq. cbn [fmap list_fmap].
  rewrite !(shift_format z) by (done || (try apply ShiftFacts.year_wide; lia)). done.
Qed.

Lemma lengthOr0_record (ds : gmap string (list string)) key :
  lengthOr0 (ds !! key) = Z.of_nat (length (dayRecord ds key)).
Proof. unfold lengthOr0, dayRecord. now destruct (ds !! key). Qed.

Lemma filter_none {A} (P : A → Prop) `{∀ x, Decision (P x)} (l : list A) :
  (∀ x, x ∈ l → ¬ P x) → filter P l = [].
Proof.
  induction l as [|x l IH]; intros Hl; [done|].
  rewrite filter_cons_False by (apply Hl; left).
  apply IH. intros y Hy. apply Hl. now right.
Qed.

Lemma deleteHabit_dayRecord habitId s key :
  dayRecord (days (deleteHabit_update habitId s)) key
  = filter (λ hid, hid ≠ habitId) (dayRecord (days s) key).
Proof.
  unfold dayRecord. rewrite StateFacts.deleteHabit_lookup.
  now destruct (days s !! key).
Qed.

End StripFacts.

(** X10  Whatever the state and the key, [todayProgress] reports a number
    of done habits from 0 to the total, duplicate identifiers of habits or
    in the record notwithstanding; so the done count never passes the
    number of active habits. *)
Theorem done_within_total (st : option State) (key : string) :
  0 <= done (todayProgress st key) <= total (todayProgress st key).
Proof.
  unfold todayProgress. cbn [done total]. unfold completedToday.
  pose proof (StripFacts.done_le (activeHabits st)
                (default [] (st ≫= λ s, days s !! key))). lia.
Qed.

(** X11  Toggling for a key the identifier of an active habit moves the
    done count of that key by one, up when the record lacked it and down
    when it held it, and leaves the total, as long as no two active
    habits share an identifier. *)
Theorem toggle_moves_done (s : State) (h : Habit) (key : string) :
  NoDup (id <$> filter isActive (habits s)) →
  h ∈ filter isActive (habits s) →
  total (todayProgress (Some (toggleToday_update key (id h) s)) key)
  = total (todayProgress (Some s) key)
  ∧ done (todayProgress (Some (toggleToday_update key (id h) s)) key)
    = if bool_decide (id h ∈ dayRecord (days s) key)
      then done (todayProgress (Some s) key) - 1
      else done (todayProgress (Some s) key) + 1.
Proof.
  intros N Hh. unfold todayProgress. cbn [total done].
  rewrite !EndToEnd.completedToday_Some, !ProgressFacts.activeHabits_filter.
  cbn [habits toggleToday_update set_days].
  split; [done|].
  rewrite !ProgressFacts.done_count by done.
  set (active := filter isActive (habits s)) in *.
  set (rec := dayRecord (days s) key).
  set (rec' := dayRecord _ key).
  assert (T : ∀ x, x ∈ rec' ↔ if decide (x = id h) then x ∉ rec else x ∈ rec).
  { intros x. unfold rec'.
    change (<[key:=_]> (days s)) with (days (toggleToday_update key (id h) s)).
    rewrite StateFacts.toggle_record.
    destruct (decide (x = id h)) as [->|Nx].
    - now rewrite decide_True by done.
    - now rewrite decide_False by tauto. }
  assert (I : bool_decide (id h ∈ id <$> active) = true).
  { apply bool_decide_eq_true. apply list_elem_of_fmap. now exists h. }
  destruct (bool_decide (id h ∈ rec)) eqn:B.
  - apply bool_decide_eq_true in B.
    rewrite (StripFacts.count_flip active rec' rec (id h) N).
    + rewrite I. lia.
    + rewrite T, decide_True by done. tauto.
    + intros x. rewrite T. destruct (decide (x = id h)) as [->|]; tauto.
  - apply bool_decide_eq_false in B.
    rewrite (StripFacts.count_flip active rec rec' (id h) N B).
    + rewrite I. lia.
    + intros x. rewrite T. destruct (decide (x = id h)) as [->|]; tauto.
Qed.

Lemma toggle_moves_done_witness :
  total (todayProgress (Some (toggleToday_update "2024-03-01"
           (id (mkHabit "a" "Read" "#ef4444" "t" None)) sampleState)) "2024-03-01")
  = total (todayProgress (Some sampleState) "2024-03-01")
  ∧ done (todayProgress (Some (toggleToday_update "2024-03-01"
            (id (mkHabit "a" "Read" "#ef4444" "t" None)) sampleState)) "2024-03-01")
    = if bool_decide (id (mkHabit "a" "Read" "#ef4444" "t" None)
                        ∈ dayRecord (days sampleState) "2024-03-01")
      then done (todayProgress (Some sampleState) "2024-03-01") - 1
      else done (todayProgress (Some sampleState) "2024-03-01") + 1.
Proof.
  apply (toggle_moves_done sampleState (mkHabit "a" "Read" "#ef4444" "t" None)
           "2024-03-01").
  - apply (bool_decide_unpack _). vm_compute. reflexivity.
  - change (filter isActive (habits sampleState))
      with [mkHabit "a" "Read" "#ef4444" "t" None].
    now apply list_elem_of_singleton.
Defined.

(** X12  In a host time zone that skips no local calendar day, from a
    date key the week strip has seven keys, oldest first and today last,
    each the day after the one before it, and no key twice. *)
Theorem weeklyKeys_week (z : JSDate.Zone) (today : string) :
  JSDate.keepsDays z →
  isDateKey today = true →
  length (weeklyKeys z today) = 7%nat
  ∧ last (weeklyKeys z today) = Some today
  ∧ NoDup (weeklyKeys z today)
  ∧ (∀ (i : nat) k k', weeklyKeys z today !! i = Some k →
       weeklyKeys z today !! S i = Some k' → k' = shiftLocalDateKey z k 1).
Proof.
  intros Kz Hk.
  destruct (ShiftFacts.dateKey_ofDay today Hk) as (t & -> & Ht).
  rewrite StripFacts.weeklyKeys_days by done.
  split; [done|]. split; [|split].
  - cbn [fmap list_fmap]. rewrite Z.add_0_r. reflexivity.
  - apply NoDup_fmap_2_strong.
    + intros a b Ha Hb E.
      assert (-6 <= a <= 0) by (repeat (apply elem_of_cons in Ha as [->|Ha]; [lia|]);
                                 now apply elem_of_nil in Ha).
      assert (-6 <= b <= 0) by (repeat (apply elem_of_cons in Hb as [->|Hb]; [lia|]);
                                 now apply elem_of_nil in Hb).
      apply ShiftFacts.format_inj_wide in E; lia.
    + apply (bool_decide_unpack _). vm_compute. reflexivity.
  - intros i k k' Hi Hi'.
    cbn [fmap list_fmap] in Hi, Hi'.
    do 7 (destruct i as [|i]; [cbn [lookup list_lookup] in Hi, Hi';
        try discriminate; apply (inj Some) in Hi, Hi'; subst k k';
        rewrite (KeyFacts.shift_format z)
          by (done || (try apply ShiftFacts.year_wide; lia));
        do 2 f_equal; lia|]).
    discriminate.
Qed.

Lemma weeklyKeys_week_witness :
  length (weeklyKeys JSDate.paris2024 "2024-04-02") = 7%nat
  ∧ last (weeklyKeys JSDate.paris2024 "2024-04-02") = Some "2024-04-02"
  ∧ NoDup (weeklyKeys JSDate.paris2024 "2024-04-02")
  ∧ (∀ (i : nat) k k', weeklyKeys JSDate.paris2024 "2024-04-02" !! i = Some k →
       weeklyKeys JSDate.paris2024 "2024-04-02" !! S i = Some k' →
       k' = shiftLocalDateKey JSDate.paris2024 k 1).
Proof.
  apply (weeklyKeys_week JSDate.paris2024 "2024-04-02");
    [apply JSDateFacts.paris2024_keepsDays|vm_compute; reflexivity].
Defined.

(** X13  [deleteHabit] never raises a count of the week strip, in any
    zone: each of the seven counts stays or drops, it stays when the
    day's record did not hold the identifier and drops to 0 when the
    record held nothing else. *)
Theorem weeklyCounts_after_delete (z : JSDate.Zone) (s : State) (habitId today : string)
    (i : nat) (k : string) :
  weeklyKeys z today !! i = Some k →
  ∃ c c', weeklyCounts z (Some s) today !! i = Some c
    ∧ weeklyCounts z (Some (deleteHabit_update habitId s)) today !! i = Some c'
    ∧ 0 <= c' <= c
    ∧ (habitId ∉ dayRecord (days s) k → c' = c)
    ∧ ((∀ x, x ∈ dayRecord (days s) k → x = habitId) → c' = 0).
Proof.
  intros Hi. unfold weeklyCounts. rewrite !list_lookup_fmap, Hi.
  cbn [fmap option_fmap option_map].
  eexists _, _. split; [reflexivity|]. split; [reflexivity|].
  rewrite !StripFacts.lengthOr0_record, StripFacts.deleteHabit_dayRecord.
  split; [|split].
  - pose proof (length_filter (λ hid, hid ≠ habitId) (dayRecord (days s) k)). lia.
  - intros N. rewrite SetFacts.filter_all; [done|]. intros x Hx ->. done.
  - intros A. rewrite StripFacts.filter_none; [done|]. intros x Hx C. now apply C, A.
Qed.

Lemma weeklyCounts_after_delete_witness :
  ∃ c c', weeklyCounts JSDate.utc (Some sampleState) "2024-03-03" !! 3%nat = Some c
    ∧ weeklyCounts JSDate.utc (Some (deleteHabit_update "a" sampleState)) "2024-03-03"
        !! 3%nat
      = Some c'
    ∧ 0 <= c' <= c
    ∧ ("a" ∉ dayRecord (days sampleState) "2024-02-29" → c' = c)
    ∧ ((∀ x, x ∈ dayRecord (days sampleState) "2024-02-29" → x = "a") → c' = 0).
Proof.
  apply (weeklyCounts_after_delete JSDate.utc sampleState "a" "2024-03-03" 3 "2024-02-29").
  vm_compute. reflexivity.
Defined.

Module HeatFacts.
Import Float FloatFacts.

Lemma leb_le x y : Float_leb x y = true ↔ Float_le x y.
Proof. unfold Float_leb, Float_le. apply Z.leb_le. Qed.

Lemma leb_gt x y : Float_leb x y = false → Float_le y x.
Proof. unfold Float_leb, Float_le. intros H%Z.leb_gt. lia. Qed.

Lemma le_refl x : Float_le x x.
Proof. unfold Float_le. lia. Qed.

(** [clamp] returns a number between the bounds when the bounds are in
    order. *)
Lemma clamp_range n lo hi :
  Float_le lo hi → Float_le lo (clamp n lo hi) ∧ Float_le (clamp n lo hi) hi.
Proof.
  intros H. unfold clamp, Math_max, Math_min.
  destruct (Float_leb hi n) eqn:A.
  - destruct (Float_leb lo hi) eqn:B.
    + split; [done|apply le_refl].
    + split; [apply le_refl|done].
  - destruct (Float_leb lo n) eqn:B.
    + split; [now apply leb_le|now apply leb_gt].
    + split; [apply le_refl|done].
Qed.

Lemma of_Z_0 : of_Z 0 = mk 0 1.
Proof. reflexivity. Qed.

Lemma of_Z_1 : of_Z 1 = mk (2 ^ 52) (2 ^ 52).
Proof. vm_compute. reflexivity. Qed.

(** A quotient of two counts that is at least 1 is rounded to a number
    that is at least 1. *)
Lemma div_ge_1 c a :
  0 < a <= c → c < 2 ^ 32 →
  Float_le (of_Z 1) (div (of_Z c) (of_Z a)).
Proof.
  intros Ha Hc.
  assert (P32 : 2 ^ 32 < 2 ^ 53) by reflexivity.
  destruct (of_Z_exact c ltac:(lia)) as (kc & Hkc & ->).
  destruct (of_Z_exact a ltac:(lia)) as (ka & Hka & ->).
  pose proof (pow2_gt0 kc Hkc) as Pc. pose proof (pow2_gt0 ka Hka) as Pa.
  unfold div. cbn [num den].
  replace (c * 2 ^ kc * 2 ^ ka) with (2 ^ kc * 2 ^ ka * c) by ring.
  replace (2 ^ kc * (a * 2 ^ ka)) with (2 ^ kc * 2 ^ ka * a) by ring.
  rewrite round_scale by (try apply Z.mul_pos_pos; lia).
  assert (W : 1 <= 2 ^ 1048) by (pose proof (pow2_gt0 1048 ltac:(lia)); lia).
  assert (Hlo : a <= c * 2 ^ 1048).
  { revert W. generalize (2 ^ 1048). intros w W.
    assert (c * 1 <= c * w) by (apply Z.mul_le_mono_nonneg_l; lia). lia. }
  assert (Hhi : c < 2 ^ 53 * a).
  { assert (2 ^ 53 * 1 <= 2 ^ 53 * a) by (apply Z.mul_le_mono_nonneg_l; lia). lia. }
  clear W.
  destruct (round_spec c a ltac:(lia) ltac:(lia) Hlo Hhi)
    as (k & m & Hk & -> & B & A).
  clear Hlo Hhi. rewrite of_Z_1. unfold Float_le. cbn [num den].
  pose proof (pow2_gt0 k ltac:(lia)) as Pk.
  revert A Pk. generalize (2 ^ k). intros K A Pk.
  assert (M : K <= m).
  { destruct (Z.le_gt_cases K m) as [|C]; [done|]. exfalso.
    assert (m * a <= (K - 1) * a) by (apply Z.mul_le_mono_nonneg_r; lia).
    assert (a * K <= c * K) by (apply Z.mul_le_mono_nonneg_r; lia). lia. }
  assert (2 ^ 52 * K <= 2 ^ 52 * m) by (apply Z.mul_le_mono_nonneg_l; lia). lia.
Qed.

End HeatFacts.

(** X14  The lightness ratio of a cell of the week strip is a number from
    0 to 1, for every count of completions and every number of active
    habits; it is 1 as soon as the completions of the day are as many as
    the active habits or more (records of archived habits count), and 0
    when the day has no completion or there is no active habit. *)
Theorem heatRatio_range (count activeLen : Z) :
  0 <= count → 0 <= activeLen →
  Float_le (Float.of_Z 0) (heatRatio count activeLen)
  ∧ Float_le (heatRatio count activeLen) (Float.of_Z 1)
  ∧ (0 < activeLen <= count → count < 2 ^ 32 →
     heatRatio count activeLen = Float.of_Z 1)
  ∧ (activeLen = 0 ∨ count = 0 → heatRatio count activeLen = Float.of_Z 0).
Proof.
  intros Hc0 Ha0.
  assert (O : Float_le (Float.of_Z 0) (Float.of_Z 1)).
  { rewrite HeatFacts.of_Z_0, HeatFacts.of_Z_1. unfold Float_le. cbn. lia. }
  unfold heatRatio. destruct (Z.ltb_spec 0 activeLen) as [H|H].
  - destruct (HeatFacts.clamp_range
                (Float.div (Float.of_Z count) (Float.of_Z activeLen)) _ _ O) as [L U].
    split; [done|]. split; [done|]. split.
    + intros Hc Hb. pose proof (HeatFacts.div_ge_1 count activeLen Hc Hb) as G.
      unfold clamp, Math_min, Math_max.
      apply HeatFacts.leb_le in G. rewrite G.
      apply HeatFacts.leb_le in O. now rewrite O.
    + intros [->| ->]; [lia|].
      rewrite HeatFacts.of_Z_0, HeatFacts.of_Z_1.
      unfold Float.div. cbn [Float.num Float.den]. rewrite Z.mul_0_l.
      reflexivity.
  - split; [apply HeatFacts.le_refl|]. split; [done|]. split; [lia|done].
Qed.

Lemma heatRatio_range_witness :
  Float_le (Float.of_Z 0) (heatRatio 3 2)
  ∧ Float_le (heatRatio 3 2) (Float.of_Z 1)
  ∧ (0 < 2 <= 3 → 3 < 2 ^ 32 → heatRatio 3 2 = Float.of_Z 1)
  ∧ (2 = 0 ∨ 3 = 0 → heatRatio 3 2 = Float.of_Z 0).
Proof. apply (heatRatio_range 3 2); lia. Defined.

(** X15  A click on a cell of the week strip is a toggle of the first
    active habit for the day of the cell, up to the order inside the
    record; it does nothing when no habit is active or the first one has
    an empty identifier, and a second click on the cell undoes the
    first. *)
Theorem stripClick_toggles (s : State) (k : string) :
  (activeHabits (Some s) = [] → stripClick k s = s)
  ∧ (∀ h rest, activeHabits (Some s) = h :: rest →
       (id h = "" → stripClick k s = s)
       ∧ (id h ≠ "" → state_equiv (stripClick k s) (toggleToday_update k (id h) s)))
  ∧ state_equiv (stripClick k (stripClick k s)) s.
Proof.
  assert (T : ∀ h, state_equiv
      (markDay_update (id h) k (negb (includes (id h) (days s !! k))) s)
      (toggleToday_update k (id h) s)).
  { intros h. split; [done|]. split; [done|]. split; [done|].
    intros key x. rewrite StateFacts.markDay_record, StateFacts.toggle_record.
    case_decide as D; [|done]. destruct D as [-> ->].
    destruct (includes (id h) (days s !! k)) eqn:I; cbn.
    - apply StreakFacts.includes_true in I. split; [done|tauto].
    - apply StreakFacts.includes_false in I. tauto. }
  split; [|split].
  - unfold stripClick. now intros ->.
  - intros h rest E. unfold stripClick. rewrite E. split.
    + intros ->. done.
    + intros N. destruct (String.eqb_spec (id h) ""); [done|]. apply T.
  - assert (A : ∀ s', habits s' = habits s →
                activeHabits (Some s') = activeHabits (Some s)).
    { intros s' E. now rewrite !EndToEnd.activeHabits_Some, E. }
    destruct (activeHabits (Some s)) as [|h rest] eqn:E.
    { assert (S0 : stripClick k s = s) by (unfold stripClick; now rewrite E).
      rewrite !S0. apply StripFacts.state_equiv_refl. }
    destruct (String.eqb_spec (id h) "") as [Ee|Ne].
    { assert (S0 : stripClick k s = s)
        by (unfold stripClick; rewrite E, Ee; reflexivity).
      rewrite !S0. apply StripFacts.state_equiv_refl. }
    set (s1 := markDay_update (id h) k (negb (includes (id h) (days s !! k))) s).
    assert (S1 : stripClick k s = s1).
    { unfold stripClick. rewrite E. now destruct (String.eqb_spec (id h) ""). }
    rewrite S1. unfold stripClick. rewrite (A s1) by done.
    destruct (String.eqb_spec (id h) ""); [done|].
    split; [done|]. split; [done|]. split; [done|].
    intros key x. rewrite StateFacts.markDay_record.
    case_decide as D.
    + destruct D as [-> ->].
      destruct (includes (id h) (days s1 !! k)) eqn:I1; cbn.
      * apply StreakFacts.includes_true in I1. unfold s1 in I1.
        rewrite StateFacts.markDay_record, decide_True in I1 by done.
        apply negb_true_iff, StreakFacts.includes_false in I1. split; [done|tauto].
      * apply StreakFacts.includes_false in I1. unfold s1 in I1.
        rewrite StateFacts.markDay_record, decide_True in I1 by done.
        apply not_true_is_false, negb_false_iff, StreakFacts.includes_true in I1.
        tauto.
    + unfold s1. rewrite StateFacts.markDay_record. now rewrite decide_False.
Qed.

(** ** How the transitions compose *)

Module TransitionMore.
Import SetFacts StateFacts.

Lemma toLowerCase_empty s : toLowerCase s = "" → s = "".
Proof. now destruct s. Qed.

Lemma of_array_acc_NoDup (arr acc : list string) :
  NoDup (acc ++ arr) → foldl (λ a y, JSSet.add y a) acc arr = acc ++ arr.
Proof.
  revert acc. induction arr as [|y arr IH]; intros acc N; cbn [foldl].
  - now rewrite app_nil_r.
  - assert (Hy : y ∉ acc).
    { apply NoDup_app in N as (_ & N & _). intros C. apply (N y C). now left. }
    unfold JSSet.add at 2. apply has_false in Hy. rewrite Hy.
    rewrite IH; rewrite <- app_assoc; done.
Qed.

(** A [Set] built from an array without duplicates spreads back to the
    array. *)
Lemma of_array_NoDup arr : NoDup arr → JSSet.of_array arr = arr.
Proof. intros N. now apply (of_array_acc_NoDup arr []). Qed.

Lemma add_present x s : x ∈ s → JSSet.add x s = s.
Proof. intros H. unfold JSSet.add. apply has_true in H. now rewrite H. Qed.

Lemma delete_absent x s : x ∉ s → JSSet.delete x s = s.
Proof.
  intros H. unfold JSSet.delete. apply filter_all. intros y Hy ->. done.
Qed.

Lemma filter_comm {A} (P Q : A → Prop) `{∀ x, Decision (P x)} `{∀ x, Decision (Q x)}
    (l : list A) :
  filter P (filter Q l) = filter Q (filter P l).
Proof.
  induction l as [|x l IH]; [done|].
  rewrite !filter_cons.
  destruct (decide (Q x)), (decide (P x)); rewrite ?filter_cons;
    repeat (rewrite decide_True by done); repeat (rewrite decide_False by done);
    now rewrite IH.
Qed.

Lemma filter_idem {A} (P : A → Prop) `{∀ x, Decision (P x)} (l : list A) :
  filter P (filter P l) = filter P l.
Proof. apply filter_all. now intros x [? _]%list_elem_of_filter. Qed.

(** Deleting an identifier that no habit has and no record holds changes
    nothing. *)
Lemma delete_unused habitId s :
  (∀ h, h ∈ habits s → id h ≠ habitId) →
  (∀ key, habitId ∉ dayRecord (days s) key) →
  deleteHabit_update habitId s = s.
Proof.
  intros Hh Hd. destruct s as [u hs ds ls]. unfold deleteHabit_update. cbn in *.
  f_equal.
  - now apply filter_all.
  - apply map_eq. intros key. rewrite lookup_fmap.
    specialize (Hd key). unfold dayRecord in Hd.
    destruct (ds !! key) as [arr|]; cbn in *; [|done].
    f_equal. apply filter_all. intros x Hx ->. done.
Qed.

(** The record that [markDay] writes. *)
Lemma markDay_lookup habitId dayKey (done : bool) s :
  days (markDay_update habitId dayKey done s) !! dayKey
  = Some (if done then JSSet.add habitId (JSSet.of_array (dayRecord (days s) dayKey))
          else JSSet.delete habitId (JSSet.of_array (dayRecord (days s) dayKey))).
Proof.
  unfold markDay_update, JSSet.to_array. cbn [days set_days].
  rewrite lookup_insert_eq. now destruct done.
Qed.

Lemma markDay_written_NoDup habitId dayKey (done : bool) s :
  NoDup (if done then JSSet.add habitId (JSSet.of_array (dayRecord (days s) dayKey))
         else JSSet.delete habitId (JSSet.of_array (dayRecord (days s) dayKey))).
Proof.
  destruct done; [apply NoDup_add|apply NoDup_delete]; apply NoDup_of_array.
Qed.

Lemma existsb_lower_app (name' : string) (hs hs' : list Habit) :
  existsb (λ h, String.eqb (toLowerCase (name h)) (toLowerCase name')) hs = false →
  ∀ h, h ∈ hs → toLowerCase (name h) ≠ toLowerCase name'.
Proof.
  intros E h Hh C.
  assert (T : existsb (λ h, String.eqb (toLowerCase (name h)) (toLowerCase name')) hs
              = true).
  { apply existsb_exists. exists h. split; [now apply list_elem_of_In|].
    now apply String.eqb_eq. }
  congruence.
Qed.

End TransitionMore.

(** ** Invariants, step by step *)

Module InvariantFacts.
Import SetFacts StateFacts.

Lemma addHabit_Some newHabitName color newId now s s' :
  addHabit newHabitName color newId now (Some s) = Some s' →
  s' = s ∨ (s' = addHabit_update (trim newHabitName) color newId now s
            ∧ trim newHabitName ≠ "").
Proof.
  unfold addHabit. destruct (String.eqb_spec (trim newHabitName) ""); cbn;
    intros [= <-]; [now left|now right].
Qed.

Lemma distinct_update name' color newId now s :
  distinctNames s → distinctNames (addHabit_update name' color newId now s).
Proof.
  intros D. unfold addHabit_update.
  destruct (existsb _ (habits s)) eqn:X.
  - now rewrite TransitionFacts.set_habits_same.
  - unfold distinctNames. cbn [habits set_habits].
    rewrite fmap_app. apply NoDup_app. split; [exact D|].
    split; [|apply NoDup_singleton].
    intros x (h & -> & Hh)%list_elem_of_fmap Hx.
    apply list_elem_of_singleton in Hx. cbn in Hx.
    now apply (TransitionMore.existsb_lower_app _ _ [] X h Hh).
Qed.

Lemma prefix_update name' color newId now s :
  habits s `prefix_of` habits (addHabit_update name' color newId now s).
Proof.
  unfold addHabit_update. cbn [habits set_habits].
  destruct (existsb _ _); [done|now apply prefix_app_r].
Qed.

Lemma distinct_delete habitId s :
  distinctNames s → distinctNames (deleteHabit_update habitId s).
Proof.
  intros D. unfold distinctNames, deleteHabit_update. cbn [habits].
  apply (sublist_NoDup _ ((λ h, toLowerCase (name h)) <$> habits s)); [done|].
  apply fmap_sublist, sublist_filter.
Qed.

Lemma orphans_update name' color newId now s :
  noOrphans s → noOrphans (addHabit_update name' color newId now s).
Proof.
  intros O key x Hx. destruct (O key x Hx) as (h & Hh & E).
  exists h. split; [|done]. unfold addHabit_update. cbn [habits set_habits].
  destruct (existsb _ _); [done|]. apply elem_of_app. now left.
Qed.

Lemma orphans_delete habitId s :
  noOrphans s → noOrphans (deleteHabit_update habitId s).
Proof.
  intros O key x [Nx Hx]%deleteHabit_record.
  destruct (O key x Hx) as (h & Hh & E). exists h. split; [|done].
  cbn. apply list_elem_of_filter. split; [congruence|done].
Qed.

Lemma orphans_toggle h key s :
  noOrphans s → h ∈ habits s → noOrphans (toggleToday_update key (id h) s).
Proof.
  intros O Hh key' x Hx. apply toggle_record in Hx.
  case_decide as D; [destruct D as [_ ->]; now exists h|now apply O in Hx].
Qed.

Lemma orphans_markDay h key (done : bool) s :
  noOrphans s → h ∈ habits s → noOrphans (markDay_update (id h) key done s).
Proof.
  intros O Hh key' x Hx. apply markDay_record in Hx.
  case_decide as D; [destruct D as [_ ->]; now exists h|now apply O in Hx].
Qed.

Lemma nodup_delete habitId s :
  noDuplicates s → noDuplicates (deleteHabit_update habitId s).
Proof.
  intros I key arr. rewrite deleteHabit_lookup.
  destruct (days s !! key) as [arr0|] eqn:E; cbn; [|done].
  intros [= <-]. apply NoDup_filter, (I key), E.
Qed.

Lemma nodup_toggle habitId key s :
  noDuplicates s → noDuplicates (toggleToday_update key habitId s).
Proof.
  intros I key' arr. unfold toggleToday_update. cbn [days set_days].
  rewrite lookup_insert. case_decide; [|apply I].
  intros [= <-]. unfold JSSet.to_array. destruct (JSSet.has _ _).
  - apply NoDup_delete, NoDup_of_array.
  - apply NoDup_add, NoDup_of_array.
Qed.

Lemma nodup_markDay habitId key (done : bool) s :
  noDuplicates s → noDuplicates (markDay_update habitId key done s).
Proof.
  intros I key' arr. unfold markDay_update. cbn [days set_days].
  rewrite lookup_insert. case_decide; [|apply I].
  intros [= <-]. unfold JSSet.to_array. destruct done.
  - apply NoDup_add, NoDup_of_array.
  - apply NoDup_delete, NoDup_of_array.
Qed.

Lemma active_in_habits h s : h ∈ activeHabits (Some s) → h ∈ habits s.
Proof.
  rewrite EndToEnd.activeHabits_Some. now intros [_ ?]%list_elem_of_filter.
Qed.

(** What a click on the strip amounts to. *)
Lemma stripClick_cases k s :
  stripClick k s = s
  ∨ ∃ h (done : bool), h ∈ habits s ∧ stripClick k s = markDay_update (id h) k done s.
Proof.
  unfold stripClick. destruct (activeHabits (Some s)) as [|h rest] eqn:E; [now left|].
  destruct (String.eqb _ _); [now left|]. right. eexists h, _. split; [|done].
  apply active_in_habits. rewrite E. apply list_elem_of_here.
Qed.

End InvariantFacts.

(** X16  Adding a name a second time, in any case of its letters and with
    any blanks around it, any colour and any identifier, changes nothing:
    the state after the two calls is the state after the first. *)
Theorem addHabit_twice (s : State)
    (name1 name2 color1 color2 id1 id2 now1 now2 : string) :
  toLowerCase (trim name1) = toLowerCase (trim name2) →
  addHabit name2 color2 id2 now2 (addHabit name1 color1 id1 now1 (Some s))
  = addHabit name1 color1 id1 now1 (Some s).
Proof.
  intros E. unfold addHabit.
  destruct (String.eqb_spec (trim name1) "") as [E1|N1].
  - rewrite E1 in E. symmetry in E. apply TransitionMore.toLowerCase_empty in E.
    now rewrite E.
  - cbn [setState fmap option_fmap option_map].
    destruct (String.eqb_spec (trim name2) "") as [E2|N2]; [done|].
    f_equal.
    apply TransitionFacts.addHabit_update_known.
    unfold addHabit_update.
    destruct (existsb _ (habits s)) eqn:X.
    + apply TransitionFacts.existsb_lower_true in X as (h & Hh & X).
      exists h. split; [now destruct s|congruence].
    + exists (mkHabit id1 (trim name1) color1 now1 None). split; [|done].
      cbn. apply elem_of_app. right. now apply list_elem_of_singleton.
Qed.

Lemma addHabit_twice_witness :
  addHabit "  READ " "#ef4444" "id-2" "t2"
    (addHabit "Read" "#22c55e" "id-1" "t1" (Some emptyState))
  = addHabit "Read" "#22c55e" "id-1" "t1" (Some emptyState).
Proof.
  apply (addHabit_twice emptyState "Read" "  READ "). vm_compute. reflexivity.
Defined.

(** X17  [addHabit] keeps the names of the habits different up to the
    case of their letters, keeps the habits there were at the front in
    their order and does not touch the day records; [deleteHabit] keeps
    the names different too. *)
Theorem distinctNames_preserved (s : State) :
  distinctNames s →
  (∀ newHabitName color newId now s',
     addHabit newHabitName color newId now (Some s) = Some s' →
     distinctNames s' ∧ habits s `prefix_of` habits s' ∧ days s' = days s)
  ∧ (∀ habitId, distinctNames (deleteHabit_update habitId s)).
Proof.
  intros D. split.
  - intros newHabitName color newId now s' [->|[-> _]]%InvariantFacts.addHabit_Some.
    + done.
    + split; [now apply InvariantFacts.distinct_update|].
      split; [apply InvariantFacts.prefix_update|done].
  - intros habitId. now apply InvariantFacts.distinct_delete.
Qed.

Lemma distinctNames_preserved_witness :
  distinctNames sampleState
  ∧ (∀ newHabitName color newId now s',
       addHabit newHabitName color newId now (Some sampleState) = Some s' →
       distinctNames s' ∧ habits sampleState `prefix_of` habits s'
       ∧ days s' = days sampleState)
  ∧ (∀ habitId, distinctNames (deleteHabit_update habitId sampleState)).
Proof.
  assert (D : distinctNames sampleState)
    by (apply (bool_decide_unpack _); vm_compute; reflexivity).
  split; [exact D|apply (distinctNames_preserved sampleState D)].
Defined.

(** X18  Adding a habit and deleting it again by its identifier gives the
    state back exactly, provided the identifier was unused: no habit had
    it and no day record held it. *)
Theorem add_then_delete (s : State) (newHabitName color newId now : string) :
  (∀ h, h ∈ habits s → id h ≠ newId) →
  (∀ key, newId ∉ dayRecord (days s) key) →
  deleteHabit newId (addHabit newHabitName color newId now (Some s)) = Some s.
Proof.
  intros Hh Hd. unfold addHabit.
  destruct (String.eqb _ _); cbn [deleteHabit setState fmap option_fmap option_map].
  - f_equal. now apply TransitionMore.delete_unused.
  - f_equal. unfold addHabit_update.
    destruct (existsb _ (habits s)).
    + rewrite TransitionFacts.set_habits_same. now apply TransitionMore.delete_unused.
    + destruct s as [u hs ds ls]. unfold deleteHabit_update. cbn in *.
      f_equal.
      * rewrite filter_app, filter_cons_False, filter_nil, app_nil_r by (cbn; tauto).
        now apply SetFacts.filter_all.
      * apply map_eq. intros key. rewrite lookup_fmap.
        specialize (Hd key). unfold dayRecord in Hd.
        destruct (ds !! key) as [arr|]; cbn in *; [|done].
        f_equal. apply SetFacts.filter_all. intros x Hx ->. done.
Qed.

Lemma add_then_delete_witness :
  deleteHabit "id-9" (addHabit "Stretch" "#06b6d4" "id-9" "t" (Some sampleState))
  = Some sampleState.
Proof.
  apply (add_then_delete sampleState "Stretch" "#06b6d4" "id-9" "t").
  - intros h Hh. cbn in Hh.
    repeat (apply elem_of_cons in Hh as [->|Hh]; [discriminate|]).
    now apply elem_of_nil in Hh.
  - intros key. unfold dayRecord, sampleState. cbn [days].
    destruct (decide (key = "2024-03-01")) as [->|N1];
      [rewrite lookup_insert_eq|rewrite lookup_insert_ne by done;
       destruct (decide (key = "2024-02-29")) as [->|N2];
       [rewrite lookup_singleton_eq|rewrite lookup_singleton_ne by done]]; cbn;
      intros H; repeat (apply elem_of_cons in H as [H|H]; [discriminate|]);
      now apply elem_of_nil in H.
Defined.

(** X19  Deleting the same habit twice is deleting it once, and two
    deletions can be made in either order: the states are equal. *)
Theorem deleteHabit_commutes (s : State) (a b : string) :
  deleteHabit_update a (deleteHabit_update a s) = deleteHabit_update a s
  ∧ deleteHabit_update a (deleteHabit_update b s)
    = deleteHabit_update b (deleteHabit_update a s).
Proof.
  split.
  - unfold deleteHabit_update. cbn [userId habits days lastSeen]. f_equal.
    + apply TransitionMore.filter_idem.
    + apply map_eq. intros key. rewrite !lookup_fmap.
      destruct (days s !! key); cbn; [|done]. f_equal.
      apply TransitionMore.filter_idem.
  - unfold deleteHabit_update. cbn [userId habits days lastSeen]. f_equal.
    + apply TransitionMore.filter_comm.
    + apply map_eq. intros key. rewrite !lookup_fmap.
      destruct (days s !! key); cbn; [|done]. f_equal.
      apply TransitionMore.filter_comm.
Qed.

(** X20  [markDay] is idempotent: a second call with the same arguments
    leaves the state of the first exactly as it is; and of two calls for
    the same habit and day the last one decides (the first could be left
    out). *)
Theorem markDay_idempotent (s : State) (habitId dayKey : string) (done done' : bool) :
  markDay_update habitId dayKey done (markDay_update habitId dayKey done s)
  = markDay_update habitId dayKey done s
  ∧ state_equiv
      (markDay_update habitId dayKey done (markDay_update habitId dayKey done' s))
      (markDay_update habitId dayKey done s).
Proof.
  split.
  - set (s1 := markDay_update habitId dayKey done s).
    assert (L : days s1 !! dayKey = Some (dayRecord (days s1) dayKey)).
    { unfold dayRecord, s1. now rewrite TransitionMore.markDay_lookup. }
    assert (N : NoDup (dayRecord (days s1) dayKey)).
    { unfold dayRecord, s1. rewrite TransitionMore.markDay_lookup. cbn.
      apply TransitionMore.markDay_written_NoDup. }
    assert (M : habitId ∈ dayRecord (days s1) dayKey ↔ done = true).
    { unfold s1. rewrite StateFacts.markDay_record. now rewrite decide_True. }
    assert (X : (if done then JSSet.add habitId (dayRecord (days s1) dayKey)
                 else JSSet.delete habitId (dayRecord (days s1) dayKey))
                = dayRecord (days s1) dayKey).
    { destruct done.
      - apply TransitionMore.add_present. now apply M.
      - apply TransitionMore.delete_absent. intros C. now apply M in C. }
    clearbody s1. unfold markDay_update, JSSet.to_array.
    fold (dayRecord (days s1) dayKey).
    rewrite TransitionMore.of_array_NoDup, X, insert_id by done.
    now destruct s1.
  - split; [done|]. split; [done|]. split; [done|].
    intros key x.
    rewrite (StateFacts.markDay_record habitId dayKey done (markDay_update _ _ _ _)).
    rewrite (StateFacts.markDay_record habitId dayKey done s).
    case_decide; [tauto|]. now rewrite StateFacts.markDay_record, decide_False.
Qed.

(** X21  Two completions can be recorded in either order: toggles and
    [markDay] calls for different days commute exactly, and two toggles
    commute in any case as far as the sets of the day records go. *)
Theorem completions_commute (s : State) (k1 k2 a b : string) (done1 done2 : bool) :
  (k1 ≠ k2 →
   toggleToday_update k1 a (toggleToday_update k2 b s)
   = toggleToday_update k2 b (toggleToday_update k1 a s)
   ∧ markDay_update a k1 done1 (markDay_update b k2 done2 s)
     = markDay_update b k2 done2 (markDay_update a k1 done1 s)
   ∧ toggleToday_update k1 a (markDay_update b k2 done2 s)
     = markDay_update b k2 done2 (toggleToday_update k1 a s))
  ∧ state_equiv (toggleToday_update k1 a (toggleToday_update k2 b s))
                (toggleToday_update k2 b (toggleToday_update k1 a s)).
Proof.
  split.
  - intros N. unfold toggleToday_update, markDay_update.
    cbn [days set_days userId habits lastSeen].
    rewrite !lookup_insert_ne by done.
    split; [|split]; f_equal; now apply insert_insert_ne.
  - split; [done|]. split; [done|]. split; [done|].
    intros key x.
    rewrite (StateFacts.toggle_record k1 a (toggleToday_update k2 b s)).
    rewrite (StateFacts.toggle_record k2 b (toggleToday_update k1 a s)).
    pose proof (StateFacts.toggle_record k2 b s key x) as T2.
    pose proof (StateFacts.toggle_record k1 a s key x) as T1.
    repeat case_decide; tauto.
Qed.

(** X22  After a toggle or a [markDay] the record of the day exists and
    holds no identifier twice, even if it held some twice before. *)
Theorem completion_dedups (s : State) (habitId key : string) (done : bool) :
  (∃ arr, days (toggleToday_update key habitId s) !! key = Some arr ∧ NoDup arr)
  ∧ (∃ arr, days (markDay_update habitId key done s) !! key = Some arr ∧ NoDup arr).
Proof.
  split.
  - unfold toggleToday_update, JSSet.to_array. cbn [days set_days].
    rewrite lookup_insert_eq. eexists. split; [reflexivity|].
    destruct (JSSet.has _ _).
    + apply SetFacts.NoDup_delete, SetFacts.NoDup_of_array.
    + apply SetFacts.NoDup_add, SetFacts.NoDup_of_array.
  - rewrite TransitionMore.markDay_lookup. eexists. split; [reflexivity|].
    apply TransitionMore.markDay_written_NoDup.
Qed.

(** X23  The day records refer to known habits after every operation if
    they did before: after [addHabit], after [deleteHabit] of any
    identifier, and after a toggle or a [markDay] for the identifier of a
    habit of the state. *)
Theorem noOrphans_preserved (s : State) :
  noOrphans s →
  (∀ newHabitName color newId now s',
     addHabit newHabitName color newId now (Some s) = Some s' → noOrphans s')
  ∧ (∀ habitId, noOrphans (deleteHabit_update habitId s))
  ∧ (∀ h key done, h ∈ habits s →
       noOrphans (toggleToday_update key (id h) s)
       ∧ noOrphans (markDay_update (id h) key done s)).
Proof.
  intros O. split; [|split].
  - intros newHabitName color newId now s' [->|[-> _]]%InvariantFacts.addHabit_Some;
      [done|now apply InvariantFacts.orphans_update].
  - intros habitId. now apply InvariantFacts.orphans_delete.
  - intros h key done Hh. split.
    + now apply InvariantFacts.orphans_toggle.
    + now apply InvariantFacts.orphans_markDay.
Qed.

Lemma noOrphans_preserved_witness :
  noOrphans sampleState
  ∧ (∀ newHabitName color newId now s',
       addHabit newHabitName color newId now (Some sampleState) = Some s' →
       noOrphans s')
  ∧ (∀ habitId, noOrphans (deleteHabit_update habitId sampleState))
  ∧ (∀ h key done, h ∈ habits sampleState →
       noOrphans (toggleToday_update key (id h) sampleState)
       ∧ noOrphans (markDay_update (id h) key done sampleState)).
Proof.
  assert (O : noOrphans sampleState).
  { intros key x. unfold dayRecord, sampleState. cbn [days habits].
    destruct (decide (key = "2024-03-01")) as [->|N1];
      [rewrite lookup_insert_eq|rewrite lookup_insert_ne by done;
       destruct (decide (key = "2024-02-29")) as [->|N2];
       [rewrite lookup_singleton_eq|rewrite lookup_singleton_ne by done]]; cbn;
      intros H; repeat (apply elem_of_cons in H as [->|H];
        [first [ exists (mkHabit "a" "Read" "#ef4444" "t" None);
                 split; [apply list_elem_of_here|reflexivity]
               | exists (mkHabit "b" "Walk" "#22c55e" "t" (Some true));
                 split; [apply list_elem_of_further, list_elem_of_here|reflexivity] ]|]);
      now apply elem_of_nil in H. }
  split; [exact O|apply (noOrphans_preserved sampleState O)].
Defined.

(** ** What holds of every state the component reaches *)

(** X24  Every state that the handlers reach from a first run keeps the
    invariants of the data model: no day record holds an identifier
    twice, every identifier in a day record is that of a habit, and no
    two habits have the same name up to the case of the letters. *)
Theorem reachable_invariants (s : State) :
  reachable s → noDuplicates s ∧ noOrphans s ∧ distinctNames s.
Proof.
  induction 1 as [u h c t|u t|s n c i t s' _ IH E|s h _ IH Hh|s h k _ IH Hh|s k _ IH].
  - split; [|split].
    + intros key arr. cbn. now rewrite lookup_empty.
    + intros key x. unfold dayRecord. cbn. rewrite lookup_empty. cbn.
      now intros ?%elem_of_nil.
    + unfold distinctNames. cbn. apply NoDup_singleton.
  - split; [|split].
    + intros key arr. cbn. now rewrite lookup_empty.
    + intros key x. unfold dayRecord. cbn. rewrite lookup_empty. cbn.
      now intros ?%elem_of_nil.
    + unfold distinctNames. cbn. apply NoDup_nil_2.
  - destruct IH as (I & O & D).
    apply InvariantFacts.addHabit_Some in E as [->|[-> _]]; [done|].
    split; [|split].
    + intros key arr. rewrite TransitionFacts.addHabit_update_days. apply I.
    + now apply InvariantFacts.orphans_update.
    + now apply InvariantFacts.distinct_update.
  - destruct IH as (I & O & D). split; [|split].
    + now apply InvariantFacts.nodup_delete.
    + now apply InvariantFacts.orphans_delete.
    + now apply InvariantFacts.distinct_delete.
  - destruct IH as (I & O & D). split; [|split].
    + now apply InvariantFacts.nodup_toggle.
    + apply InvariantFacts.orphans_toggle; [done|].
      now apply InvariantFacts.active_in_habits.
    + done.
  - destruct IH as (I & O & D).
    destruct (InvariantFacts.stripClick_cases k s) as [->|(h & b & Hh & ->)]; [done|].
    split; [|split].
    + now apply InvariantFacts.nodup_markDay.
    + now apply InvariantFacts.orphans_markDay.
    + done.
Qed.

Lemma reachable_invariants_witness :
  noDuplicates (stripClick "2024-03-01" (initial "id-0" "id-1" "t0" "t0"))
  ∧ noOrphans (stripClick "2024-03-01" (initial "id-0" "id-1" "t0" "t0"))
  ∧ distinctNames (stripClick "2024-03-01" (initial "id-0" "id-1" "t0" "t0")).
Proof.
  apply (reachable_invariants (stripClick "2024-03-01" (initial "id-0" "id-1" "t0" "t0"))).
  apply reach_strip, reach_initial.
Defined.

Module StreakBound.
Import StreakFacts.

(** More fuel does not change a result. *)
Lemma loop_more z fuel habitId (ds : gmap string (list string)) : ∀ fuel' streak cursor n,
  (fuel <= fuel')%nat →
  getStreak_loop z fuel habitId ds streak cursor = Some n →
  getStreak_loop z fuel' habitId ds streak cursor = Some n.
Proof.
  induction fuel as [|fuel IH]; intros fuel' streak cursor n Hf; [done|].
  destruct fuel' as [|fuel']; [lia|]. cbn [getStreak_loop].
  destruct (includes _ _); [|done]. apply IH. lia.
Qed.

(** Keys without repetition that all have a record are no more than the
    records. *)
Lemma keys_le_size (ds : gmap string (list string)) (l : list string) :
  NoDup l → (∀ k, k ∈ l → is_Some (ds !! k)) → (length l <= size ds)%nat.
Proof.
  intros N H. rewrite <- size_dom. unfold size, set_size. cbn.
  apply submseteq_length, NoDup_submseteq; [done|].
  intros k Hk. apply elem_of_elements, elem_of_dom. now apply H.
Qed.

Lemma record_is_Some habitId (ds : gmap string (list string)) key :
  habitId ∈ dayRecord ds key → is_Some (ds !! key).
Proof.
  unfold dayRecord. destruct (ds !! key); [eauto|]. cbn. now intros ?%elem_of_nil.
Qed.

End StreakBound.

(** X25  In a host time zone that skips no local calendar day, a streak
    is never longer than the number of days that have a record: from a
    date key and over records under date keys, [getStreak] returns, with
    enough fuel, a number from 0 to the number of keys of [days], and
    with any fuel it returns that number or runs out. *)
Theorem streak_le_records (z : JSDate.Zone) (ds : gmap string (list string))
    (habitId asOf : string) :
  JSDate.keepsDays z →
  isDateKey asOf = true →
  (∀ key, is_Some (ds !! key) → isDateKey key = true) →
  ∃ n : Z, 0 <= n <= Z.of_nat (size ds)
    ∧ (∃ fuel0 : nat, ∀ fuel : nat, (fuel0 <= fuel)%nat →
         getStreak z fuel habitId ds asOf = Some n)
    ∧ (∀ (fuel : nat) (m : Z), getStreak z fuel habitId ds asOf = Some m → m = n).
Proof.
  intros Kz Hk Hds.
  destruct (ShiftFacts.dateKey_ofDay asOf Hk) as (t0 & E0 & B).
  assert (C0 : asOf = cursorAt t0 0).
  { rewrite E0. unfold cursorAt. do 2 f_equal. lia. }
  destruct (StreakFacts.loop_stops z Kz ds habitId t0 B Hds (S (spanOf t0)) 0 0)
    as (m & Hm & R & P & A); [lia..|].
  rewrite <- C0 in R.
  change (getStreak z (S (spanOf t0)) habitId ds asOf = Some (0 + Z.of_nat (m - 0))) in R.
  exists (0 + Z.of_nat (m - 0)). split; [|split].
  - assert (L : (length (cursorAt t0 <$> seq 0 m) <= size ds)%nat).
    { apply StreakBound.keys_le_size.
      - apply NoDup_fmap_2_strong; [|apply NoDup_seq].
        intros i j Hi%elem_of_seq Hj%elem_of_seq E.
        apply (StreakMore.cursor_inj t0 i j); (done || lia).
      - intros k (i & -> & Hi%elem_of_seq)%list_elem_of_fmap.
        apply (StreakBound.record_is_Some habitId). apply P. lia. }
    rewrite length_fmap, length_seq in L. lia.
  - exists (S (spanOf t0)). intros fuel Hf.
    now apply (StreakBound.loop_more z (S (spanOf t0))).
  - intros fuel m' R'.
    apply (StreakBound.loop_more z _ _ _ (fuel + S (spanOf t0))) in R'; [|lia].
    apply (StreakBound.loop_more z _ _ _ (fuel + S (spanOf t0))) in R; [|lia].
    unfold getStreak in R'. rewrite R in R'. now injection R' as <-.
Qed.

Lemma streak_le_records_witness :
  ∃ n : Z, 0 <= n <= Z.of_nat (size fiveDays)
    ∧ (∃ fuel0 : nat, ∀ fuel : nat, (fuel0 <= fuel)%nat →
         getStreak JSDate.paris2024 fuel "run" fiveDays "2024-03-03" = Some n)
    ∧ (∀ (fuel : nat) (m : Z),
         getStreak JSDate.paris2024 fuel "run" fiveDays "2024-03-03" = Some m → m = n).
Proof.
  apply (streak_le_records JSDate.paris2024 fiveDays "run" "2024-03-03").
  - apply JSDateFacts.paris2024_keepsDays.
  - vm_compute. reflexivity.
  - intros key [arr H].
    assert (F : map_Forall (λ k _, isDateKey k = true) fiveDays).
    { unfold fiveDays. repeat apply map_Forall_insert_2; try (vm_compute; reflexivity).
      apply map_Forall_empty. }
    exact (F key arr H).
Defined.

(** X26  In every zone, the key of a time whose local day is in the
    years 1000 to 9999 is a well-formed date key, and it reads back as
    the date of that local day: so is the key of today that the
    component computes from the clock. *)
Theorem toLocalDateKey_dateKey (z : JSDate.Zone) (t : Z) :
  JSDate.DayFromYear 1000 <= JSDate.Day (JSDate.LocalTime z t) < JSDate.DayFromYear 10000 →
  isDateKey (toLocalDateKey z (Some t)) = true
  ∧ keyDate (toLocalDateKey z (Some t))
    = Some (Calendar.ofDay (JSDate.Day (JSDate.LocalTime z t))).
Proof.
  rewrite StreakFacts.DayFromYear_1000, StreakFacts.DayFromYear_10000.
  rewrite KeyFacts.toLocalDateKey_format.
  generalize (JSDate.Day (JSDate.LocalTime z t)). clear t. intros t Ht.
  assert (K : keyDate (Calendar.format (Calendar.ofDay t)) = Some (Calendar.ofDay t))
    by (apply ShiftFacts.keyDate_format; lia).
  split; [|done]. unfold isDateKey. rewrite K.
  destruct (JSDateFacts.ofDay_valid t) as [V _].
  assert (Y : 1000 <= JSDate.YearFromTime t < 10000).
  { split.
    - apply JSDateFacts.YearFromTime_ge. rewrite StreakFacts.DayFromYear_1000. lia.
    - apply JSDateFacts.YearFromTime_lt. rewrite StreakFacts.DayFromYear_10000. lia. }
  revert V. unfold Calendar.ofDay, Calendar.valid, Calendar.validb. intros [Vm Vd].
  rewrite String.eqb_refl, !andb_true_r.
  repeat (apply andb_true_intro; split); apply Z.leb_le; lia.
Qed.

Lemma toLocalDateKey_dateKey_witness :
  isDateKey (toLocalDateKey JSDate.apia (Some 1325239200000)) = true
  ∧ keyDate (toLocalDateKey JSDate.apia (Some 1325239200000))
    = Some (Calendar.ofDay (JSDate.Day (JSDate.LocalTime JSDate.apia 1325239200000))).
Proof.
  apply (toLocalDateKey_dateKey JSDate.apia 1325239200000).
  vm_compute. split; [discriminate|reflexivity].
Defined.
